(** * Probe synchronisation (ibllib.ephys.sync_probes)

    A shallow embedding of [src/ibllib/ephys/sync_probes.py] and the
    properties of its specification.

    Numbers: numpy's float64 arrays are modelled as lists of exact
    rationals ([Q]); equality of computed numbers is [Qeq] ([==]).
    Where a property depends on the rounding of float64 it is written out
    (section float64 arithmetic); NaN and infinities are outside the model.

    Effects: the functions write [.npy] files, log through [_logger] and
    draw on matplotlib axes, and they raise Python exceptions.  They are
    modelled in a state-and-exception monad [M] over the record [sys];
    the state reached when an exception is raised is kept, as files written
    before a failure stay on disk. *)

From Stdlib Require Import QArith Qabs Qround Lqa ZArith Lia List Ascii String.
From stdpp Require Import base option list gmap strings.

Local Open Scope Q_scope.

(** ** Exceptions and results *)

Inductive exn : Type :=
| ValueError (msg : string)
| TypeError (msg : string)
| IndexError (msg : string)
| KeyError (key : string)
| AssertionError
| FileNotFoundError (file : string).

Inductive res (A : Type) : Type :=
| Ok (a : A)
| Raise (e : exn).
Arguments Ok {A} a.
Arguments Raise {A} e.

Definition res_bind {A B} (r : res A) (k : A -> res B) : res B :=
  match r with
  | Ok a => k a
  | Raise e => Raise e
  end.

(** ** Comparisons on rationals *)

Definition Qltb (x y : Q) : bool := negb (Qle_bool y x).

(** A column of an N x 2 array: [a[:, 0]] and [a[:, 1]]. *)
Abbreviation table := (list (Q * Q)).
Definition col0 (a : table) : list Q := map fst a.
Definition col1 (a : table) : list Q := map snd a.

(** Rows compared number by number. *)
Definition row_eq (r r' : Q * Q) : Prop := fst r == fst r' /\ snd r == snd r'.
Definition table_eq (a b : table) : Prop := Forall2 row_eq a b.

(** Strictly increasing sequence. *)
Fixpoint increasing (l : list Q) : Prop :=
  match l with
  | x :: l' =>
      match l' with
      | y :: _ => x < y /\ increasing l'
      | [] => True
      end
  | [] => True
  end.

(** ** numpy *)
Module np.

(** [np.arange(start, stop, step)] for a positive step:
    [ceil((stop - start) / step)] values [start + i * step]. *)
Definition arange (start stop step : Q) : list Q :=
  let n := Z.to_nat (Qceiling ((stop - start) / step)) in
  map (fun i => start + inject_Z (Z.of_nat i) * step) (seq 0 n).

(** [np.polyval(p, x)], Horner's scheme from the highest-order
    coefficient: [y = 0; for pv in p: y = y * x + pv]. *)
Definition polyval1 (p : list Q) (x : Q) : Q :=
  fold_left (fun y pv => y * x + pv) p 0.
Definition polyval (p : list Q) (x : list Q) : list Q := map (polyval1 p) x.

(** Element-wise arithmetic on arrays of one shape. *)
Definition sub (a b : list Q) : list Q := zip_with Qminus a b.
Definition add (a b : list Q) : list Q := zip_with Qplus a b.
Definition scale (a : list Q) (k : Q) : list Q := map (fun v => v * k) a.

(** [np.c_[a, b]] of two 1-D arrays of one length: the N x 2 array of
    their rows. *)
Definition c_ (a b : list Q) : table := zip a b.

(** [np.max] (of a non-empty array). *)
Definition max (a : list Q) : Q :=
  match a with
  | [] => 0
  | x :: a' => fold_left (fun m v => if Qltb m v then v else m) a' x
  end.

(** Linear search of [np.interp] in increasing sample points [xp]:
    [(x0, y0)] is the last sample seen, with [x0 <= x]. *)
Fixpoint interp_from (x x0 y0 : Q) (rest : table) : Q :=
  match rest with
  | [] => y0
  | (x1, y1) :: rest' =>
      if Qltb x x1 then
        if Qeq_bool x0 x then y0
        else (y1 - y0) / (x1 - x0) * (x - x0) + y0
      else interp_from x x1 y1 rest'
  end.

Definition interp1 (x : Q) (pts : table) : Q :=
  match pts with
  | [] => 0
  | (x0, y0) :: rest => if Qltb x x0 then y0 else interp_from x x0 y0 rest
  end.

(** [np.interp(x, xp, fp)]: piecewise-linear through increasing sample
    points, constant ([fp[0]], [fp[-1]]) outside them. *)
Definition interp (x xp fp : list Q) : res (list Q) :=
  if (length xp =? 0)%nat then
    Raise (ValueError "array of sample points is empty")
  else if negb (length xp =? length fp)%nat then
    Raise (ValueError "fp and xp are not of the same length.")
  else Ok (map (fun v => interp1 v (zip xp fp)) x).

(** Sorting, for [np.median]. *)
Fixpoint insert_sorted (v : Q) (l : list Q) : list Q :=
  match l with
  | [] => [v]
  | w :: l' => if Qle_bool v w then v :: l else w :: insert_sorted v l'
  end.
Definition sort (l : list Q) : list Q := foldr insert_sorted [] l.

(** [np.median] of a non-empty 1-D array: the middle value of the sorted
    array, the mean of the two middle values when the size is even. *)
Definition median (a : list Q) : Q :=
  let s := sort a in
  let n := length s in
  if Nat.even n then (nth (n / 2 - 1) s 0 + nth (n / 2) s 0) / 2
  else nth (n / 2) s 0.

(** [np.pad(a, (before, after), mode='median', stat_length=len)]: each side
    is filled with the median of the [len] values at that edge ([len]
    limited to the size of the array). *)
Definition pad_median (a : list Q) (before after : nat) (stat_length : nat)
  : res (list Q) :=
  match a with
  | [] =>
      if ((before =? 0) && (after =? 0))%nat then Ok []
      else Raise (ValueError
        "can't extend empty axis 0 using modes other than 'constant' or 'empty'")
  | _ =>
      let len := Nat.min stat_length (length a) in
      let left := median (take len a) in
      let right := median (drop (length a - len) a) in
      Ok (replicate before left ++ a ++ replicate after right)
  end.

(** [np.in1d(a, np.array([v]))]. *)
Definition in1d (a : list Z) (v : Z) : list bool := map (fun c => (c =? v)%Z) a.

(** [np.all(~mask)]. *)
Definition all_not (mask : list bool) : bool := forallb negb mask.

(** [a[mask]] for a boolean mask, which must have the length of [a]. *)
Fixpoint select {A} (a : list A) (mask : list bool) : list A :=
  match a, mask with
  | v :: a', b :: mask' => if b then v :: select a' mask' else select a' mask'
  | _, _ => []
  end.
Definition getitem_mask {A} (a : list A) (mask : list bool) : res (list A) :=
  if (length a =? length mask)%nat then Ok (select a mask)
  else Raise (IndexError "boolean index did not match indexed array").

(** [np.argmax] of a 1-D array of counts: the index of the first
    occurrence of the maximum. *)
Fixpoint argmax_from (best_i : nat) (best : Z) (i : nat) (a : list Z) : nat :=
  match a with
  | [] => best_i
  | v :: a' =>
      if (best <? v)%Z then argmax_from i v (S i) a'
      else argmax_from best_i best (S i) a'
  end.
Definition argmax (a : list Z) : nat :=
  match a with
  | [] => 0%nat
  | v :: a' => argmax_from 0 v 1 a'
  end.

(** [np.r_[rows].transpose()] of [rows] that all have [ncols] entries:
    row [k] of the result holds entry [k] of every input row. *)
Fixpoint transpose (ncols : nat) (rows : list (list Q)) : list (list Q) :=
  match ncols with
  | O => []
  | S n => map (fun r => hd 0 r) rows :: transpose n (map (fun r => tl r) rows)
  end.

(** [a[:, ind]]. *)
Definition column (a : list (list Q)) (ind : nat) : list Q :=
  map (fun r => nth ind r 0) a.

End np.

(** ** scipy.interpolate.interp1d, linear, [fill_value='extrapolate'] *)
Module scipy.

(** [interp1d] sorts its points by abscissa first ([assume_sorted=False],
    a stable sort). *)
Fixpoint insert_by_x (p : Q * Q) (l : table) : table :=
  match l with
  | [] => [p]
  | q :: l' => if Qle_bool (fst p) (fst q) then p :: l else q :: insert_by_x p l'
  end.
Definition sort_by_x (pts : table) : table := foldr insert_by_x [] pts.

(** [np.searchsorted(x, v)] (side left) in a sorted array: the number of
    entries smaller than [v]. *)
Fixpoint searchsorted (x : list Q) (v : Q) : nat :=
  match x with
  | [] => 0%nat
  | x0 :: x' => if Qltb x0 v then S (searchsorted x' v) else 0%nat
  end.

(** [interp1d._call_linear]: the segment is chosen by [searchsorted],
    clipped to [1 .. len - 1], so that queries outside the points use the
    first or the last segment. *)
Definition _call_linear (pts : table) (x_new : Q) : Q :=
  let x := col0 pts in
  let y := col1 pts in
  let hi := Nat.min (Nat.max (searchsorted x x_new) 1) (length x - 1) in
  let lo := (hi - 1)%nat in
  let x_lo := nth lo x 0 in
  let x_hi := nth hi x 0 in
  let y_lo := nth lo y 0 in
  let y_hi := nth hi y 0 in
  let slope := (y_hi - y_lo) / (x_hi - x_lo) in
  slope * (x_new - x_lo) + y_lo.

(** The constructor checks the two lengths, reshapes [y] to two dimensions
    ([y.reshape((y.shape[0], -1))], which numpy refuses for an empty
    array), and then asks for the two points of a linear interpolant. *)
Definition interp1d (x y : list Q) : res (Q -> Q) :=
  if negb (length x =? length y)%nat then
    Raise (ValueError
      "x and y arrays must be equal in length along interpolation axis.")
  else if (length y =? 0)%nat then
    Raise (ValueError "cannot reshape array of size 0 into shape (0,newaxis)")
  else if (length x <? 2)%nat then
    Raise (ValueError "x and y arrays must have at least 2 entries")
  else Ok (_call_linear (sort_by_x (zip x y))).

End scipy.

(** ** Python strings and pathlib *)
Module pathlib.

(** [s.replace(old, new)] for a non-empty [old]: every non-overlapping
    occurrence, from the left.  [skip] counts the characters of a matched
    occurrence that are still to be dropped. *)
Fixpoint replace_from (skip : nat) (old new s : string) : string :=
  match s with
  | EmptyString => EmptyString
  | String c s' =>
      match skip with
      | S k => replace_from k old new s'
      | O =>
          if String.prefix old s
          then new +:+ replace_from (String.length old - 1) old new s'
          else String c (replace_from 0 old new s')
      end
  end.
Definition replace (s old new : string) : string := replace_from 0 old new s.

(** [s.rfind('.')]: position of the last dot, if there is one. *)
Fixpoint rfind_dot (s : string) : option nat :=
  match s with
  | EmptyString => None
  | String c s' =>
      match rfind_dot s' with
      | Some i => Some (S i)
      | None => if Ascii.eqb c "."%char then Some 0%nat else None
      end
  end.

(** A path: its directory ([.parent]) and its final component ([.name]). *)
Record Path : Type := mkPath { parent : string; name : string }.

#[export] Instance Path_eq_dec : EqDecision Path.
Proof. solve_decision. Defined.

#[export] Instance Path_countable : Countable Path.
Proof.
  refine (inj_countable' (fun p => (parent p, name p))
                         (fun q => mkPath (fst q) (snd q)) _).
  intros []. reflexivity.
Defined.

(** [p.joinpath(n)] for a relative one-component [n]. *)
Definition joinpath (dir : string) (n : string) : Path := mkPath dir n.

(** [p.suffix]: the part of the name from its last dot, when that dot is
    neither the first nor the last character. *)
Definition suffix_start (n : string) : option nat :=
  match rfind_dot n with
  | Some i =>
      if ((0 <? i) && (i <? String.length n - 1))%nat then Some i else None
  | None => None
  end.

(** [p.with_suffix(suffix)]. *)
Definition with_suffix (p : Path) (suffix : string) : Path :=
  match suffix_start (name p) with
  | Some i => mkPath (parent p) (String.substring 0 i (name p) +:+ suffix)
  | None => mkPath (parent p) (name p +:+ suffix)
  end.

End pathlib.
Export pathlib.

(** ** The world the functions act on *)

(** Records emitted on [_logger]; the tolerance formatted into the error
    message is kept as a number. *)
Inductive log_record : Type :=
| Warning (msg : string)
| Error (msg : string) (tol : Q).

(** Calls made on matplotlib axes. *)
Inductive plot_call : Type :=
| Axes                                       (* plt.axes() *)
| Plot (x y : list Q) (fmt : option string)  (* ax.plot / plt.plot *)
| XLabel (label : string)
| YLabel (label : string).

Record sys : Type := mkSys {
  files : gmap Path table;   (* the .npy files on disk *)
  logs : list log_record;    (* records emitted on _logger, oldest first *)
  plots : list plot_call     (* drawing calls, oldest first *)
}.

(** State and exceptions. *)
Definition M (A : Type) : Type := sys -> sys * res A.

Definition ret {A} (a : A) : M A := fun s => (s, Ok a).
Definition raise {A} (e : exn) : M A := fun s => (s, Raise e).
Definition bind {A B} (m : M A) (k : A -> M B) : M B :=
  fun s =>
    match m s with
    | (s', Ok a) => k a s'
    | (s', Raise e) => (s', Raise e)
    end.
Definition lift {A} (r : res A) : M A := fun s => (s, r).

Declare Scope py_scope.
Delimit Scope py_scope with py.
Notation "x <- m ;; k" := (bind m (fun x => k))
  (at level 62, m at next level, right associativity) : py_scope.
Notation "m ;;; k" := (bind m (fun _ => k))
  (at level 62, right associativity) : py_scope.
Local Open Scope py_scope.

Definition logger_warning (msg : string) : M unit :=
  fun s => (mkSys (files s) (logs s ++ [Warning msg]) (plots s), Ok tt).
Definition logger_error (msg : string) (tol : Q) : M unit :=
  fun s => (mkSys (files s) (logs s ++ [Error msg tol]) (plots s), Ok tt).
Definition draw (c : plot_call) : M unit :=
  fun s => (mkSys (files s) (logs s) (plots s ++ [c]), Ok tt).

Definition path_str (p : Path) : string := parent p +:+ "/" +:+ name p.

(** [np.load(file)] and [np.save(file, a)] of N x 2 arrays. *)
Definition np_load (file : Path) : M table :=
  fun s =>
    match files s !! file with
    | Some a => (s, Ok a)
    | None => (s, Raise (FileNotFoundError (path_str file)))
    end.
Definition np_save (file : Path) (a : table) : M unit :=
  fun s => (mkSys (<[file := a]> (files s)) (logs s) (plots s), Ok tt).

(** ** apply_sync (lines 17-32) *)
Definition apply_sync (sync_file : Path) (times : list Q) (forward : bool)
  : M (list Q) :=
  sync_points <- np_load sync_file ;;
  fcn <- lift (if forward
               then scipy.interp1d (col0 sync_points) (col1 sync_points)
               else scipy.interp1d (col1 sync_points) (col0 sync_points)) ;;
  ret (map fcn times).

(** ** Sessions

    What the collaborators outside this file return for a session folder:
    [spikeglx.get_neuropixel_version_from_folder], [spikeglx.glob_ephys_files],
    [alf.io.load_object(.., '_spikeglx_sync')], [get_ibl_sync_map] and the
    sampling rate read from the meta-data file ([_get_sr], lines 210-212). *)

Record Sync : Type := mkSync {
  channels : list Z;   (* sync['channels'] *)
  times : list Q       (* sync['times'] *)
}.

Record ephys_file : Type := mkEphys {
  ap : Path;                  (* ephys_file.ap, the binary file of a probe *)
  nidq : bool;                (* ef.get('nidq') is set: the shared NI-DAQ unit *)
  spikeglx_sync : Sync;       (* the extracted _spikeglx_sync object *)
  sync_map : gmap string Z;   (* get_ibl_sync_map(ef, version) *)
  _get_sr : Q                 (* sampling rate of the meta-data file *)
}.

Record session : Type := mkSession {
  neuropixel_version : string;        (* '3A' or '3B' *)
  glob_ephys_files : list ephys_file
}.

(** The [display] argument: a boolean or a [matplotlib.axes.Axes]. *)
Inductive display_arg : Type :=
| DisplayBool (b : bool)
| DisplayAxes.

Definition truthy (display : display_arg) : bool :=
  match display with
  | DisplayBool b => b
  | DisplayAxes => true
  end.

(** Keyword arguments forwarded by [sync]. *)
Record kwargs : Type := mkKwargs {
  kw_display : option display_arg;
  kw_linear : option bool;
  kw_tol : option Q
}.

(** [a[start:-stop]]. *)
Definition slice_neg {A} (a : list A) (start stop : nat) : list A :=
  if (stop =? 0)%nat then []
  else drop start (take (length a - stop) a).

(** [a[i]] of a Python sequence. *)
Definition getitem {A} (a : list A) (i : nat) : res A :=
  match a !! i with
  | Some v => Ok v
  | None => Raise (IndexError "index out of range")
  end.

Fixpoint mapM {A B} (f : A -> res B) (l : list A) : res (list B) :=
  match l with
  | [] => Ok []
  | a :: l' =>
      res_bind (f a) (fun b =>
      res_bind (mapM f l') (fun bs => Ok (b :: bs)))
  end.

(** Python's [min] of a non-empty list. *)
Definition py_min (l : list Q) : Q :=
  match l with
  | [] => 0
  | x :: l' => fold_left (fun m v => if Qltb v m then v else m) l' x
  end.
Definition py_min_nat (l : list nat) : nat :=
  match l with
  | [] => 0%nat
  | x :: l' => fold_left Nat.min l' x
  end.

(** Modelled from the spec: [ibllib.misc.log2session_static], the decorator
    of [sync], is not among the sources.  It attaches a session log file
    (section 9, global logging side effects) and hands back what the
    decorated function returns. *)
Definition log2session_static {A} (subfolder : string) (f : M A) : M A := f.

Section SyncProbes.

(** The least-squares solver inside [np.polyfit(x, y, 1)]: slope and
    intercept of the fitted line. *)
Variable lstsq : list Q -> list Q -> Q * Q.

(** [ibllib.dsp.lp(ts, si, b)], the low-pass filter applied to the padded
    residual; its module is not among the sources. *)
Variable lp : list Q -> Q -> Q * Q -> list Q.

(** [ibllib.io.extractors.ephys_fpga._get_sync_fronts(sync, channel_nb)],
    not among the sources: the times of the fronts of one channel. *)
Variable _get_sync_fronts : Sync -> Z -> list Q.

(** [np.polyfit(x, y, 1)]: highest-order coefficient first. *)
Definition polyfit (x y : list Q) : res (list Q) :=
  if (length x =? 0)%nat then
    Raise (TypeError "expected non-empty vector for x")
  else if negb (length x =? length y)%nat then
    Raise (TypeError "expected x and y to have same length")
  else Ok [fst (lstsq x y); snd (lstsq x y)].

(** The verification of lines 201-203:
    [np.any(np.abs((tref - fcn(t)) * sr) > (tol))]. *)
Definition exceeds_tol (fcn : Q -> Q) (t tref : list Q) (sr tol : Q) : bool :=
  existsb (fun e => Qltb tol (Qabs e)) (np.scale (np.sub tref (map fcn t)) sr).

(** ** sync_probe_front_times (lines 146-207) *)

(** Lines 157-200: the control points [sync_points], with the diagnostic
    plots of the [display] argument. *)
Definition fit_sync_points (t tref : list Q) (sr : Q)
    (display : display_arg) (linear : bool) : M table :=
  (* the main drift is computed through linear regression *)
  pol <- lift (polyfit t tref) ;;
  let residual := np.sub tref (np.polyval pol t) in
  if negb linear then
    let CAMERA_UPSAMPLING_RATE_HZ := 300%nat in
    let PAD_LENGTH_SECS := 60%nat in
    let STAT_LENGTH_SECS := 30%nat in
    let SYNC_SAMPLING_RATE_SECS := 20 in
    let t_upsamp :=
      np.arange (hd 0 tref) (List.last tref 0)
                (1 / inject_Z (Z.of_nat CAMERA_UPSAMPLING_RATE_HZ)) in
    res_upsamp <- lift (np.interp t_upsamp tref residual) ;;
    let nech :=
      Z.of_nat (length res_upsamp + CAMERA_UPSAMPLING_RATE_HZ * PAD_LENGTH_SECS) in
    let lpad := (2 ^ Z.log2_up nech - Z.of_nat (length res_upsamp))%Z in
    let lpad0 := Z.to_nat (lpad / 2 + lpad mod 2) in
    let lpad1 := Z.to_nat (lpad / 2) in
    res_filt <- lift (np.pad_median res_upsamp lpad0 lpad1
                        (CAMERA_UPSAMPLING_RATE_HZ * STAT_LENGTH_SECS)) ;;
    let fbounds := (1 # 1000, 2 # 1000) in
    let res_filt :=
      slice_neg (lp res_filt (1 / inject_Z (Z.of_nat CAMERA_UPSAMPLING_RATE_HZ))
                    fbounds) lpad0 lpad1 in
    let tout := np.arange 0 (np.max tref + SYNC_SAMPLING_RATE_SECS) 20 in
    smoothed <- lift (np.interp tout t_upsamp res_filt) ;;
    let sync_points := np.c_ tout (np.add (np.polyval pol tout) smoothed) in
    (if truthy display then
       (match display with
        | DisplayAxes => ret tt
        | DisplayBool _ => draw Axes
        end) ;;;
       draw (Plot tref (np.scale residual sr) None) ;;;
       draw (Plot t_upsamp (np.scale res_filt sr) None) ;;;
       draw (Plot tout (np.scale smoothed sr) (Some "*"%string)) ;;;
       draw (XLabel "time (sec)") ;;;
       draw (YLabel "Residual drift (samples @ 30kHz)")
     else ret tt) ;;;
    ret sync_points
  else
    let sync_points := np.c_ [0; 1] (np.polyval pol [0; 1]) in
    (if truthy display then
       draw (Plot tref (np.scale residual sr) None) ;;;
       draw (YLabel "Residual drift (samples @ 30kHz)") ;;;
       draw (XLabel "time (sec)")
     else ret tt) ;;;
    ret sync_points.

Definition sync_probe_front_times (t tref : list Q) (sr : Q)
    (display : display_arg) (linear : bool) (tol : Q) : M (table * bool) :=
  sync_points <- fit_sync_points t tref sr display linear ;;
  (* test that the interp is within tol sample *)
  fcn <- lift (scipy.interp1d (col0 sync_points) (col1 sync_points)) ;;
  if exceeds_tol fcn t tref sr tol then
    logger_error "Synchronization check exceeds tolerance of {tol} samples. Check !!"
                 tol ;;;
    ret (sync_points, false)
  else ret (sync_points, true).

(** ** _save_timestamps_npy (lines 215-225) *)
Definition file_sync (ephys_file : ephys_file) : Path :=
  with_suffix (joinpath (parent (ap ephys_file))
                        (replace (name (ap ephys_file)) ".ap." ".sync."))
              ".npy".
Definition file_ts (ephys_file : ephys_file) : Path :=
  with_suffix (joinpath (parent (ap ephys_file))
                        (replace (name (ap ephys_file)) ".ap." ".timestamps."))
              ".npy".

Definition _save_timestamps_npy (ephys_file : ephys_file) (tself_tref : table)
    (sr : Q) : M unit :=
  np_save (file_sync ephys_file) tself_tref ;;;
  let timestamps := tself_tref in                         (* np.copy *)
  let timestamps := map (fun r => (fst r * sr, snd r)) timestamps in
  np_save (file_ts ephys_file) timestamps.

(** ** version3A (lines 50-108) *)

(** The Bunch [d] built by [get_sync_fronts]. *)
Record fronts : Type := mkFronts {
  d_times : list (list Q);   (* d['times'], one stream per probe *)
  nsync : list Z             (* d.nsync *)
}.

(** The loop of [get_sync_fronts] (lines 68-80) from probe [ind] on; the
    result [None] is Python's [None] of the two early returns. *)
Fixpoint get_sync_fronts_from (auxiliary_name : string) (ind : nat)
    (ephys_files : list ephys_file) (d : fronts) : res (option fronts) :=
  match ephys_files with
  | [] => Ok (Some d)
  | ephys_file :: rest =>
      let sync := spikeglx_sync ephys_file in
      match sync_map ephys_file !! auxiliary_name with
      | None => Ok None
      | Some channel =>
          let isync := np.in1d (channels sync) channel in
          if np.all_not isync then Ok None
          else
            res_bind (np.getitem_mask (times sync) isync) (fun fronts_times =>
            get_sync_fronts_from auxiliary_name (S ind) rest
              (mkFronts (d_times d ++ [fronts_times])
                        (<[ind := Z.of_nat (length (channels sync))]> (nsync d))))
      end
  end.

Definition get_sync_fronts (ephys_files : list ephys_file)
    (auxiliary_name : string) : res (option fronts) :=
  let nprobes := length ephys_files in
  get_sync_fronts_from auxiliary_name 0 ephys_files
    (mkFronts [] (replicate nprobes 0%Z)).

Definition identity_timestamps : table := [(0, 0); (1, 1)].

(** The loop that writes the files (lines 100-107), from probe [ind] on;
    [d_times] is the transposed array of line 91. *)
Fixpoint version3A_loop (d_times : list (list Q)) (iref : nat) (sr : Q)
    (display : display_arg) (linear : bool) (tol : Q)
    (ind : nat) (ephys_files : list ephys_file) (qc_all : bool) : M bool :=
  match ephys_files with
  | [] => ret qc_all
  | ephys_file :: rest =>
      if (ind =? iref)%nat then
        let timestamps := identity_timestamps in
        _save_timestamps_npy ephys_file timestamps sr ;;;
        version3A_loop d_times iref sr display linear tol (S ind) rest qc_all
      else
        r <- sync_probe_front_times (np.column d_times ind) (np.column d_times iref)
               sr display linear tol ;;
        let timestamps := fst r in
        let qc := snd r in
        let qc_all := qc_all && qc in
        _save_timestamps_npy ephys_file timestamps sr ;;;
        version3A_loop d_times iref sr display linear tol (S ind) rest qc_all
  end.

(** Lines 87-108: from the fronts of the chosen channel to the files. *)
Definition version3A_sync (ephys_files : list ephys_file) (d : fronts)
    (display : display_arg) (linear : bool) (tol : Q) : M bool :=
  (* chop off to the lowest number of sync points *)
  let nsyncs := map (fun t => length t) (d_times d) in
  (if (1 <? length (remove_dups nsyncs))%nat then
     logger_warning "Probes don't have the same number of synchronizations pulses"
   else ret tt) ;;;
  let d_times' :=
    np.transpose (py_min_nat nsyncs)
                 (map (fun t => take (py_min_nat nsyncs) t) (d_times d)) in
  (* the reference probe is the one with the most sync pulses detected *)
  let iref := np.argmax (nsync d) in
  ref_file <- lift (getitem ephys_files iref) ;;
  let sr := _get_sr ref_file in
  version3A_loop d_times' iref sr display linear tol 0 ephys_files true.

Definition version3A (ses_path : session) (display : display_arg)
    (linear : bool) (tol : Q) : M bool :=
  let ephys_files := glob_ephys_files ses_path in
  let nprobes := length ephys_files in
  if (nprobes <=? 1)%nat then
    logger_warning "Skipping single probe session: {ses_path}" ;;;
    ret true
  else
    d <- lift (get_sync_fronts ephys_files "frame2ttl") ;;
    d <- match d with
         | Some d => ret d
         | None =>
             logger_warning
               "Ephys sync: frame2ttl not detected on both probes, using camera sync" ;;;
             d <- lift (get_sync_fronts ephys_files "right_camera") ;;
             match d with
             | None => raise (TypeError "'NoneType' object is not subscriptable")
             | Some d =>
                 firsts <- lift (mapM (fun t => getitem t 0) (d_times d)) ;;
                 if negb (Qltb (2 # 10) (py_min firsts)) then
                   raise (ValueError "Cameras started before ephys, no sync possible")
                 else ret d
             end
         end ;;
    version3A_sync ephys_files d display linear tol.

(** ** version3B (lines 111-143) *)
Fixpoint version3B_loop (sync_nidq_times : list Q)
    (display : display_arg) (linear : bool) (tol : Q)
    (ephys_files : list ephys_file) (qc_all : bool) : M bool :=
  match ephys_files with
  | [] => ret qc_all
  | ef :: rest =>
      channel <- lift (match sync_map ef !! "imec_sync" with
                       | Some c => Ok c
                       | None => Raise (KeyError "imec_sync")
                       end) ;;
      let sync_probe_times := _get_sync_fronts (spikeglx_sync ef) channel in
      let sr := _get_sr ef in
      if negb (length sync_nidq_times =? length sync_probe_times)%nat then
        raise AssertionError
      else
        r <- sync_probe_front_times sync_probe_times sync_nidq_times sr
               display linear tol ;;
        let qc_all := qc_all && snd r in
        _save_timestamps_npy ef (fst r) sr ;;;
        version3B_loop sync_nidq_times display linear tol rest qc_all
  end.

Definition version3B (ses_path : session) (display : display_arg)
    (linear : bool) (tol : Q) : M bool :=
  let ephys_files := glob_ephys_files ses_path in
  let nidq_file := filter (fun ef => nidq ef = true) ephys_files in
  let ephys_files := filter (fun ef => nidq ef <> true) ephys_files in
  let nprobes := length ephys_files in
  (* should have at least 2 probes and only one nidq *)
  if (nprobes <=? 1)%nat then ret true
  else
    match nidq_file with
    | [nidq_file] =>
        channel <- lift (match sync_map nidq_file !! "imec_sync" with
                         | Some c => Ok c
                         | None => Raise (KeyError "imec_sync")
                         end) ;;
        let sync_nidq_times := _get_sync_fronts (spikeglx_sync nidq_file) channel in
        version3B_loop sync_nidq_times display linear tol ephys_files true
    | _ => raise AssertionError
    end.

(** ** sync (lines 35-48)

    The results of [version3A] and [version3B] are not returned: the body
    has no [return], so the call evaluates to Python's [None]. *)
Definition sync (ses_path : session) (kw : kwargs) : M (option bool) :=
  log2session_static "ephys" (
    let version := neuropixel_version ses_path in
    if String.eqb version "3A" then
      version3A ses_path (default (DisplayBool true) (kw_display kw))
                (default false (kw_linear kw)) (default (21 # 10) (kw_tol kw)) ;;;
      ret None
    else if String.eqb version "3B" then
      version3B ses_path (default (DisplayBool true) (kw_display kw))
                (default false (kw_linear kw)) (default (25 # 10) (kw_tol kw)) ;;;
      ret None
    else ret None).

End SyncProbes.

(** ** float64 arithmetic

    The definitions above compute with exact rationals.  numpy computes
    in float64: every operation returns its exact result rounded to the
    nearest float64.  Where a property depends on it, the rounding is
    written out: [rnd] stands for the rounding of the arithmetic, and
    [binary64] is the rounding of IEEE 754 double precision (to nearest,
    ties to the even mantissa).  Overflow, NaN and the sign of zero are
    not modelled: the properties that use the rounding ask for results
    within [max_float64]. *)

(** The nearest integer, ties to even. *)
Definition round_half_even (q : Q) : Z :=
  let f := Qfloor q in
  let r := q - inject_Z f in
  if Qltb r (1 # 2) then f
  else if Qltb (1 # 2) r then (f + 1)%Z
  else if Z.even f then f else (f + 1)%Z.

(** The nearest number [m * 2 ^ (e - 52)] with a mantissa [m] of 53 bits,
    where [2 ^ e <= |q| < 2 ^ (e + 1)]; below [2 ^ -1022] the exponent stays
    at -1022 (subnormal numbers). *)
Definition binary64 (q : Q) : Q :=
  let q := Qred q in
  if Qeq_bool q 0 then 0
  else
    let a := Qabs q in
    let k := (Z.log2 (Qnum a) - Z.log2 (Zpos (Qden a)))%Z in
    let e := Z.max (if Qltb a (Qpower 2 k) then (k - 1)%Z else k) (-1022) in
    let ulp := Qpower 2 (e - 52) in
    let m := inject_Z (round_half_even (a / ulp)) in
    Qred (if Qltb q 0 then - (m * ulp) else m * ulp).

(** The largest finite float64, [(2 ^ 53 - 1) * 2 ^ 971]; an operation whose
    exact result is within it does not overflow. *)
Definition max_float64 : Q := inject_Z ((2 ^ 53 - 1) * 2 ^ 971).
Definition finite64 (q : Q) : Prop := Qabs q <= max_float64.

(** [interp1d] and [apply_sync] with the arithmetic of
    [interp1d._call_linear] rounded by [rnd], operation by operation:
    [slope = (y_hi - y_lo) / (x_hi - x_lo)] and
    [y_new = slope * (x_new - x_lo) + y_lo].  Comparisons, sorting and
    indexing are exact in float64. *)
Module rounded.

Definition _call_linear (rnd : Q -> Q) (pts : table) (x_new : Q) : Q :=
  let x := col0 pts in
  let y := col1 pts in
  let hi := Nat.min (Nat.max (scipy.searchsorted x x_new) 1) (length x - 1) in
  let lo := (hi - 1)%nat in
  let x_lo := nth lo x 0 in
  let x_hi := nth hi x 0 in
  let y_lo := nth lo y 0 in
  let y_hi := nth hi y 0 in
  let slope := rnd (rnd (y_hi - y_lo) / rnd (x_hi - x_lo)) in
  rnd (rnd (slope * rnd (x_new - x_lo)) + y_lo).

Definition interp1d (rnd : Q -> Q) (x y : list Q) : res (Q -> Q) :=
  if negb (length x =? length y)%nat then
    Raise (ValueError
      "x and y arrays must be equal in length along interpolation axis.")
  else if (length y =? 0)%nat then
    Raise (ValueError "cannot reshape array of size 0 into shape (0,newaxis)")
  else if (length x <? 2)%nat then
    Raise (ValueError "x and y arrays must have at least 2 entries")
  else Ok (_call_linear rnd (scipy.sort_by_x (zip x y))).

Definition apply_sync (rnd : Q -> Q) (sync_file : Path) (times : list Q)
    (forward : bool) : M (list Q) :=
  sync_points <- np_load sync_file ;;
  fcn <- lift (if forward
               then interp1d rnd (col0 sync_points) (col1 sync_points)
               else interp1d rnd (col1 sync_points) (col0 sync_points)) ;;
  ret (map fcn times).

End rounded.

(** ** Vocabulary of the properties *)

(** The table of [apply_sync(.., forward=False)]: columns exchanged. *)
Definition swap_cols (pts : table) : table := map (fun r => (snd r, fst r)) pts.

(** The differences and the slopes of the first segment, in the two
    directions of [apply_sync], are within the range of float64. *)
Definition first_segment_in_range (rnd : Q -> Q) (pts : table) : Prop :=
  match pts with
  | (x0, y0) :: (x1, y1) :: _ =>
      finite64 (y1 - y0) /\ finite64 (x1 - x0) /\
      finite64 (rnd (y1 - y0) / rnd (x1 - x0)) /\
      finite64 (rnd (x1 - x0) / rnd (y1 - y0))
  | _ => False
  end.

(** The fronts of the channel [auxiliary_name] on one probe:
    [sync['times'][isync]] of lines 74-79. *)
Definition channel_fronts (auxiliary_name : string) (ef : ephys_file) : list Q :=
  match sync_map ef !! auxiliary_name with
  | Some channel =>
      np.select (times (spikeglx_sync ef))
                (np.in1d (channels (spikeglx_sync ef)) channel)
  | None => []
  end.

(** The number of events of all channels on one probe:
    [len(sync.channels)] of line 78. *)
Definition total_events (ef : ephys_file) : Z :=
  Z.of_nat (length (channels (spikeglx_sync ef))).

(** [i] is the first position of the largest count. *)
Definition first_maximum (counts : list Z) (i : nat) : Prop :=
  exists c, counts !! i = Some c /\
    (forall j cj, counts !! j = Some cj -> (cj <= c)%Z) /\
    (forall j cj, (j < i)%nat -> counts !! j = Some cj -> (cj < c)%Z).

(** What [sync_probe_front_times] returns or raises; it does not depend
    on the state or on [display] (lemma [sync_probe_front_times_run]). *)
Definition probe_fit (lstsq : list Q -> list Q -> Q * Q)
    (lp : list Q -> Q -> Q * Q -> list Q)
    (t tref : list Q) (sr : Q) (linear : bool) (tol : Q) : res (table * bool) :=
  snd (sync_probe_front_times lstsq lp t tref sr (DisplayBool false) linear tol
         (mkSys ∅ [] [])).

(** The files written for a list of probes. *)
Definition outputs (ephys_files : list ephys_file) : list Path :=
  flat_map (fun ef => [file_sync ef; file_ts ef]) ephys_files.

(** The timestamps table derived from control points (line 224). *)
Definition rescale (sr : Q) (tself_tref : table) : table :=
  map (fun r => (fst r * sr, snd r)) tself_tref.

(** What the loop of [version3A] computes for probe [ind]: the identity
    pair for the reference probe, the fit against the reference stream for
    the others. *)
Definition probe_outcome (lstsq : list Q -> list Q -> Q * Q)
    (lp : list Q -> Q -> Q * Q -> list Q)
    (d_times : list (list Q)) (iref : nat) (sr : Q) (linear : bool) (tol : Q)
    (ind : nat) : res (table * bool) :=
  if (ind =? iref)%nat then Ok (identity_timestamps, true)
  else probe_fit lstsq lp (np.column d_times ind) (np.column d_times iref)
                 sr linear tol.

(** The exception of line 86. *)
Definition cameras_started_before_ephys : exn :=
  ValueError "Cameras started before ephys, no sync possible".

(** The state after the warning of line 83. *)
Definition after_camera_warning (s : sys) : sys :=
  mkSys (files s)
        (logs s ++ [Warning
           "Ephys sync: frame2ttl not detected on both probes, using camera sync"])
        (plots s).

(** The exceptions that the numerical calls of [sync_probe_front_times]
    raise. *)
Definition fit_errors : list exn :=
  [ TypeError "expected non-empty vector for x";
    TypeError "expected x and y to have same length";
    ValueError "array of sample points is empty";
    ValueError "fp and xp are not of the same length.";
    ValueError "can't extend empty axis 0 using modes other than 'constant' or 'empty'";
    ValueError "x and y arrays must be equal in length along interpolation axis.";
    ValueError "cannot reshape array of size 0 into shape (0,newaxis)";
    ValueError "x and y arrays must have at least 2 entries" ].

(** ** Concrete collaborators and recordings *)

(** The degree-1 least-squares line in closed form (normal equations). *)
Definition total (a : list Q) : Q := foldr Qplus 0 a.
Definition lstsq_line (x y : list Q) : Q * Q :=
  let n := inject_Z (Z.of_nat (length x)) in
  let sx := total x in
  let sy := total y in
  let sxx := total (zip_with Qmult x x) in
  let sxy := total (zip_with Qmult x y) in
  let slope := (n * sxy - sx * sy) / (n * sxx - sx * sx) in
  (Qred slope, Qred ((sy - slope * sx) / n)).

(** The sum of squared residuals of the line [a * x + b]. *)
Definition squared_error (x y : list Q) (a b : Q) : Q :=
  total (zip_with (fun xi yi => (yi - (a * xi + b)) * (yi - (a * xi + b))) x y).

(** A filter that lets the signal through unchanged. *)
Definition lp_pass (ts : list Q) (si : Q) (b : Q * Q) : list Q := ts.

(** The fronts of one channel, for [_get_sync_fronts]. *)
Definition fronts_of_channel (sync : Sync) (channel_nb : Z) : list Q :=
  np.select (times sync) (np.in1d (channels sync) channel_nb).

Definition no_files : sys := mkSys ∅ [] [].

(** Two matched streams. *)
Definition ex_t : list Q := [1; 2; 3; 4].
Definition ex_tref : list Q := [1; 21 # 10; 3; 41 # 10].

(** A 3A session of two probes.  Channel 12 is frame2ttl: three fronts on
    the first probe, two on the second, which has more events in all. *)
Definition ibl_sync_map_3A : gmap string Z :=
  list_to_map [("right_camera"%string, 3%Z); ("bpod"%string, 7%Z);
               ("frame2ttl"%string, 12%Z)].

Definition probe00 : ephys_file :=
  mkEphys (mkPath "raw_ephys_data/probe00" "ephys_g0_t0.imec.ap.bin") false
          (mkSync [12; 12; 12; 7]%Z [1; 2; 3; 35 # 10])
          ibl_sync_map_3A 30000.
Definition probe01 : ephys_file :=
  mkEphys (mkPath "raw_ephys_data/probe01" "ephys_g0_t0.imec.ap.bin") false
          (mkSync [12; 7; 12; 7; 7]%Z [1; 15 # 10; 2; 25 # 10; 32 # 10])
          ibl_sync_map_3A 30000.
Definition ses_frame2ttl : session := mkSession "3A" [probe00; probe01].

(** A 3A session without frame2ttl fronts; channel 3 is the right camera,
    whose first front comes 0.1 s after the start of the recording. *)
Definition probe00_cam : ephys_file :=
  mkEphys (mkPath "raw_ephys_data/probe00" "ephys_g0_t0.imec.ap.bin") false
          (mkSync [3; 3; 3; 7]%Z [1 # 10; 11 # 10; 21 # 10; 3])
          ibl_sync_map_3A 30000.
Definition probe01_cam : ephys_file :=
  mkEphys (mkPath "raw_ephys_data/probe01" "ephys_g0_t0.imec.ap.bin") false
          (mkSync [3; 3; 3]%Z [15 # 100; 115 # 100; 215 # 100])
          ibl_sync_map_3A 30000.
Definition ses_camera : session := mkSession "3A" [probe00_cam; probe01_cam].


(** A stored table of float64 numbers: the floats nearest to 0.1, 20.3 and
    40.6 at 0, 20 and 40 s. *)
Definition ex_float_table : table :=
  [(0, binary64 (1 # 10)); (20, binary64 (203 # 10)); (40, binary64 (406 # 10))].

(** ** Relating runs *)

(** Two computations are [alike] when, from any two states, neither touches
    the files, both emit the same log records and both end with the same
    result; they may draw differently. *)
Definition alike {A} (m1 m2 : M A) : Prop :=
  forall s1 s2, exists r lg pl1 pl2,
    m1 s1 = (mkSys (files s1) (logs s1 ++ lg) (plots s1 ++ pl1), r) /\
    m2 s2 = (mkSys (files s2) (logs s2 ++ lg) (plots s2 ++ pl2), r).

(** A computation that only draws. *)
Definition draws (m : M unit) : Prop :=
  forall s, exists pl, m s = (mkSys (files s) (logs s) (plots s ++ pl), Ok tt).

(** ** Further vocabulary *)

(** Python's [sub in s] for strings. *)
Fixpoint str_contains (sub s : string) : bool :=
  String.prefix sub s ||
  match s with
  | EmptyString => false
  | String _ s' => str_contains sub s'
  end.

(** A recording as [alf.io.load_object] returns it: one channel number per
    event time. *)
Definition well_formed (ef : ephys_file) : Prop :=
  length (channels (spikeglx_sync ef)) = length (times (spikeglx_sync ef)).

(** A computation that neither writes nor logs. *)
Definition quiet {A} (m : M A) : Prop :=
  forall s, exists pl r, m s = (mkSys (files s) (logs s) (plots s ++ pl), r).

(** ** Further recordings *)

(** A 3A session where the second probe recorded bpod events only. *)
Definition probe01_bpod : ephys_file :=
  mkEphys (mkPath "raw_ephys_data/probe01" "ephys_g0_t0.imec.ap.bin") false
          (mkSync [7; 7]%Z [1; 2])
          ibl_sync_map_3A 30000.
Definition ses_no_channel : session := mkSession "3A" [probe00; probe01_bpod].

(** A 3B session: two probes and the NI-DAQ unit, each with three fronts
    of the common square signal. *)
Definition ibl_sync_map_3B_probe : gmap string Z :=
  list_to_map [("imec_sync"%string, 6%Z)].
Definition ibl_sync_map_3B_nidq : gmap string Z :=
  list_to_map [("imec_sync"%string, 3%Z); ("frame2ttl"%string, 12%Z)].
Definition probe00_3B : ephys_file :=
  mkEphys (mkPath "raw_ephys_data/probe00" "ephys_g0_t0.imec0.ap.bin") false
          (mkSync [6; 6; 6]%Z [1; 2; 3])
          ibl_sync_map_3B_probe 30000.
Definition probe01_3B : ephys_file :=
  mkEphys (mkPath "raw_ephys_data/probe01" "ephys_g0_t0.imec1.ap.bin") false
          (mkSync [6; 6; 6]%Z [2; 3; 4])
          ibl_sync_map_3B_probe 30000.
Definition nidq_3B : ephys_file :=
  mkEphys (mkPath "raw_ephys_data" "ephys_g0_t0.nidq.bin") true
          (mkSync [3; 12; 3; 3]%Z [1; 15 # 10; 2; 3])
          ibl_sync_map_3B_nidq 30000.
Definition ses_3B : session := mkSession "3B" [probe00_3B; probe01_3B; nidq_3B].

(** The same session without the NI-DAQ file, and with a second probe that
    missed a front. *)
Definition ses_3B_no_nidq : session := mkSession "3B" [probe00_3B; probe01_3B].
Definition probe01_3B_short : ephys_file :=
  mkEphys (mkPath "raw_ephys_data/probe01" "ephys_g0_t0.imec1.ap.bin") false
          (mkSync [6; 6]%Z [2; 3])
          ibl_sync_map_3B_probe 30000.
Definition ses_3B_short : session :=
  mkSession "3B" [nidq_3B; probe00_3B; probe01_3B_short].

(** * Properties *)

(** ** Rational comparisons *)

Lemma Qltb_lt (x y : Q) : Qltb x y = true <-> x < y.
Proof.
  unfold Qltb. rewrite negb_true_iff.
  split; intros H.
  - apply Qnot_le_lt. intros Hle. apply Qle_bool_iff in Hle. congruence.
  - destruct (Qle_bool y x) eqn:E; [|reflexivity].
    apply Qle_bool_iff in E. lra.
Qed.

Lemma Qltb_ge (x y : Q) : Qltb x y = false <-> y <= x.
Proof.
  unfold Qltb. rewrite negb_false_iff. apply Qle_bool_iff.
Qed.

Lemma Qabs_scaled (e sr : Q) : 0 <= sr -> Qabs (e * sr) == Qabs e * sr.
Proof.
  intros H. rewrite Qabs_Qmult, (Qabs_pos sr) by exact H. reflexivity.
Qed.

Lemma Qabs_swap (x y : Q) : Qabs (x - y) == Qabs (y - x).
Proof. by rewrite Qabs_Qminus. Qed.

(** ** Computations that only log and draw *)

Lemma sys_eta s : mkSys (files s) (logs s ++ []) (plots s ++ []) = s.
Proof. destruct s; cbn. by rewrite !app_nil_r. Qed.

Lemma alike_lift {A} (r : res A) : alike (lift r) (lift r).
Proof. intros s1 s2. exists r, [], [], []. by rewrite !sys_eta. Qed.

Lemma alike_ret {A} (a : A) : alike (ret a) (ret a).
Proof. apply (alike_lift (Ok a)). Qed.

Lemma alike_raise {A} (e : exn) : alike (@raise A e) (raise e).
Proof. apply (alike_lift (Raise e)). Qed.

Lemma alike_logger_error msg tol :
  alike (logger_error msg tol) (logger_error msg tol).
Proof.
  intros s1 s2. exists (Ok tt), [Error msg tol], [], [].
  unfold logger_error. by rewrite !app_nil_r.
Qed.

Lemma alike_bind {A B} (m1 m2 : M A) (k1 k2 : A -> M B) :
  alike m1 m2 -> (forall a, alike (k1 a) (k2 a)) ->
  alike (bind m1 k1) (bind m2 k2).
Proof.
  intros Hm Hk s1 s2.
  destruct (Hm s1 s2) as (r & lg & pl1 & pl2 & E1 & E2).
  unfold bind. rewrite E1, E2.
  destruct r as [a|e].
  - destruct (Hk a (mkSys (files s1) (logs s1 ++ lg) (plots s1 ++ pl1))
                   (mkSys (files s2) (logs s2 ++ lg) (plots s2 ++ pl2)))
      as (r' & lg' & pl1' & pl2' & E1' & E2').
    exists r', (lg ++ lg'), (pl1 ++ pl1'), (pl2 ++ pl2').
    rewrite E1', E2'. cbn. by rewrite !app_assoc.
  - by exists (Raise e), lg, pl1, pl2.
Qed.

Lemma draws_ret : draws (ret tt).
Proof.
  intros s. exists []. unfold ret. destruct s; cbn. by rewrite app_nil_r.
Qed.

Lemma draws_draw c : draws (draw c).
Proof. intros s. by exists [c]. Qed.

Lemma draws_seq (m1 m2 : M unit) : draws m1 -> draws m2 -> draws (m1 ;;; m2).
Proof.
  intros H1 H2 s. destruct (H1 s) as (pl1 & E1).
  unfold bind. rewrite E1.
  destruct (H2 (mkSys (files s) (logs s) (plots s ++ pl1))) as (pl2 & E2).
  exists (pl1 ++ pl2). rewrite E2. cbn. by rewrite app_assoc.
Qed.

Lemma draws_alike (m1 m2 : M unit) : draws m1 -> draws m2 -> alike m1 m2.
Proof.
  intros H1 H2 s1 s2.
  destruct (H1 s1) as (pl1 & E1). destruct (H2 s2) as (pl2 & E2).
  exists (Ok tt), [], pl1, pl2. by rewrite E1, E2, !app_nil_r.
Qed.

Ltac solve_draws :=
  repeat first [apply draws_ret | apply draws_draw | apply draws_seq].

Lemma bind_Ok_inv {A B} (m : M A) (k : A -> M B) s s' b :
  bind m k s = (s', Ok b) ->
  exists a s1, m s = (s1, Ok a) /\ k a s1 = (s', Ok b).
Proof.
  unfold bind. destruct (m s) as [s1 [a|e]]; intros H.
  - by exists a, s1.
  - discriminate.
Qed.

Lemma lift_inv {A} (r : res A) s s' r' : lift r s = (s', r') -> s' = s /\ r' = r.
Proof. unfold lift. intros [= <- <-]. done. Qed.

(** ** Lists, arrays and exceptions *)

Lemma map_fmap {A B} (f : A -> B) (l : list A) : map f l = f <$> l.
Proof. reflexivity. Qed.

Lemma exceeds_tol_true fcn (t tref : list Q) sr tol :
  exceeds_tol fcn t tref sr tol = true <->
  exists i ti ri, t !! i = Some ti /\ tref !! i = Some ri /\
                  tol < Qabs ((ri - fcn ti) * sr).
Proof.
  unfold exceeds_tol, np.scale, np.sub. rewrite existsb_exists, !map_fmap.
  split.
  - intros (x & Hin & Hx).
    apply list_elem_of_In, list_elem_of_lookup in Hin as [i Hi].
    apply list_lookup_fmap_Some in Hi as (e & -> & He).
    apply lookup_zip_with_Some in He as (ri & fi & -> & Hri & Hfi).
    apply list_lookup_fmap_Some in Hfi as (ti & -> & Hti).
    exists i, ti, ri. repeat split; try done. by apply Qltb_lt.
  - intros (i & ti & ri & Hti & Hri & Hlt).
    exists ((ri - fcn ti) * sr). split; [|by apply Qltb_lt].
    apply list_elem_of_In, list_elem_of_lookup. exists i.
    apply list_lookup_fmap_Some. exists (ri - fcn ti). split; [done|].
    apply lookup_zip_with_Some. exists ri, (fcn ti). repeat split; try done.
    apply list_lookup_fmap_Some. by exists ti.
Qed.

Lemma bind_Raise_inv {A B} (m : M A) (k : A -> M B) s s' e :
  bind m k s = (s', Raise e) ->
  m s = (s', Raise e) \/ exists a s1, m s = (s1, Ok a) /\ k a s1 = (s', Raise e).
Proof.
  unfold bind. destruct (m s) as [s1 [a|e']]; intros H.
  - right. by exists a, s1.
  - left. by injection H as <- <-.
Qed.

Lemma draws_no_raise (m : M unit) s s' e : draws m -> m s <> (s', Raise e).
Proof. intros Hm. destruct (Hm s) as [pl ->]. done. Qed.

Lemma interp_errors (x xp fp : list Q) e :
  np.interp x xp fp = Raise e -> e ∈ fit_errors.
Proof.
  unfold np.interp, fit_errors. repeat case_match; intros [= <-]; set_solver.
Qed.

Lemma pad_median_errors (a : list Q) before after len e :
  np.pad_median a before after len = Raise e -> e ∈ fit_errors.
Proof.
  unfold np.pad_median, fit_errors. repeat case_match; intros [= <-]; set_solver.
Qed.

Lemma interp1d_errors (x y : list Q) e :
  scipy.interp1d x y = Raise e -> e ∈ fit_errors.
Proof.
  unfold scipy.interp1d, fit_errors. repeat case_match; intros [= <-]; set_solver.
Qed.

Lemma mapM_first (streams : list (list Q)) :
  Forall (fun t => t <> []) streams ->
  mapM (fun t => getitem t 0) streams = Ok (map (fun t => hd 0 t) streams).
Proof.
  induction 1 as [|t streams Ht _ IH]; [done|].
  cbn. rewrite IH. by destruct t.
Qed.

Lemma fold_left_min_le (l : list nat) : forall x,
  (fold_left Nat.min l x <= x)%nat /\
  (forall n, n ∈ l -> (fold_left Nat.min l x <= n)%nat).
Proof.
  induction l as [|y l IH]; intros x; cbn.
  - split; [lia|]. intros n Hn. by apply elem_of_nil in Hn.
  - destruct (IH (Nat.min x y)) as [H1 H2]. split; [lia|].
    intros n [->|Hn]%elem_of_cons; [lia|]. by apply H2.
Qed.

Lemma py_min_nat_le (l : list nat) (n : nat) : n ∈ l -> (py_min_nat l <= n)%nat.
Proof.
  destruct l as [|x l]; [by intros ?%elem_of_nil|].
  cbn. destruct (fold_left_min_le l x) as [H1 H2].
  intros [->|Hn]%elem_of_cons; [done|]. by apply H2.
Qed.

Lemma column_transpose (m : nat) : forall (rows : list (list Q)) k r,
  Forall (fun r => length r = m) rows -> rows !! k = Some r ->
  np.column (np.transpose m rows) k = r.
Proof.
  induction m as [|m IH]; intros rows k r Hall Hk.
  - cbn. rewrite Forall_lookup in Hall. specialize (Hall k r Hk).
    by destruct r.
  - cbn [np.transpose]. unfold np.column. cbn [map]. fold (np.column (np.transpose m (map (fun r => tl r) rows)) k).
    pose proof Hall as Hall'. rewrite Forall_lookup in Hall'.
    specialize (Hall' k r Hk). destruct r as [|a r]; [done|].
    f_equal.
    + by rewrite map_fmap, nth_lookup, list_lookup_fmap, Hk.
    + apply IH.
      * rewrite map_fmap. apply Forall_fmap. eapply Forall_impl; [exact Hall|].
        intros [|? ?] Hl; cbn in *; [done|lia].
      * by rewrite map_fmap, list_lookup_fmap, Hk.
Qed.

(** After line 91 the column of probe [k] holds the first [min(nsyncs)]
    fronts of its stream. *)
Lemma column_chopped (streams : list (list Q)) k t :
  streams !! k = Some t ->
  let m := py_min_nat (map (fun t => length t) streams) in
  np.column (np.transpose m (map (fun t => take m t) streams)) k = take m t /\
  length (take m t) = m.
Proof.
  intros Hk m.
  assert (Hm : forall t', t' ∈ streams -> (m <= length t')%nat).
  { intros t' Ht'. apply py_min_nat_le. rewrite map_fmap.
    apply list_elem_of_fmap. by exists t'. }
  split.
  - apply column_transpose.
    + rewrite map_fmap. apply Forall_fmap, Forall_forall. intros t' Ht'. cbn.
      rewrite length_take. specialize (Hm t' Ht'). lia.
    + by rewrite map_fmap, list_lookup_fmap, Hk.
  - rewrite length_take.
    assert (m <= length t)%nat; [|lia].
    apply Hm. by eapply list_elem_of_lookup_2.
Qed.


(** ** The least-squares line *)

Lemma inject_Z_S (n : nat) : inject_Z (Z.of_nat (S n)) == inject_Z (Z.of_nat n) + 1.
Proof. rewrite Nat2Z.inj_succ. unfold Z.succ. by rewrite inject_Z_plus. Qed.

Lemma squared_error_expand (a b : Q) (x : list Q) : forall y : list Q,
  length x = length y ->
  squared_error x y a b ==
    total (zip_with Qmult y y) - 2 * a * total (zip_with Qmult x y)
    - 2 * b * total y + a * a * total (zip_with Qmult x x)
    + 2 * a * b * total x + inject_Z (Z.of_nat (length x)) * b * b.
Proof.
  induction x as [|xi x IH]; intros [|yi y] Hlen; try discriminate.
  - cbn. ring.
  - injection Hlen as Hlen. specialize (IH y Hlen).
    unfold squared_error in *. cbn [zip_with total foldr length].
    fold (total (zip_with (fun xi yi => (yi - (a * xi + b)) * (yi - (a * xi + b))) x y)).
    fold (total (zip_with Qmult y y)). fold (total (zip_with Qmult x y)).
    fold (total (zip_with Qmult x x)). fold (total x). fold (total y).
    rewrite IH, inject_Z_S. ring.
Qed.

Lemma Qsquare_nonneg (z : Q) : 0 <= z * z.
Proof.
  destruct (Qlt_le_dec z 0) as [Hneg|Hpos].
  - assert (z * z == (- z) * (- z)) as -> by ring.
    apply Qmult_le_0_compat; lra.
  - by apply Qmult_le_0_compat.
Qed.

Lemma quadratic_form_nonneg (da db : Q) (x : list Q) :
  0 <= da * da * total (zip_with Qmult x x) + 2 * da * db * total x
       + inject_Z (Z.of_nat (length x)) * db * db.
Proof.
  induction x as [|xi x IH].
  - cbn [zip_with total foldr length]. change (inject_Z (Z.of_nat 0)) with 0.
    ring_simplify. lra.
  - cbn [zip_with total foldr length].
    fold (total (zip_with Qmult x x)). fold (total x).
    rewrite inject_Z_S.
    pose proof (Qsquare_nonneg (da * xi + db)) as Hsq.
    lra.
Qed.

Lemma lstsq_line_normal_equations (x y : list Q) :
  let n := inject_Z (Z.of_nat (length x)) in
  let a := fst (lstsq_line x y) in
  let b := snd (lstsq_line x y) in
  ~ n * total (zip_with Qmult x x) - total x * total x == 0 ->
  (0 < length x)%nat ->
  a * total (zip_with Qmult x x) + b * total x == total (zip_with Qmult x y) /\
  a * total x + n * b == total y.
Proof.
  intros n a b HD Hn. subst a b. unfold lstsq_line. cbn [fst snd]. fold n.
  rewrite !Qred_correct.
  assert (~ n == 0) as Hn0.
  { subst n. intros H.
    assert (0 < inject_Z (Z.of_nat (length x))).
    { rewrite <- (Zlt_Qlt 0). lia. }
    lra. }
  split; field; auto.
Qed.

(** [lstsq_line] is the least-squares line: when the abscissas are not all
    equal, no other line has a smaller sum of squared residuals. *)
Lemma lstsq_line_least_squares (x y : list Q) (a' b' : Q) :
  length x = length y -> (0 < length x)%nat ->
  ~ inject_Z (Z.of_nat (length x)) * total (zip_with Qmult x x)
    - total x * total x == 0 ->
  squared_error x y (fst (lstsq_line x y)) (snd (lstsq_line x y))
  <= squared_error x y a' b'.
Proof.
  intros Hlen Hpos HD.
  destruct (lstsq_line_normal_equations x y HD Hpos) as [N1 N2].
  rewrite !squared_error_expand by done.
  set (a := fst (lstsq_line x y)) in *. set (b := snd (lstsq_line x y)) in *.
  set (n := inject_Z (Z.of_nat (length x))) in *.
  set (Sxx := total (zip_with Qmult x x)) in *.
  set (Sxy := total (zip_with Qmult x y)) in *.
  set (Syy := total (zip_with Qmult y y)) in *.
  set (Sx := total x) in *. set (Sy := total y) in *.
  pose proof (quadratic_form_nonneg (a' - a) (b' - b) x) as Hq.
  fold Sxx Sx n in Hq.
  assert (H1 : (a' - a) * (a * Sxx + b * Sx) == (a' - a) * Sxy) by (by rewrite N1).
  assert (H2 : (b' - b) * (a * Sx + n * b) == (b' - b) * Sy) by (by rewrite N2).
  lra.
Qed.

(** ** The writer *)

Lemma save_timestamps_npy_run ephys_file (tself_tref : table) sr s :
  _save_timestamps_npy ephys_file tself_tref sr s
  = (mkSys (<[file_ts ephys_file := map (fun r => (fst r * sr, snd r)) tself_tref]>
              (<[file_sync ephys_file := tself_tref]> (files s)))
           (logs s) (plots s), Ok tt).
Proof. reflexivity. Qed.

(** C9. [_save_timestamps_npy] stores the control points it is given,
    unmodified, in the sync file, and in the timestamps file the same
    rows with the first column multiplied by the sampling rate and the
    second column (reference time) unchanged; nothing else is touched. *)
Theorem save_timestamps_npy_tables
    (ephys_file : ephys_file) (tself_tref : table) (sr : Q) (s : sys) :
  file_sync ephys_file <> file_ts ephys_file ->
  exists s' timestamps,
    _save_timestamps_npy ephys_file tself_tref sr s = (s', Ok tt) /\
    files s' !! file_sync ephys_file = Some tself_tref /\
    files s' !! file_ts ephys_file = Some timestamps /\
    col0 timestamps = map (fun x => x * sr) (col0 tself_tref) /\
    col1 timestamps = col1 tself_tref /\
    (forall f, f <> file_sync ephys_file -> f <> file_ts ephys_file ->
               files s' !! f = files s !! f) /\
    logs s' = logs s /\ plots s' = plots s.
Proof.
  intros Hne. rewrite save_timestamps_npy_run.
  eexists _, _. split; [reflexivity|]. cbn [files logs plots].
  split; [by rewrite lookup_insert_ne, lookup_insert_eq|].
  split; [by rewrite lookup_insert_eq|].
  unfold col0, col1. rewrite !map_map. cbn [fst snd].
  repeat split; try done.
  intros f H1 H2. by rewrite !lookup_insert_ne.
Qed.

(** ** apply_sync at the control points *)

Lemma increasing_tail (x : Q) (l : list Q) : increasing (x :: l) -> increasing l.
Proof. destruct l; cbn; tauto. Qed.

Lemma sort_by_x_increasing (pts : table) :
  increasing (col0 pts) -> scipy.sort_by_x pts = pts.
Proof.
  induction pts as [|p pts IH]; intros Hinc; [done|].
  unfold scipy.sort_by_x in *. cbn [foldr].
  rewrite IH by (by eapply increasing_tail).
  destruct pts as [|q pts]; [done|].
  cbn in Hinc. destruct Hinc as [Hlt _]. cbn [scipy.insert_by_x].
  destruct (Qle_bool (fst p) (fst q)) eqn:E; [done|].
  assert (fst p <= fst q) as Hle by lra.
  apply Qle_bool_iff in Hle. congruence.
Qed.

Lemma zip_cols (pts : table) : zip (col0 pts) (col1 pts) = pts.
Proof. induction pts as [|[] ? IH]; cbn; [done|]. f_equal. exact IH. Qed.

Lemma interp1d_Ok (pts : table) :
  (2 <= length pts)%nat -> increasing (col0 pts) ->
  scipy.interp1d (col0 pts) (col1 pts) = Ok (scipy._call_linear pts).
Proof.
  intros Hlen Hinc. unfold scipy.interp1d.
  assert (length (col0 pts) = length pts) as E0 by apply length_map.
  assert (length (col1 pts) = length pts) as E1 by apply length_map.
  rewrite E0, E1, Nat.eqb_refl. cbn [negb].
  destruct (Nat.eqb_spec (length pts) 0); [lia|].
  destruct (Nat.ltb_spec (length pts) 2); [lia|].
  by rewrite zip_cols, sort_by_x_increasing.
Qed.

(** ** apply_sync in float64 *)

Lemma zip_cols_swap (pts : table) : zip (col1 pts) (col0 pts) = swap_cols pts.
Proof. induction pts as [|[] ? IH]; cbn; [done|]. f_equal. exact IH. Qed.

Lemma col0_swap (pts : table) : col0 (swap_cols pts) = col1 pts.
Proof. unfold col0, col1, swap_cols. rewrite map_map. done. Qed.

(** With exact arithmetic the rounded interpolant is the exact one. *)
Lemma rounded_exact (sync_file : Path) (times : list Q) (forward : bool) :
  rounded.apply_sync (fun q => q) sync_file times forward
  = apply_sync sync_file times forward.
Proof. reflexivity. Qed.

Lemma binary64_proper (a b : Q) : a == b -> binary64 a == binary64 b.
Proof.
  intros H. unfold binary64. by rewrite (Qred_complete a b H).
Qed.

Lemma rounded_interp1d_Ok (rnd : Q -> Q) (pts : table) :
  (2 <= length pts)%nat -> increasing (col0 pts) ->
  rounded.interp1d rnd (col0 pts) (col1 pts) = Ok (rounded._call_linear rnd pts).
Proof.
  intros Hlen Hinc. unfold rounded.interp1d.
  assert (length (col0 pts) = length pts) as E0 by apply length_map.
  assert (length (col1 pts) = length pts) as E1 by apply length_map.
  rewrite E0, E1, Nat.eqb_refl. cbn [negb].
  destruct (Nat.eqb_spec (length pts) 0); [lia|].
  destruct (Nat.ltb_spec (length pts) 2); [lia|].
  by rewrite zip_cols, sort_by_x_increasing.
Qed.

Lemma rounded_interp1d_swap_Ok (rnd : Q -> Q) (pts : table) :
  (2 <= length pts)%nat -> increasing (col1 pts) ->
  rounded.interp1d rnd (col1 pts) (col0 pts)
  = Ok (rounded._call_linear rnd (swap_cols pts)).
Proof.
  intros Hlen Hinc. unfold rounded.interp1d.
  assert (length (col0 pts) = length pts) as E0 by apply length_map.
  assert (length (col1 pts) = length pts) as E1 by apply length_map.
  rewrite E0, E1, Nat.eqb_refl. cbn [negb].
  destruct (Nat.eqb_spec (length pts) 0); [lia|].
  destruct (Nat.ltb_spec (length pts) 2); [lia|].
  rewrite zip_cols_swap, sort_by_x_increasing; [done|by rewrite col0_swap].
Qed.

(** At the lower end of a segment the offset is zero and the rounded line
    returns the ordinate as it is stored. *)
Lemma rounded_line_at_lo (rnd : Q -> Q) (slope x_lo y_lo v : Q) :
  (forall a b, a == b -> rnd a == rnd b) -> rnd 0 == 0 ->
  rnd y_lo == y_lo -> v == x_lo ->
  rnd (rnd (slope * rnd (v - x_lo)) + y_lo) == y_lo.
Proof.
  intros Hp H0 Hy Hv.
  assert (rnd (v - x_lo) == 0) as E1.
  { apply (Qeq_trans _ (rnd 0)); [apply Hp; lra|exact H0]. }
  assert (rnd (slope * rnd (v - x_lo)) == 0) as E2.
  { apply (Qeq_trans _ (rnd 0)); [apply Hp|exact H0].
    apply (Qeq_trans _ (slope * 0)); [|ring].
    apply Qmult_comp; [reflexivity|exact E1]. }
  apply (Qeq_trans _ (rnd y_lo)); [apply Hp; lra|exact Hy].
Qed.

Lemma rounded_call_linear_first (rnd : Q -> Q) (x0 y0 v : Q) (p : Q * Q)
    (pts : table) :
  (forall a b, a == b -> rnd a == rnd b) -> rnd 0 == 0 ->
  rnd y0 == y0 -> v == x0 ->
  rounded._call_linear rnd ((x0, y0) :: p :: pts) v == y0.
Proof.
  intros Hp H0 Hy Hv. unfold rounded._call_linear.
  cbn [col0 col1 map fst snd scipy.searchsorted].
  assert (Qltb x0 v = false) as -> by (apply Qltb_ge; lra).
  cbn [length Nat.max Nat.min Nat.sub nth].
  by apply rounded_line_at_lo.
Qed.

(** C7. In float64 the round trip of [apply_sync] is exact at the first
    control point.  Take a stored table of at least two rows whose two
    columns increase strictly, whose first row [(x0, y0)] holds float64
    numbers and whose first segment is computed without overflow, and any
    rounding [rnd] of the arithmetic that leaves zero and float64 numbers
    as they are.  Then mapping the first local time [x0] forward returns
    the first reference time [y0] as it is stored, and mapping that back
    returns [x0]: at the lower end of the first segment the offset
    [x_new - x_lo] is zero, the product with the slope is zero, and the sum
    is [y_lo].  At the other control points the product is rounded and the
    round trip need not return the control point. *)
Theorem apply_sync_round_trip_at_first_control_point
    (rnd : Q -> Q) (sync_file : Path) (sync_points : table) (x0 y0 : Q)
    (s : sys) :
  (forall a b, a == b -> rnd a == rnd b) ->
  rnd 0 == 0 -> rnd x0 == x0 -> rnd y0 == y0 ->
  files s !! sync_file = Some sync_points ->
  sync_points !! 0%nat = Some (x0, y0) ->
  (2 <= length sync_points)%nat ->
  increasing (col0 sync_points) ->
  increasing (col1 sync_points) ->
  first_segment_in_range rnd sync_points ->
  exists y x',
    rounded.apply_sync rnd sync_file [x0] true s = (s, Ok [y]) /\
    rounded.apply_sync rnd sync_file [y] false s = (s, Ok [x']) /\
    y == y0 /\ x' == x0.
Proof.
  intros Hp H0 Hx Hy Hfile Hfirst Hlen Hinc0 Hinc1 _.
  unfold rounded.apply_sync, bind, np_load, lift, ret. rewrite Hfile.
  rewrite rounded_interp1d_Ok, rounded_interp1d_swap_Ok by done.
  destruct sync_points as [|[x0' y0'] [|p pts]]; cbn in Hlen; try lia.
  injection Hfirst as -> ->.
  eexists _, _. split; [reflexivity|]. split; [reflexivity|].
  assert (rounded._call_linear rnd ((x0, y0) :: p :: pts) x0 == y0) as E.
  { by apply rounded_call_linear_first. }
  split; [exact E|].
  unfold swap_cols. cbn [map fst snd].
  by apply rounded_call_linear_first.
Qed.

(** ** The reference probe *)

Lemma select_nonempty {A} (a : list A) : forall (mask : list bool),
  length a = length mask -> np.all_not mask = false -> np.select a mask <> [].
Proof.
  unfold np.all_not.
  induction a as [|v a IH]; intros [|b mask] Hlen Hall; try done.
  cbn in *. destruct b; [done|]. cbn in Hall. apply IH; [lia|done].
Qed.

Lemma get_sync_fronts_from_Some aux (efs : list ephys_file) :
  forall ind d d',
    get_sync_fronts_from aux ind efs d = Ok (Some d') ->
    (ind + length efs <= length (nsync d))%nat ->
    d_times d' = d_times d ++ map (channel_fronts aux) efs /\
    nsync d' = take ind (nsync d) ++ map total_events efs
               ++ drop (ind + length efs) (nsync d) /\
    Forall (fun ef => channel_fronts aux ef <> []) efs.
Proof.
  induction efs as [|ef efs IH]; intros ind d d' H Hlen.
  - cbn in *. injection H as <-. rewrite app_nil_r, Nat.add_0_r, take_drop. done.
  - cbn [get_sync_fronts_from] in H. cbn [map length] in *.
    assert (Hcf : channel_fronts aux ef =
              match sync_map ef !! aux with
              | Some channel =>
                  np.select (times (spikeglx_sync ef))
                            (np.in1d (channels (spikeglx_sync ef)) channel)
              | None => []
              end) by reflexivity.
    destruct (sync_map ef !! aux) as [channel|]; [|discriminate].
    rewrite Hcf.
    destruct (np.all_not _) eqn:Hall; [discriminate|].
    unfold np.getitem_mask in H.
    destruct (Nat.eqb_spec (length (times (spikeglx_sync ef)))
                (length (np.in1d (channels (spikeglx_sync ef)) channel)))
      as [Hl|]; [|discriminate].
    cbn [res_bind] in H. apply IH in H; cbn [nsync d_times] in *.
    2:{ rewrite length_insert. lia. }
    destruct H as (Ht & Hn & Hne). split; [|split].
    + by rewrite Ht, <- app_assoc.
    + rewrite Hn, drop_insert_lt by lia.
      rewrite (take_S_r _ _ (total_events ef))
        by (rewrite list_lookup_insert_eq by lia; done).
      rewrite take_insert_ge by lia.
      replace (S ind + length efs)%nat with (ind + S (length efs))%nat by lia.
      by rewrite <- !app_assoc.
    + constructor; [|done]. rewrite Hcf. by apply select_nonempty.
Qed.

Lemma get_sync_fronts_Some (efs : list ephys_file) aux d :
  get_sync_fronts efs aux = Ok (Some d) ->
  d_times d = map (channel_fronts aux) efs /\
  nsync d = map total_events efs /\
  Forall (fun ef => channel_fronts aux ef <> []) efs.
Proof.
  unfold get_sync_fronts. intros H.
  apply get_sync_fronts_from_Some in H; cbn [nsync d_times] in *.
  2:{ by rewrite length_replicate. }
  destruct H as (Ht & Hn & Hne). repeat split; try done.
  rewrite Hn, drop_ge by (rewrite length_replicate; cbn; lia).
  by rewrite app_nil_r.
Qed.

Lemma argmax_from_first_maximum (a : list Z) : forall (pre : list Z) best_i best,
  pre !! best_i = Some best ->
  (forall j cj, pre !! j = Some cj -> (cj <= best)%Z) ->
  (forall j cj, (j < best_i)%nat -> pre !! j = Some cj -> (cj < best)%Z) ->
  first_maximum (pre ++ a) (np.argmax_from best_i best (length pre) a).
Proof.
  induction a as [|v a IH]; intros pre best_i best Hb Hmax Hfirst.
  - cbn. rewrite app_nil_r. by exists best.
  - cbn [np.argmax_from].
    replace (pre ++ v :: a) with ((pre ++ [v]) ++ a) by (by rewrite <- app_assoc).
    replace (S (length pre)) with (length (pre ++ [v]))
      by (rewrite length_app; cbn; lia).
    destruct (Z.ltb_spec best v) as [Hlt|Hge].
    + apply IH.
      * by rewrite lookup_app_r, Nat.sub_diag.
      * intros j cj Hj. apply lookup_app_Some in Hj as [Hj|[_ Hj]].
        -- specialize (Hmax j cj Hj). lia.
        -- apply list_lookup_singleton_Some in Hj as [_ <-]. lia.
      * intros j cj Hj Hl. rewrite lookup_app_l in Hl by done.
        specialize (Hmax j cj Hl). lia.
    + apply IH.
      * rewrite lookup_app_l; [done|]. by eapply lookup_lt_Some.
      * intros j cj Hj. apply lookup_app_Some in Hj as [Hj|[_ Hj]].
        -- by eapply Hmax.
        -- apply list_lookup_singleton_Some in Hj as [_ <-]. lia.
      * intros j cj Hj Hl.
        assert (j < length pre)%nat by (apply lookup_lt_Some in Hb; lia).
        rewrite lookup_app_l in Hl by done. by eapply Hfirst.
Qed.

Lemma argmax_first_maximum (a : list Z) :
  a <> [] -> first_maximum a (np.argmax a).
Proof.
  destruct a as [|v a]; [done|]. intros _. cbn [np.argmax].
  apply (argmax_from_first_maximum a [v] 0%nat v).
  - done.
  - intros [|j] cj Hj; cbn in Hj; [|done]. injection Hj as <-. lia.
  - intros j cj Hj. lia.
Qed.

(** C3, as the code has it.  The fronts that [get_sync_fronts] returns
    carry, for each probe, the number of events of all its channels, and
    the reference probe of [version3A] ([np.argmax(d.nsync)], line 94) is
    the first probe with the largest such number. *)
Theorem reference_is_first_probe_with_most_events
    (ephys_files : list ephys_file) (auxiliary_name : string) (d : fronts) :
  (2 <= length ephys_files)%nat ->
  get_sync_fronts ephys_files auxiliary_name = Ok (Some d) ->
  nsync d = map total_events ephys_files /\
  first_maximum (map total_events ephys_files) (np.argmax (nsync d)).
Proof.
  intros Hlen H. apply get_sync_fronts_Some in H as (_ & Hn & _).
  split; [done|]. rewrite Hn. apply argmax_first_maximum.
  destruct ephys_files; cbn in *; [lia|done].
Qed.

(** ** Fitting, verification and the runs over a session *)

Section Properties.

Variable lstsq : list Q -> list Q -> Q * Q.
Variable lp : list Q -> Q -> Q * Q -> list Q.
Variable get_fronts : Sync -> Z -> list Q.

(** *** The diagnostic plots do not reach the results *)

Lemma fit_sync_points_alike t tref sr d1 d2 linear :
  alike (fit_sync_points lstsq lp t tref sr d1 linear)
        (fit_sync_points lstsq lp t tref sr d2 linear).
Proof.
  unfold fit_sync_points.
  apply alike_bind; [apply alike_lift|intros pol].
  destruct linear; cbn [negb].
  - apply alike_bind; [|intros; apply alike_ret].
    apply draws_alike; [destruct (truthy d1)|destruct (truthy d2)]; solve_draws.
  - apply alike_bind; [apply alike_lift|intros res_upsamp].
    apply alike_bind; [apply alike_lift|intros res_filt].
    apply alike_bind; [apply alike_lift|intros smoothed].
    apply alike_bind; [|intros; apply alike_ret].
    apply draws_alike; [destruct d1 as [[]|]|destruct d2 as [[]|]];
      cbn [truthy]; solve_draws.
Qed.

Lemma sync_probe_front_times_alike t tref sr d1 d2 linear tol :
  alike (sync_probe_front_times lstsq lp t tref sr d1 linear tol)
        (sync_probe_front_times lstsq lp t tref sr d2 linear tol).
Proof.
  unfold sync_probe_front_times.
  apply alike_bind; [apply fit_sync_points_alike|intros pts].
  apply alike_bind; [apply alike_lift|intros fcn].
  destruct (exceeds_tol _ _ _ _ _).
  - apply alike_bind; [apply alike_logger_error|intros; apply alike_ret].
  - apply alike_ret.
Qed.

(** C10. Two runs of [sync_probe_front_times] that differ only in the
    [display] argument return the same result, control points and quality
    flag (or raise the same exception); they leave the same files and emit
    the same log records. *)
Theorem display_does_not_change_outputs
    (t tref : list Q) (sr : Q) (linear : bool) (tol : Q)
    (d1 d2 : display_arg) (s : sys) :
  let run1 := sync_probe_front_times lstsq lp t tref sr d1 linear tol s in
  let run2 := sync_probe_front_times lstsq lp t tref sr d2 linear tol s in
  snd run1 = snd run2 /\
  files (fst run1) = files (fst run2) /\
  logs (fst run1) = logs (fst run2).
Proof.
  destruct (sync_probe_front_times_alike t tref sr d1 d2 linear tol s s)
    as (r & lg & pl1 & pl2 & E1 & E2).
  cbv zeta. rewrite E1, E2. done.
Qed.

(** *** The verification of the fitted map *)

Lemma polyfit_Ok_inv (t tref pol : list Q) :
  polyfit lstsq t tref = Ok pol ->
  (0 < length t)%nat /\ length t = length tref /\
  pol = [fst (lstsq t tref); snd (lstsq t tref)].
Proof.
  unfold polyfit.
  destruct (length t =? 0)%nat eqn:E0; [discriminate|].
  destruct (length t =? length tref)%nat eqn:E1; cbn; [|discriminate].
  apply Nat.eqb_neq in E0. apply Nat.eqb_eq in E1.
  intros [= <-]. repeat split; [lia|done].
Qed.

Lemma fit_sync_points_Ok_inv t tref sr display linear s s1 pts :
  fit_sync_points lstsq lp t tref sr display linear s = (s1, Ok pts) ->
  (0 < length t)%nat /\ length t = length tref.
Proof.
  unfold fit_sync_points. intros H.
  apply bind_Ok_inv in H as (pol & s0 & Hpol & _).
  apply lift_inv in Hpol as [_ Hpol]. symmetry in Hpol.
  apply polyfit_Ok_inv in Hpol. tauto.
Qed.

Lemma sync_probe_front_times_Ok_inv t tref sr display linear tol s s' pts qc :
  sync_probe_front_times lstsq lp t tref sr display linear tol s
    = (s', Ok (pts, qc)) ->
  exists s1 fcn,
    fit_sync_points lstsq lp t tref sr display linear s = (s1, Ok pts) /\
    scipy.interp1d (col0 pts) (col1 pts) = Ok fcn /\
    qc = negb (exceeds_tol fcn t tref sr tol) /\
    files s' = files s1 /\ plots s' = plots s1 /\
    logs s' = logs s1 ++
      (if qc then []
       else [Error "Synchronization check exceeds tolerance of {tol} samples. Check !!"
                   tol]).
Proof.
  unfold sync_probe_front_times. intros H.
  apply bind_Ok_inv in H as (pts' & s1 & Hfit & H).
  apply bind_Ok_inv in H as (fcn & s2 & Hfcn & H).
  apply lift_inv in Hfcn as [-> Hfcn].
  destruct (exceeds_tol fcn t tref sr tol) eqn:Hex.
  - unfold bind, logger_error, ret in H. injection H as <- <- <-.
    exists s1, fcn. split; [exact Hfit|]. split; [by symmetry|].
    rewrite Hex. cbn [negb files logs plots]. repeat split; reflexivity.
  - unfold ret in H. injection H as <- <- <-.
    exists s1, fcn. split; [exact Hfit|]. split; [by symmetry|].
    rewrite Hex, app_nil_r. cbn [negb]. repeat split; reflexivity.
Qed.

(** The check as the code writes it, for any sampling rate: the absolute
    value is taken after the multiplication by [sr]. *)
Lemma verification_flag_any_rate t tref sr display linear tol s s' pts qc :
  sync_probe_front_times lstsq lp t tref sr display linear tol s
    = (s', Ok (pts, qc)) ->
  exists interp,
    scipy.interp1d (col0 pts) (col1 pts) = Ok interp /\
    (qc = false <->
       exists i ti ri, t !! i = Some ti /\ tref !! i = Some ri /\
                       tol < Qabs ((ri - interp ti) * sr)).
Proof.
  intros Hrun.
  apply sync_probe_front_times_Ok_inv in Hrun
    as (s1 & fcn & _ & Hfcn & Hqc & _).
  exists fcn. split; [done|].
  by rewrite Hqc, negb_false_iff, exceeds_tol_true.
Qed.

(** The control points returned are at least two. *)
Lemma sync_points_at_least_two t tref sr display linear tol s s' pts qc :
  sync_probe_front_times lstsq lp t tref sr display linear tol s
    = (s', Ok (pts, qc)) ->
  (2 <= length pts)%nat.
Proof.
  intros Hrun.
  apply sync_probe_front_times_Ok_inv in Hrun
    as (s1 & fcn & _ & Hfcn & _).
  unfold scipy.interp1d in Hfcn.
  destruct (negb _); [discriminate|].
  destruct (_ =? 0)%nat; [discriminate|].
  destruct (Nat.ltb_spec (length (col0 pts)) 2); [discriminate|].
  unfold col0 in *. by rewrite length_map in *.
Qed.

(** C1. When [sync_probe_front_times] returns [(sync_points, qc)] for a
    non-negative sampling rate: with [interp] the interpolant of
    [interp1d] over the returned control points, [qc] is [False] exactly
    when some matched pair has [|tref[i] - interp(t[i])| * sr > tol] (and an
    error is then logged); when [qc] is [True] every matched pair is
    within the tolerance; and the table returned is the fitted table,
    the same for every tolerance and so for either outcome of the check. *)
Theorem verification_flags_tolerance
    (t tref : list Q) (sr : Q) (display : display_arg) (linear : bool)
    (tol : Q) (s s' : sys) (pts : table) (qc : bool) :
  0 <= sr ->
  sync_probe_front_times lstsq lp t tref sr display linear tol s
    = (s', Ok (pts, qc)) ->
  exists interp,
    scipy.interp1d (col0 pts) (col1 pts) = Ok interp /\
    length t = length tref /\
    (qc = false <->
       exists i ti ri, t !! i = Some ti /\ tref !! i = Some ri /\
                       tol < Qabs (ri - interp ti) * sr) /\
    (qc = true ->
       forall i ti ri, t !! i = Some ti -> tref !! i = Some ri ->
                       Qabs (interp ti - ri) * sr <= tol) /\
    (qc = false -> exists msg, last (logs s') = Some (Error msg tol)) /\
    snd (fit_sync_points lstsq lp t tref sr display linear s) = Ok pts /\
    (forall display' tol' s2, exists qc' s2',
       sync_probe_front_times lstsq lp t tref sr display' linear tol' s2
         = (s2', Ok (pts, qc'))).
Proof.
  intros Hsr Hrun.
  apply sync_probe_front_times_Ok_inv in Hrun
    as (s1 & fcn & Hfit & Hfcn & Hqc & _ & _ & Hlog).
  exists fcn. split; [done|].
  split; [by apply fit_sync_points_Ok_inv in Hfit as [_ ?]|].
  assert (Hiff : qc = false <->
       exists i ti ri, t !! i = Some ti /\ tref !! i = Some ri /\
                       tol < Qabs (ri - fcn ti) * sr).
  { rewrite Hqc, negb_false_iff, exceeds_tol_true.
    split; intros (i & ti & ri & Hti & Hri & Hlt); exists i, ti, ri;
      repeat split; try done.
    - by rewrite <- Qabs_scaled.
    - by rewrite Qabs_scaled. }
  split; [exact Hiff|]. split; [|split; [|split]].
  - intros Htrue i ti ri Hti Hri.
    apply Qnot_lt_le. intros Hlt.
    assert (qc = false) as Hf; [|congruence].
    apply Hiff. exists i, ti, ri. repeat split; try done.
    by rewrite (Qabs_swap ri (fcn ti)).
  - intros Hf. rewrite Hlog, Hf. eexists. by rewrite last_snoc.
  - by rewrite Hfit.
  - intros display' tol' s2.
    destruct (fit_sync_points_alike t tref sr display display' linear s s2)
      as (r & lg & pl1 & pl2 & E1 & E2).
    rewrite Hfit in E1. injection E1 as _ <-.
    unfold sync_probe_front_times, bind. rewrite E2.
    unfold lift. rewrite Hfcn.
    destruct (exceeds_tol fcn t tref sr tol'); cbn; eauto.
Qed.

(** *** The linear model *)

Lemma polyfit_Ok (t tref : list Q) :
  (0 < length t)%nat -> length t = length tref ->
  polyfit lstsq t tref = Ok [fst (lstsq t tref); snd (lstsq t tref)].
Proof.
  intros Hpos Hlen. unfold polyfit.
  destruct (Nat.eqb_spec (length t) 0); [lia|].
  destruct (Nat.eqb_spec (length t) (length tref)); [done|lia].
Qed.


(** *** The loop over the probes *)

Lemma sync_probe_front_times_run t tref sr display linear tol s :
  exists lg pl,
    sync_probe_front_times lstsq lp t tref sr display linear tol s
    = (mkSys (files s) (logs s ++ lg) (plots s ++ pl),
       probe_fit lstsq lp t tref sr linear tol).
Proof.
  destruct (sync_probe_front_times_alike t tref sr display (DisplayBool false)
              linear tol s (mkSys ∅ [] []))
    as (r & lg & pl1 & pl2 & E1 & E2).
  exists lg, pl1. unfold probe_fit. by rewrite E1, E2.
Qed.

Lemma version3A_loop_cons dt iref sr display linear tol ind ef rest qc_all s :
  exists lg pl,
    version3A_loop lstsq lp dt iref sr display linear tol ind (ef :: rest) qc_all s
    = match probe_outcome lstsq lp dt iref sr linear tol ind with
      | Ok r =>
          version3A_loop lstsq lp dt iref sr display linear tol (S ind) rest
            (qc_all && snd r)
            (mkSys (<[file_ts ef := rescale sr (fst r)]>
                      (<[file_sync ef := fst r]> (files s)))
                   (logs s ++ lg) (plots s ++ pl))
      | Raise e => (mkSys (files s) (logs s ++ lg) (plots s ++ pl), Raise e)
      end.
Proof.
  cbn [version3A_loop]. unfold probe_outcome.
  destruct (ind =? iref)%nat.
  - exists [], []. unfold bind. rewrite save_timestamps_npy_run.
    cbn [fst snd]. by rewrite andb_true_r, !app_nil_r.
  - destruct (sync_probe_front_times_run (np.column dt ind) (np.column dt iref)
                sr display linear tol s) as (lg & pl & E).
    exists lg, pl. unfold bind at 1. rewrite E.
    destruct (probe_fit _ _ _ _ _ _ _) as [r|e]; [|done].
    unfold bind. by rewrite save_timestamps_npy_run.
Qed.

Lemma version3A_loop_frame dt iref sr display linear tol (efs : list ephys_file) :
  forall ind qc0 s s' r,
    version3A_loop lstsq lp dt iref sr display linear tol ind efs qc0 s = (s', r) ->
    forall f, f ∉ outputs efs -> files s' !! f = files s !! f.
Proof.
  induction efs as [|ef rest IH]; intros ind qc0 s s' r H f Hf.
  - cbn in H. by injection H as <- _.
  - destruct (version3A_loop_cons dt iref sr display linear tol ind ef rest qc0 s)
      as (lg & pl & E).
    rewrite E in H. clear E.
    unfold outputs in Hf. cbn [flat_map app] in Hf. fold (outputs rest) in Hf.
    apply not_elem_of_cons in Hf as [Hf1 Hf].
    apply not_elem_of_cons in Hf as [Hf2 Hf].
    destruct (probe_outcome _ _ _ _ _ _ _ _) as [o|e].
    + apply IH with (f := f) in H; [|done]. rewrite H. cbn [files].
      by rewrite !lookup_insert_ne.
    + by injection H as <- _.
Qed.

Lemma version3A_loop_Ok dt iref sr display linear tol (efs : list ephys_file) :
  forall ind qc0 s s' qc_all,
    version3A_loop lstsq lp dt iref sr display linear tol ind efs qc0 s
      = (s', Ok qc_all) ->
    (forall k ef, efs !! k = Some ef ->
       exists tbl qc,
         probe_outcome lstsq lp dt iref sr linear tol (ind + k) = Ok (tbl, qc) /\
         (qc_all = true -> qc = true) /\
         (NoDup (outputs efs) ->
            files s' !! file_sync ef = Some tbl /\
            files s' !! file_ts ef = Some (rescale sr tbl))) /\
    (qc_all = true -> qc0 = true) /\
    (qc0 = true ->
     (forall k tbl qc, (k < length efs)%nat ->
        probe_outcome lstsq lp dt iref sr linear tol (ind + k) = Ok (tbl, qc) ->
        qc = true) ->
     qc_all = true).
Proof.
  induction efs as [|ef rest IH]; intros ind qc0 s s' qc_all H.
  - cbn in H. injection H as <- <-. repeat split; try done.
  - destruct (version3A_loop_cons dt iref sr display linear tol ind ef rest qc0 s)
      as (lg & pl & E).
    rewrite E in H. clear E.
    destruct (probe_outcome lstsq lp dt iref sr linear tol ind) as [[tbl qc]|e] eqn:Ho;
      [|discriminate].
    cbn [fst snd] in H.
    pose proof (version3A_loop_frame _ _ _ _ _ _ _ _ _ _ _ _ H) as Hframe.
    apply IH in H as (Hrest & Hqc1 & Hqc2). cbn [files] in Hframe.
    split; [|split].
    + intros [|k] ef' Hk; cbn in Hk.
      * injection Hk as <-. exists tbl, qc. rewrite Nat.add_0_r.
        split; [done|]. split.
        { intros Ht. apply Hqc1 in Ht. by apply andb_true_iff in Ht as [_ ?]. }
        intros Hnd.
        unfold outputs in Hnd. cbn [flat_map app] in Hnd. fold (outputs rest) in Hnd.
        apply NoDup_cons in Hnd as [Hs Hnd]. apply NoDup_cons in Hnd as [Ht Hnd].
        apply not_elem_of_cons in Hs as [Hne Hs].
        rewrite !Hframe by done. split; [|by rewrite lookup_insert_eq].
        by rewrite lookup_insert_ne, lookup_insert_eq.
      * destruct (Hrest k ef' Hk) as (tbl' & qc' & Hout & Hq & Hfiles).
        exists tbl', qc'. replace (ind + S k)%nat with (S ind + k)%nat by lia.
        split; [done|]. split; [done|].
        intros Hnd. apply Hfiles.
        unfold outputs in Hnd. cbn [flat_map app] in Hnd. fold (outputs rest) in Hnd.
        by apply NoDup_cons in Hnd as [_ [_ ?]%NoDup_cons].
    + intros Ht. apply Hqc1 in Ht. by apply andb_true_iff in Ht as [? _].
    + intros Hq0 Hall. apply Hqc2.
      * rewrite Hq0. cbn. apply (Hall 0%nat tbl qc); [cbn; lia|].
        by rewrite Nat.add_0_r.
      * intros k tbl' qc' Hk Hout. apply (Hall (S k) tbl' qc'); [cbn; lia|].
        by replace (ind + S k)%nat with (S ind + k)%nat by lia.
Qed.

Lemma version3A_loop_Raise dt iref sr display linear tol (efs : list ephys_file) :
  forall ind qc0 s s' e,
    version3A_loop lstsq lp dt iref sr display linear tol ind efs qc0 s
      = (s', Raise e) ->
    exists k, (k < length efs)%nat /\
      probe_outcome lstsq lp dt iref sr linear tol (ind + k) = Raise e.
Proof.
  induction efs as [|ef rest IH]; intros ind qc0 s s' e H; [done|].
  destruct (version3A_loop_cons dt iref sr display linear tol ind ef rest qc0 s)
    as (lg & pl & E).
  rewrite E in H. clear E.
  destruct (probe_outcome lstsq lp dt iref sr linear tol ind) as [o|e'] eqn:Ho.
  - apply IH in H as (k & Hk & Hout). exists (S k). split; [cbn; lia|].
    by replace (ind + S k)%nat with (S ind + k)%nat by lia.
  - injection H as _ <-. exists 0%nat. split; [cbn; lia|].
    by rewrite Nat.add_0_r.
Qed.

(** *** Streams of unequal length *)

Lemma version3A_loop_logs dt iref sr display linear tol (efs : list ephys_file) :
  forall ind qc0 s s' r,
    version3A_loop lstsq lp dt iref sr display linear tol ind efs qc0 s = (s', r) ->
    exists lg, logs s' = logs s ++ lg.
Proof.
  induction efs as [|ef rest IH]; intros ind qc0 s s' r H.
  - cbn in H. injection H as <- _. exists []. by rewrite app_nil_r.
  - destruct (version3A_loop_cons dt iref sr display linear tol ind ef rest qc0 s)
      as (lg & pl & E).
    rewrite E in H. clear E.
    destruct (probe_outcome _ _ _ _ _ _ _ _) as [o|e].
    + apply IH in H as [lg' H]. cbn [logs] in H.
      exists (lg ++ lg'). by rewrite H, app_assoc.
    + injection H as <- _. by exists lg.
Qed.

Lemma version3A_sync_run (efs : list ephys_file) aux d display linear tol s :
  (2 <= length efs)%nat ->
  get_sync_fronts efs aux = Ok (Some d) ->
  let nsyncs := map (fun t => length t) (d_times d) in
  let m := py_min_nat nsyncs in
  let iref := np.argmax (nsync d) in
  exists ef_ref tref s0,
    efs !! iref = Some ef_ref /\ d_times d !! iref = Some tref /\
    files s0 = files s /\ plots s0 = plots s /\
    logs s0 = logs s ++
      (if (1 <? length (remove_dups nsyncs))%nat
       then [Warning "Probes don't have the same number of synchronizations pulses"]
       else []) /\
    version3A_sync lstsq lp efs d display linear tol s
    = version3A_loop lstsq lp
        (np.transpose m (map (fun t => take m t) (d_times d)))
        iref (_get_sr ef_ref) display linear tol 0 efs true s0.
Proof.
  intros Hlen Hd nsyncs m iref.
  apply get_sync_fronts_Some in Hd as (Ht & Hn & _).
  destruct (argmax_first_maximum (nsync d)) as (c & Hc & _).
  { rewrite Hn. destruct efs; cbn in *; [lia|done]. }
  fold iref in Hc. rewrite Hn in Hc.
  rewrite map_fmap in Hc. apply list_lookup_fmap_Some in Hc as (ef_ref & _ & Href).
  assert (exists tref, d_times d !! iref = Some tref) as [tref Htref].
  { rewrite Ht, map_fmap, list_lookup_fmap, Href. by eexists. }
  exists ef_ref, tref.
  unfold version3A_sync. fold nsyncs m iref. unfold getitem. rewrite Href.
  destruct (1 <? length (remove_dups nsyncs))%nat.
  - eexists (mkSys (files s) (logs s ++ [_]) (plots s)). by repeat split.
  - exists s. repeat split; try done. by rewrite app_nil_r.
Qed.

Lemma probe_outcome_chopped (streams : list (list Q)) iref sr linear tol k t tref :
  streams !! k = Some t -> streams !! iref = Some tref ->
  let m := py_min_nat (map (fun t => length t) streams) in
  probe_outcome lstsq lp (np.transpose m (map (fun t => take m t) streams))
                iref sr linear tol k
  = if (k =? iref)%nat then Ok (identity_timestamps, true)
    else probe_fit lstsq lp (take m t) (take m tref) sr linear tol.
Proof.
  intros Hk Href m. subst m. unfold probe_outcome.
  destruct (column_chopped streams k t Hk) as [-> _].
  destruct (column_chopped streams iref tref Href) as [-> _].
  done.
Qed.


(** *** The channel of version3A *)

Lemma version3A_run (ses_path : session) display linear tol s :
  let efs := glob_ephys_files ses_path in
  (2 <= length efs)%nat ->
  version3A lstsq lp ses_path display linear tol s
  = match get_sync_fronts efs "frame2ttl" with
    | Raise e => (s, Raise e)
    | Ok (Some d) => version3A_sync lstsq lp efs d display linear tol s
    | Ok None =>
        match get_sync_fronts efs "right_camera" with
        | Raise e => (after_camera_warning s, Raise e)
        | Ok None =>
            (after_camera_warning s,
             Raise (TypeError "'NoneType' object is not subscriptable"))
        | Ok (Some d) =>
            if Qltb (2 # 10) (py_min (map (fun t => hd 0 t) (d_times d)))
            then version3A_sync lstsq lp efs d display linear tol
                   (after_camera_warning s)
            else (after_camera_warning s, Raise cameras_started_before_ephys)
        end
    end.
Proof.
  intros efs Hlen. unfold version3A. fold efs.
  destruct (Nat.leb_spec (length efs) 1); [lia|].
  unfold bind at 1. unfold lift at 1.
  destruct (get_sync_fronts efs "frame2ttl") as [[d|]|e]; [done| |done].
  unfold bind at 1. unfold bind at 1. unfold logger_warning at 1.
  fold (after_camera_warning s). unfold bind at 1. unfold lift at 1.
  destruct (get_sync_fronts efs "right_camera") as [[d|]|e] eqn:Hcam; [|done|done].
  apply get_sync_fronts_Some in Hcam as (Ht & _ & Hne).
  rewrite mapM_first.
  2:{ rewrite Ht, map_fmap. by apply Forall_fmap. }
  unfold bind, lift.
  by destruct (Qltb _ _).
Qed.

Lemma polyfit_errors (t tref : list Q) e :
  polyfit lstsq t tref = Raise e -> e ∈ fit_errors.
Proof.
  unfold polyfit, fit_errors. repeat case_match; intros [= <-]; set_solver.
Qed.

Lemma fit_sync_points_errors t tref sr display linear s s' e :
  fit_sync_points lstsq lp t tref sr display linear s = (s', Raise e) ->
  e ∈ fit_errors.
Proof.
  unfold fit_sync_points. intros H.
  apply bind_Raise_inv in H as [H|(pol & s1 & _ & H)].
  { apply lift_inv in H as [_ H]. symmetry in H. by eapply polyfit_errors. }
  destruct linear; cbn [negb] in H.
  - apply bind_Raise_inv in H as [H|(? & ? & _ & H)]; [|done].
    exfalso. revert H. apply draws_no_raise.
    destruct (truthy display); solve_draws.
  - apply bind_Raise_inv in H as [H|(res_upsamp & s2 & _ & H)].
    { apply lift_inv in H as [_ H]. symmetry in H. by eapply interp_errors. }
    apply bind_Raise_inv in H as [H|(res_filt & s3 & _ & H)].
    { apply lift_inv in H as [_ H]. symmetry in H. by eapply pad_median_errors. }
    apply bind_Raise_inv in H as [H|(smoothed & s4 & _ & H)].
    { apply lift_inv in H as [_ H]. symmetry in H. by eapply interp_errors. }
    apply bind_Raise_inv in H as [H|(? & ? & _ & H)]; [|done].
    exfalso. revert H. apply draws_no_raise.
    destruct display as [[]|]; cbn [truthy]; solve_draws.
Qed.

Lemma probe_fit_errors t tref sr linear tol e :
  probe_fit lstsq lp t tref sr linear tol = Raise e -> e ∈ fit_errors.
Proof.
  unfold probe_fit.
  destruct (sync_probe_front_times _ _ _ _ _ _ _ _ _) as [s' r] eqn:H.
  cbn [snd]. intros ->. unfold sync_probe_front_times in H.
  apply bind_Raise_inv in H as [H|(pts & s1 & _ & H)].
  { by eapply fit_sync_points_errors. }
  apply bind_Raise_inv in H as [H|(fcn & s2 & _ & H)].
  { apply lift_inv in H as [_ H]. symmetry in H. by eapply interp1d_errors. }
  destruct (exceeds_tol _ _ _ _ _); [|done].
  apply bind_Raise_inv in H as [H|(? & ? & _ & H)]; done.
Qed.

Lemma version3A_sync_errors (efs : list ephys_file) aux d display linear tol s s' e :
  (2 <= length efs)%nat ->
  get_sync_fronts efs aux = Ok (Some d) ->
  version3A_sync lstsq lp efs d display linear tol s = (s', Raise e) ->
  e ∈ fit_errors.
Proof.
  intros Hlen Hd H.
  destruct (version3A_sync_run efs aux d display linear tol s Hlen Hd)
    as (ef_ref & tref & s0 & _ & _ & _ & _ & _ & Hrun).
  rewrite Hrun in H. apply version3A_loop_Raise in H as (k & _ & Hout).
  unfold probe_outcome in Hout. destruct (_ =? _)%nat; [done|].
  by eapply probe_fit_errors.
Qed.

(** C6, as the code has it.  On the camera path of [version3A] (no
    [frame2ttl] fronts on every probe, [right_camera] fronts on every
    probe) the run raises [ValueError('Cameras started before ephys, no
    sync possible')] exactly when the smallest first camera time of the
    probes is not greater than 0.2 s; nothing has then been written.
    Otherwise the synchronisation goes on with the camera fronts. *)
Theorem camera_fallback_start_check
    (ses_path : session) (display : display_arg) (linear : bool) (tol : Q)
    (s : sys) (d : fronts) :
  let efs := glob_ephys_files ses_path in
  (2 <= length efs)%nat ->
  get_sync_fronts efs "frame2ttl" = Ok None ->
  get_sync_fronts efs "right_camera" = Ok (Some d) ->
  let first_time := py_min (map (fun t => hd 0 t) (d_times d)) in
  let run := version3A lstsq lp ses_path display linear tol s in
  (snd run = Raise cameras_started_before_ephys <-> ~ (2 # 10 < first_time)) /\
  (~ (2 # 10 < first_time) -> fst run = after_camera_warning s) /\
  (2 # 10 < first_time ->
     run = version3A_sync lstsq lp efs d display linear tol (after_camera_warning s)).
Proof.
  intros efs Hlen Hf2t Hcam first_time run.
  subst run. rewrite (version3A_run ses_path display linear tol s Hlen).
  fold efs. rewrite Hf2t, Hcam. fold first_time.
  destruct (Qltb (2 # 10) first_time) eqn:E.
  - apply Qltb_lt in E. split; [|split]; try done.
    split; [|done]. intros Hraise. exfalso.
    destruct (version3A_sync lstsq lp efs d display linear tol
                (after_camera_warning s)) as [s' r] eqn:Hrun.
    cbn [snd] in Hraise. subst r.
    apply (version3A_sync_errors efs "right_camera") in Hrun; [|done..].
    unfold fit_errors, cameras_started_before_ephys in Hrun.
    repeat (apply elem_of_cons in Hrun as [Hrun|Hrun]; [discriminate|]).
    by apply elem_of_nil in Hrun.
  - apply Qltb_ge in E. cbn [fst snd]. split; [|split]; try done.
    + split; [|done]. intros _. lra.
    + intros. lra.
Qed.

(** *** What version3A writes and returns *)

Lemma version3A_Ok_inv (ses_path : session) display linear tol s s' qc_all :
  let efs := glob_ephys_files ses_path in
  (2 <= length efs)%nat ->
  version3A lstsq lp ses_path display linear tol s = (s', Ok qc_all) ->
  exists aux d s0,
    get_sync_fronts efs aux = Ok (Some d) /\ files s0 = files s /\
    version3A_sync lstsq lp efs d display linear tol s0 = (s', Ok qc_all).
Proof.
  intros efs Hlen H.
  rewrite (version3A_run ses_path display linear tol s Hlen) in H. fold efs in H.
  destruct (get_sync_fronts efs "frame2ttl") as [[d|]|e] eqn:Hf2t; [| |done].
  - by exists "frame2ttl"%string, d, s.
  - destruct (get_sync_fronts efs "right_camera") as [[d|]|e] eqn:Hcam; [|done|done].
    destruct (Qltb _ _); [|done].
    by exists "right_camera"%string, d, (after_camera_warning s).
Qed.

(** C4, as the code has it.  After a run of [version3A] on two or more
    probes whose output files are distinct, the sync file of the reference
    probe holds the identity pair [[0, 0], [1, 1]], and its timestamps file
    holds that pair with the first column in samples, [[0, 0], [sr, 1]],
    [sr] being the sampling rate of the reference probe. *)
Theorem reference_probe_tables
    (ses_path : session) (display : display_arg) (linear : bool) (tol : Q)
    (s s' : sys) (qc_all : bool) :
  let efs := glob_ephys_files ses_path in
  (2 <= length efs)%nat ->
  NoDup (outputs efs) ->
  version3A lstsq lp ses_path display linear tol s = (s', Ok qc_all) ->
  exists iref ef_ref timestamps,
    efs !! iref = Some ef_ref /\
    first_maximum (map total_events efs) iref /\
    files s' !! file_sync ef_ref = Some [(0, 0); (1, 1)] /\
    files s' !! file_ts ef_ref = Some timestamps /\
    table_eq timestamps [(0, 0); (_get_sr ef_ref, 1)].
Proof.
  intros efs Hlen Hnd H.
  apply version3A_Ok_inv in H as (aux & d & s0 & Hd & _ & H); [|done].
  fold efs in Hd, H.
  destruct (version3A_sync_run efs aux d display linear tol s0 Hlen Hd)
    as (ef_ref & tref & s1 & Href & _ & _ & _ & _ & Hrun).
  rewrite Hrun in H. clear Hrun.
  apply version3A_loop_Ok in H as (Hfits & _).
  destruct (Hfits _ _ Href) as (tbl & qc & Hout & _ & Hfiles).
  cbn [Nat.add] in Hout. unfold probe_outcome in Hout.
  rewrite Nat.eqb_refl in Hout. injection Hout as <- <-.
  destruct (Hfiles Hnd) as [Hsync Hts].
  exists (np.argmax (nsync d)), ef_ref, (rescale (_get_sr ef_ref) identity_timestamps).
  split; [done|]. split.
  { apply get_sync_fronts_Some in Hd as (_ & Hn & _). rewrite Hn.
    apply argmax_first_maximum. destruct efs; cbn in *; [lia|done]. }
  split; [done|]. split; [done|].
  unfold rescale, identity_timestamps. cbn.
  repeat constructor; cbn; ring.
Qed.

(** The value returned by [version3A] is the conjunction of the quality
    flags of the fits of the non-reference probes. *)
Lemma version3A_returns_conjunction
    (ses_path : session) display linear tol s s' qc_all :
  let efs := glob_ephys_files ses_path in
  (2 <= length efs)%nat ->
  version3A lstsq lp ses_path display linear tol s = (s', Ok qc_all) ->
  exists aux d ef_ref tref,
    get_sync_fronts efs aux = Ok (Some d) /\
    efs !! np.argmax (nsync d) = Some ef_ref /\
    d_times d !! np.argmax (nsync d) = Some tref /\
    let m := py_min_nat (map (fun t => length t) (d_times d)) in
    (qc_all = true <->
     forall k t, k <> np.argmax (nsync d) -> d_times d !! k = Some t ->
       exists pts,
         probe_fit lstsq lp (take m t) (take m tref) (_get_sr ef_ref) linear tol
         = Ok (pts, true)).
Proof.
  intros efs Hlen H.
  apply version3A_Ok_inv in H as (aux & d & s0 & Hd & _ & H); [|done].
  fold efs in Hd, H.
  destruct (version3A_sync_run efs aux d display linear tol s0 Hlen Hd)
    as (ef_ref & tref & s1 & Href & Htref & _ & _ & _ & Hrun).
  rewrite Hrun in H. clear Hrun.
  exists aux, d, ef_ref, tref. split; [done|]. split; [done|]. split; [done|].
  intros m. subst m.
  apply version3A_loop_Ok in H as (Hfits & _ & Hall).
  pose proof Hd as Hd'. apply get_sync_fronts_Some in Hd' as (Ht & _ & _).
  split.
  - intros Hq k t Hne Hk.
    destruct (lookup_lt_is_Some_2 efs k) as [ef Hef].
    { apply lookup_lt_Some in Hk. by rewrite Ht, length_map in Hk. }
    destruct (Hfits k ef Hef) as (pts & qc & Hout & Hqc & _).
    cbn [Nat.add] in Hout.
    rewrite (probe_outcome_chopped (d_times d) _ _ linear tol k t tref Hk Htref)
      in Hout.
    apply Nat.eqb_neq in Hne. rewrite Hne in Hout.
    exists pts. by rewrite Hout, (Hqc Hq).
  - intros Hfit. apply Hall; [done|].
    intros k tbl qc Hk Hout. cbn [Nat.add] in Hout.
    destruct (lookup_lt_is_Some_2 (d_times d) k) as [t Htk].
    { by rewrite Ht, length_map. }
    rewrite (probe_outcome_chopped (d_times d) _ _ linear tol k t tref Htk Htref)
      in Hout.
    destruct (Nat.eqb_spec k (np.argmax (nsync d))) as [|Hne].
    + by injection Hout as _ <-.
    + destruct (Hfit k t Hne Htk) as [pts Hpts].
      rewrite Hpts in Hout. by injection Hout as _ <-.
Qed.

(** [sync] hands back Python's [None], whatever the synchronisation
    returned. *)
Lemma sync_returns_None (ses_path : session) (kw : kwargs) (s : sys) :
  snd (sync lstsq lp get_fronts ses_path kw s) = Ok None \/
  exists e, snd (sync lstsq lp get_fronts ses_path kw s) = Raise e.
Proof.
  unfold sync, log2session_static.
  destruct (String.eqb _ "3A").
  - unfold bind. destruct (version3A _ _ _ _ _ _ _) as [s' [b|e]]; cbn; eauto.
  - destruct (String.eqb _ "3B"); [|by left].
    unfold bind. destruct (version3B _ _ _ _ _ _ _ _) as [s' [b|e]]; cbn; eauto.
Qed.

End Properties.

(** * The properties on concrete recordings *)

(** The linear model of two streams 0.02 s/s apart fails the check at
    30 kHz: some pair is off by more than two samples. *)
Lemma verification_flags_tolerance_witness :
  0 <= 30000 /\
  sync_probe_front_times lstsq_line lp_pass ex_t ex_tref 30000
    (DisplayBool false) true 2 no_files
  = (mkSys ∅ [Error "Synchronization check exceeds tolerance of {tol} samples. Check !!" 2]
           [],
     Ok ([(0, 0 # 50); (1, 51 # 50)], false)) /\
  exists interp i ti ri,
    scipy.interp1d [0; 1] [0 # 50; 51 # 50] = Ok interp /\
    ex_t !! i = Some ti /\ ex_tref !! i = Some ri /\
    2 < Qabs (ri - interp ti) * 30000.
Proof.
  assert (H0 : 0 <= 30000) by (unfold Qle; cbn; lia).
  assert (Hrun : sync_probe_front_times lstsq_line lp_pass ex_t ex_tref 30000
                   (DisplayBool false) true 2 no_files
                 = (mkSys ∅ [Error "Synchronization check exceeds tolerance of {tol} samples. Check !!" 2]
                          [],
                    Ok ([(0, 0 # 50); (1, 51 # 50)], false)))
    by (vm_compute; reflexivity).
  split; [exact H0|]. split; [exact Hrun|].
  destruct (verification_flags_tolerance lstsq_line lp_pass _ _ _ _ _ _ _ _ _ _
              H0 Hrun) as (interp & Hi & _ & Hiff & _).
  destruct (proj1 Hiff eq_refl) as (i & ti & ri & Hti & Hri & Hlt).
  exists interp, i, ti, ri. auto.
Defined.


(** The two files of the first probe. *)
Lemma save_timestamps_npy_tables_witness :
  file_sync probe00 <> file_ts probe00 /\
  exists s' timestamps,
    _save_timestamps_npy probe00 [(0, 0 # 50); (1, 51 # 50)] 30000 no_files
      = (s', Ok tt) /\
    files s' !! file_ts probe00 = Some timestamps /\
    col0 timestamps = map (fun x => x * 30000) [0; 1] /\
    col1 timestamps = [0 # 50; 51 # 50].
Proof.
  assert (Hne : file_sync probe00 <> file_ts probe00)
    by (vm_compute; discriminate).
  split; [exact Hne|].
  destruct (save_timestamps_npy_tables probe00 [(0, 0 # 50); (1, 51 # 50)] 30000
              no_files Hne)
    as (s' & ts & Hrun & _ & Hts & Hc0 & Hc1 & _).
  exists s', ts. auto.
Defined.

(** The first control point of the float64 table, there and back. *)
Lemma apply_sync_round_trip_at_first_control_point_witness :
  let s := mkSys (<[file_sync probe00 := ex_float_table]> ∅) [] [] in
  binary64 0 == 0 /\
  binary64 (binary64 (1 # 10)) == binary64 (1 # 10) /\
  files s !! file_sync probe00 = Some ex_float_table /\
  ex_float_table !! 0%nat = Some (0, binary64 (1 # 10)) /\
  (2 <= length ex_float_table)%nat /\
  increasing (col0 ex_float_table) /\ increasing (col1 ex_float_table) /\
  first_segment_in_range binary64 ex_float_table /\
  exists y x',
    rounded.apply_sync binary64 (file_sync probe00) [0] true s = (s, Ok [y]) /\
    rounded.apply_sync binary64 (file_sync probe00) [y] false s = (s, Ok [x']) /\
    y == binary64 (1 # 10) /\ x' == 0.
Proof.
  intros s.
  assert (H0 : binary64 0 == 0) by reflexivity.
  assert (Hy : binary64 (binary64 (1 # 10)) == binary64 (1 # 10))
    by (vm_compute; reflexivity).
  assert (Hf : files s !! file_sync probe00 = Some ex_float_table)
    by (vm_compute; reflexivity).
  assert (Hfirst : ex_float_table !! 0%nat = Some (0, binary64 (1 # 10)))
    by reflexivity.
  assert (Hlen : (2 <= length ex_float_table)%nat) by (cbn; lia).
  assert (Hinc0 : increasing (col0 ex_float_table)) by (vm_compute; tauto).
  assert (Hinc1 : increasing (col1 ex_float_table)) by (vm_compute; tauto).
  assert (Hrange : first_segment_in_range binary64 ex_float_table).
  { repeat split; vm_compute; discriminate. }
  repeat (split; [assumption|]).
  exact (apply_sync_round_trip_at_first_control_point binary64 (file_sync probe00)
           ex_float_table 0 (binary64 (1 # 10)) s binary64_proper H0 H0 Hy
           Hf Hfirst Hlen Hinc0 Hinc1 Hrange).
Defined.

(** C7, as stated, fails in float64.  On the table of 0.1, 20.3 and 40.6
    at 0, 20 and 40 s, both columns strictly increasing, the control point
    40 is mapped forward to the float above 40.6 and comes back as
    [40 + 2 ^ -47], the float above 40, which Python prints as
    40.00000000000001. *)
Lemma round_trip_not_exact_at_the_last_control_point :
  let s := mkSys (<[file_sync probe00 := ex_float_table]> ∅) [] [] in
  increasing (col0 ex_float_table) /\ increasing (col1 ex_float_table) /\
  Forall (fun r => binary64 (fst r) == fst r /\ binary64 (snd r) == snd r)
         ex_float_table /\
  In 40 (col0 ex_float_table) /\
  exists y x',
    rounded.apply_sync binary64 (file_sync probe00) [40] true s = (s, Ok [y]) /\
    rounded.apply_sync binary64 (file_sync probe00) [y] false s = (s, Ok [x']) /\
    y == binary64 (406 # 10) + (1 # 140737488355328) /\
    x' == 40 + (1 # 140737488355328) /\
    ~ x' == 40.
Proof.
  intros s.
  split; [vm_compute; tauto|]. split; [vm_compute; tauto|].
  split; [repeat constructor; vm_compute; reflexivity|].
  split; [cbn; tauto|].
  eexists _, _. split; [reflexivity|]. split; [reflexivity|].
  split; [vm_compute; reflexivity|]. split; [vm_compute; reflexivity|].
  vm_compute. discriminate.
Qed.

(** ** The session with frame2ttl fronts *)

(** The fronts of the session and its reference probe. *)
Lemma reference_is_first_probe_with_most_events_witness :
  let d := mkFronts [[1; 2; 3]; [1; 2]] [4; 5]%Z in
  (2 <= length [probe00; probe01])%nat /\
  get_sync_fronts [probe00; probe01] "frame2ttl" = Ok (Some d) /\
  nsync d = map total_events [probe00; probe01] /\
  first_maximum (map total_events [probe00; probe01]) (np.argmax (nsync d)).
Proof.
  intros d.
  assert (Hlen : (2 <= length [probe00; probe01])%nat) by (cbn; lia).
  assert (Hd : get_sync_fronts [probe00; probe01] "frame2ttl" = Ok (Some d))
    by (vm_compute; reflexivity).
  split; [exact Hlen|]. split; [exact Hd|].
  exact (reference_is_first_probe_with_most_events
           [probe00; probe01] "frame2ttl" d Hlen Hd).
Defined.

(** C3, as stated, fails: the first probe has strictly the most fronts on
    the chosen channel (three against two), yet the second probe, with
    more events over all channels, is the reference. *)
Lemma reference_not_the_probe_with_most_channel_fronts :
  exists d,
    get_sync_fronts (glob_ephys_files ses_frame2ttl) "frame2ttl" = Ok (Some d) /\
    map (fun t => Z.of_nat (length t)) (d_times d) = [3; 2]%Z /\
    np.argmax (nsync d) = 1%nat /\
    ~ first_maximum (map (fun t => Z.of_nat (length t)) (d_times d))
                    (np.argmax (nsync d)).
Proof.
  exists (mkFronts [[1; 2; 3]; [1; 2]] [4; 5]%Z).
  split; [vm_compute; reflexivity|]. split; [reflexivity|]. split; [reflexivity|].
  intros (c & Hc & Hmax & _). cbn in Hc. injection Hc as <-.
  specialize (Hmax 0%nat 3%Z eq_refl). lia.
Qed.

(** The files of the reference probe after a run. *)
Lemma reference_probe_tables_witness :
  let run := version3A lstsq_line lp_pass ses_frame2ttl (DisplayBool false) true
               (21 # 10) no_files in
  (2 <= length (glob_ephys_files ses_frame2ttl))%nat /\
  NoDup (outputs (glob_ephys_files ses_frame2ttl)) /\
  run = (fst run, Ok true) /\
  exists iref ef_ref timestamps,
    glob_ephys_files ses_frame2ttl !! iref = Some ef_ref /\
    first_maximum (map total_events (glob_ephys_files ses_frame2ttl)) iref /\
    files (fst run) !! file_sync ef_ref = Some [(0, 0); (1, 1)] /\
    files (fst run) !! file_ts ef_ref = Some timestamps /\
    table_eq timestamps [(0, 0); (_get_sr ef_ref, 1)].
Proof.
  intros run.
  assert (Hlen : (2 <= length (glob_ephys_files ses_frame2ttl))%nat) by (cbn; lia).
  assert (Hnd : NoDup (outputs (glob_ephys_files ses_frame2ttl))).
  { apply (bool_decide_unpack _). vm_compute. exact I. }
  assert (Hrun : run = (fst run, Ok true)) by (vm_compute; reflexivity).
  split; [exact Hlen|]. split; [exact Hnd|]. split; [exact Hrun|].
  exact (reference_probe_tables lstsq_line lp_pass ses_frame2ttl
           (DisplayBool false) true (21 # 10) no_files (fst run) true
           Hlen Hnd Hrun).
Defined.

(** C4, as stated, fails for the timestamps table: for a reference probe
    sampled at 30 kHz it is [[0, 0], [30000, 1]]. *)
Lemma reference_timestamps_not_identity :
  let run := version3A lstsq_line lp_pass ses_frame2ttl (DisplayBool false) true
               (21 # 10) no_files in
  snd run = Ok true /\
  files (fst run) !! file_sync probe01 = Some [(0, 0); (1, 1)] /\
  exists timestamps,
    files (fst run) !! file_ts probe01 = Some timestamps /\
    ~ table_eq timestamps [(0, 0); (1, 1)].
Proof.
  intros run. split; [vm_compute; reflexivity|].
  split; [vm_compute; reflexivity|].
  exists [(0 * 30000, 0); (1 * 30000, 1)].
  split; [vm_compute; reflexivity|].
  intros H. inversion H as [|? ? ? ? _ H2]; subst.
  inversion H2 as [|? ? ? ? [Hx _] _]; subst.
  cbn in Hx. vm_compute in Hx. discriminate Hx.
Qed.



(** ** The session on the camera path *)

(** The first camera front at 0.1 s stops the run. *)
Lemma camera_fallback_start_check_witness :
  let d := mkFronts [[1 # 10; 11 # 10; 21 # 10]; [15 # 100; 115 # 100; 215 # 100]]
                    [4; 3]%Z in
  (2 <= length (glob_ephys_files ses_camera))%nat /\
  get_sync_fronts (glob_ephys_files ses_camera) "frame2ttl" = Ok None /\
  get_sync_fronts (glob_ephys_files ses_camera) "right_camera" = Ok (Some d) /\
  snd (version3A lstsq_line lp_pass ses_camera (DisplayBool false) true (21 # 10)
         no_files)
  = Raise cameras_started_before_ephys.
Proof.
  intros d.
  assert (Hlen : (2 <= length (glob_ephys_files ses_camera))%nat) by (cbn; lia).
  assert (Hf : get_sync_fronts (glob_ephys_files ses_camera) "frame2ttl" = Ok None)
    by (vm_compute; reflexivity).
  assert (Hc : get_sync_fronts (glob_ephys_files ses_camera) "right_camera"
               = Ok (Some d)) by (vm_compute; reflexivity).
  split; [exact Hlen|]. split; [exact Hf|]. split; [exact Hc|].
  destruct (camera_fallback_start_check lstsq_line lp_pass ses_camera
              (DisplayBool false) true (21 # 10) no_files d Hlen Hf Hc)
    as (Hiff & _).
  apply Hiff. vm_compute. discriminate.
Defined.

(** C6, as stated, fails: the first camera front is at 0.1 s, strictly
    positive, and the run fails with the hard error all the same. *)
Lemma camera_error_with_positive_first_time :
  let first_time := py_min [1 # 10; 15 # 100] in
  let run := version3A lstsq_line lp_pass ses_camera (DisplayBool false) true
               (21 # 10) no_files in
  get_sync_fronts (glob_ephys_files ses_camera) "frame2ttl" = Ok None /\
  get_sync_fronts (glob_ephys_files ses_camera) "right_camera"
    = Ok (Some (mkFronts [[1 # 10; 11 # 10; 21 # 10];
                          [15 # 100; 115 # 100; 215 # 100]] [4; 3]%Z)) /\
  ~ (snd run = Raise cameras_started_before_ephys <-> ~ (0 < first_time)).
Proof.
  intros first_time run.
  split; [vm_compute; reflexivity|]. split; [vm_compute; reflexivity|].
  intros [Himp _].
  apply Himp; [vm_compute; reflexivity|]. vm_compute. reflexivity.
Qed.

(** C2.  [version3A] returns the conjunction of the quality flags, here
    [True], and [sync], called on the same session, returns [None]. *)
Theorem sync_drops_the_result :
  snd (version3A lstsq_line lp_pass ses_frame2ttl (DisplayBool true) false
         (21 # 10) no_files) = Ok true /\
  snd (sync lstsq_line lp_pass fronts_of_channel ses_frame2ttl
         (mkKwargs None None None) no_files) = Ok None.
Proof. split; vm_compute; reflexivity. Qed.

(** * Further properties *)

(** ** apply_sync and the interpolant *)

(** A table of two points is one line, at every query. *)
Lemma call_linear_two_points (x0 y0 x1 y1 v : Q) :
  scipy._call_linear [(x0, y0); (x1, y1)] v
  = (y1 - y0) / (x1 - x0) * (v - x0) + y0.
Proof.
  unfold scipy._call_linear. cbn [col0 col1 map fst snd length].
  destruct (scipy.searchsorted [x0; x1] v) as [|[|n]]; reflexivity.
Qed.

Lemma length_zip_cols (x y : list Q) :
  length x = length y -> col0 (zip x y) = x /\ col1 (zip x y) = y.
Proof.
  revert y. induction x as [|a x IH]; intros [|b y] Hlen; try done.
  cbn in Hlen. destruct (IH y ltac:(lia)) as [E0 E1].
  unfold col0, col1 in *. cbn. by rewrite E0, E1.
Qed.

(** X3. [apply_sync] only reads: whatever the direction and the times, the
    state is left as it was.  Without the file it raises
    [FileNotFoundError]; on a stored table without rows [interp1d] fails
    in its reshape and on a table of one row in its check of the number of
    points, each with [ValueError]; on any stored table of at least two
    rows it returns one value per time. *)
Theorem apply_sync_reads_only
    (sync_file : Path) (times : list Q) (forward : bool) (s : sys) :
  fst (apply_sync sync_file times forward s) = s /\
  (files s !! sync_file = None ->
   snd (apply_sync sync_file times forward s)
   = Raise (FileNotFoundError (path_str sync_file))) /\
  (files s !! sync_file = Some [] ->
   snd (apply_sync sync_file times forward s)
   = Raise (ValueError "cannot reshape array of size 0 into shape (0,newaxis)")) /\
  (forall row, files s !! sync_file = Some [row] ->
     snd (apply_sync sync_file times forward s)
     = Raise (ValueError "x and y arrays must have at least 2 entries")) /\
  (forall sync_points, files s !! sync_file = Some sync_points ->
     (2 <= length sync_points)%nat ->
     exists out, snd (apply_sync sync_file times forward s) = Ok out /\
                 length out = length times).
Proof.
  unfold apply_sync, bind, np_load, lift, ret.
  destruct (files s !! sync_file) as [pts|] eqn:Hf; cbn.
  - assert (length (col0 pts) = length pts) as E0 by apply length_map.
    assert (length (col1 pts) = length pts) as E1 by apply length_map.
    split; [|split; [done|split; [|split]]].
    + by destruct forward; destruct (scipy.interp1d _ _).
    + intros [= ->]. by destruct forward.
    + intros row [= ->]. by destruct forward.
    + intros ? [= <-] Hlen.
      unfold scipy.interp1d. rewrite E0, E1, Nat.eqb_refl. cbn [negb].
      destruct (Nat.eqb_spec (length pts) 0); [lia|].
      destruct (Nat.ltb_spec (length pts) 2); [lia|].
      destruct forward; cbn; eexists; split; try reflexivity; apply length_map.
  - split; [done|]. split; [done|]. split; [done|]. split; by intros.
Qed.

(** ** Arrays, the monad and the padding of the smoothed fit *)

Lemma increasing_map_seq (f : nat -> Q) (n : nat) : forall a,
  (forall i, f i < f (S i)) -> increasing (map f (seq a n)).
Proof.
  induction n as [|n IH]; intros a Hf; [done|].
  cbn [seq map]. destruct n as [|n]; [done|].
  cbn [seq map]. split; [apply Hf|]. apply (IH (S a) Hf).
Qed.

Lemma arange_increasing (start stop step : Q) :
  0 < step -> increasing (np.arange start stop step).
Proof.
  intros Hstep. unfold np.arange. apply increasing_map_seq. intros i.
  rewrite inject_Z_S. lra.
Qed.

Lemma arange_lookup (start stop step : Q) (i : nat) (x : Q) :
  np.arange start stop step !! i = Some x ->
  x = start + inject_Z (Z.of_nat i) * step.
Proof.
  unfold np.arange. rewrite map_fmap. intros H.
  apply list_lookup_fmap_Some in H as (k & -> & Hk).
  apply lookup_seq in Hk as [-> _]. done.
Qed.

Lemma arange_empty (start stop step : Q) :
  0 < step -> stop <= start -> np.arange start stop step = [].
Proof.
  intros Hstep Hle. unfold np.arange.
  assert (Qceiling ((stop - start) / step) <= 0)%Z as Hc.
  { change 0%Z with (Qceiling 0). apply Qceiling_resp_le.
    apply Qle_shift_div_r; lra. }
  destruct (Qceiling ((stop - start) / step)) eqn:E; cbn; try done; lia.
Qed.

Lemma quiet_lift {A} (r : res A) : quiet (lift r).
Proof. intros s. exists [], r. unfold lift. destruct s; cbn. by rewrite app_nil_r. Qed.

Lemma quiet_ret {A} (a : A) : quiet (ret a).
Proof. intros s. exists [], (Ok a). unfold ret. destruct s; cbn. by rewrite app_nil_r. Qed.

Lemma quiet_draws (m : M unit) : draws m -> quiet m.
Proof. intros H s. destruct (H s) as [pl E]. by exists pl, (Ok tt). Qed.

Lemma quiet_bind {A B} (m : M A) (k : A -> M B) :
  quiet m -> (forall a, quiet (k a)) -> quiet (bind m k).
Proof.
  intros Hm Hk s. destruct (Hm s) as (pl & r & E). unfold bind. rewrite E.
  destruct r as [a|e].
  - destruct (Hk a (mkSys (files s) (logs s) (plots s ++ pl))) as (pl' & r' & E').
    exists (pl ++ pl'), r'. rewrite E'. cbn. by rewrite app_assoc.
  - by exists pl, (Raise e).
Qed.

Lemma bind_Raise {A B} (m : M A) (k : A -> M B) s s' e :
  m s = (s', Raise e) -> bind m k s = (s', Raise e).
Proof. unfold bind. by intros ->. Qed.

Lemma bind_lift_Ok {A B} (a : A) (k : A -> M B) s : bind (lift (Ok a)) k s = k a s.
Proof. reflexivity. Qed.

Lemma bind_lift_Raise {A B} e (k : A -> M B) s :
  bind (lift (Raise e)) k s = (s, Raise e).
Proof. reflexivity. Qed.

Lemma interp_nothing (xp fp : list Q) :
  length xp <> 0%nat -> length xp = length fp -> np.interp [] xp fp = Ok [].
Proof.
  intros Hne Hlen. unfold np.interp.
  destruct (Nat.eqb_spec (length xp) 0); [done|].
  destruct (Nat.eqb_spec (length xp) (length fp)); done.
Qed.

Lemma pad_median_nothing (before after stat_length : nat) :
  (0 < before)%nat ->
  np.pad_median [] before after stat_length
  = Raise (ValueError
      "can't extend empty axis 0 using modes other than 'constant' or 'empty'").
Proof.
  intros H. unfold np.pad_median. destruct before; [lia|done].
Qed.

(** The padding of lines 176-178 is never empty: the next power of two
    leaves at least the 60 s of [PAD_LENGTH_SECS]. *)
Lemma lpad_positive (n : nat) :
  (0 < Z.to_nat
         ((2 ^ Z.log2_up (Z.of_nat (n + 300 * 60)) - Z.of_nat n) / 2 +
          (2 ^ Z.log2_up (Z.of_nat (n + 300 * 60)) - Z.of_nat n) mod 2))%nat.
Proof.
  pose proof (Z.log2_up_spec (Z.of_nat (n + 300 * 60)) ltac:(lia)) as [_ H].
  set (p := (2 ^ Z.log2_up (Z.of_nat (n + 300 * 60)))%Z) in *.
  assert (18000 <= p - Z.of_nat n)%Z as Hl by lia.
  pose proof (Z.div_mod (p - Z.of_nat n) 2 ltac:(lia)).
  pose proof (Z.mod_pos_bound (p - Z.of_nat n) 2 ltac:(lia)).
  lia.
Qed.

(** ** sync_probe_front_times *)

Section FitProperties.

Variable lstsq : list Q -> list Q -> Q * Q.
Variable lp : list Q -> Q -> Q * Q -> list Q.
Variable get_fronts : Sync -> Z -> list Q.

(** *** What it accepts and what it returns *)

Lemma fit_sync_points_Ok_cases t tref sr display linear s s1 pts :
  fit_sync_points lstsq lp t tref sr display linear s = (s1, Ok pts) ->
  exists pol, polyfit lstsq t tref = Ok pol /\
    (if linear then pts = np.c_ [0; 1] (np.polyval pol [0; 1])
     else let tout := np.arange 0 (np.max tref + 20) 20 in
          exists smoothed, length smoothed = length tout /\
            pts = np.c_ tout (np.add (np.polyval pol tout) smoothed)).
Proof.
  unfold fit_sync_points. intros H.
  apply bind_Ok_inv in H as (pol & s0 & Hpol & H).
  apply lift_inv in Hpol as [-> Hpol]. exists pol. split; [done|].
  destruct linear; cbn [negb] in H.
  - apply bind_Ok_inv in H as (? & ? & _ & H). by injection H as _ <-.
  - apply bind_Ok_inv in H as (res_upsamp & s2 & _ & H).
    apply bind_Ok_inv in H as (res_filt & s3 & _ & H).
    apply bind_Ok_inv in H as (smoothed & s4 & Hsm & H).
    apply bind_Ok_inv in H as (? & ? & _ & H). injection H as _ <-.
    apply lift_inv in Hsm as [_ Hsm]. exists smoothed. split; [|done].
    unfold np.interp in Hsm. repeat case_match; try discriminate.
    injection Hsm as ->. by rewrite length_map.
Qed.

(** X4. [sync_probe_front_times] raises [TypeError] exactly when the
    streams are empty or of different lengths, and it has then neither
    logged nor drawn anything. *)
Theorem sync_probe_front_times_type_error
    (t tref : list Q) (sr : Q) (display : display_arg) (linear : bool)
    (tol : Q) (s : sys) :
  let run := sync_probe_front_times lstsq lp t tref sr display linear tol s in
  ((exists msg, snd run = Raise (TypeError msg)) <->
   (length t = 0%nat \/ length t <> length tref)) /\
  (length t = 0%nat \/ length t <> length tref -> fst run = s).
Proof.
  intros run. subst run.
  destruct (decide (length t = 0%nat \/ length t <> length tref)) as [Hbad|Hok].
  - assert (exists msg, polyfit lstsq t tref = Raise (TypeError msg)) as [msg Hp].
    { unfold polyfit. destruct (Nat.eqb_spec (length t) 0); [by eexists|].
      destruct (Nat.eqb_spec (length t) (length tref)); [tauto|by eexists]. }
    unfold sync_probe_front_times, fit_sync_points, bind, lift. rewrite Hp. cbn.
    split; [|done]. split; [done|]. by exists msg.
  - split; [|tauto]. split; [|tauto]. intros [msg Hraise]. exfalso.
    destruct (sync_probe_front_times _ _ _ _ _ _ _ _ _) as [s' r] eqn:H.
    cbn in Hraise. subst r.
    assert (exists pol, polyfit lstsq t tref = Ok pol) as [pol Hp].
    { rewrite polyfit_Ok; [by eexists|lia..]. }
    unfold sync_probe_front_times in H.
    apply bind_Raise_inv in H as [H|(pts & s1 & _ & H)].
    + unfold fit_sync_points in H.
      apply bind_Raise_inv in H as [H|(? & s0 & Hpol & H)].
      { apply lift_inv in H as [_ H]. congruence. }
      destruct linear; cbn [negb] in H.
      * apply bind_Raise_inv in H as [H|(? & ? & _ & H)]; [|done].
        revert H. apply draws_no_raise. destruct (truthy display); solve_draws.
      * apply bind_Raise_inv in H as [H|(res_upsamp & s2 & _ & H)].
        { apply lift_inv in H as [_ H]. symmetry in H.
          unfold np.interp in H. repeat case_match; discriminate. }
        apply bind_Raise_inv in H as [H|(res_filt & s3 & _ & H)].
        { apply lift_inv in H as [_ H]. symmetry in H.
          unfold np.pad_median in H. repeat case_match; discriminate. }
        apply bind_Raise_inv in H as [H|(smoothed & s4 & _ & H)].
        { apply lift_inv in H as [_ H]. symmetry in H.
          unfold np.interp in H. repeat case_match; discriminate. }
        apply bind_Raise_inv in H as [H|(? & ? & _ & H)]; [|done].
        revert H. apply draws_no_raise.
        destruct display as [[]|]; cbn [truthy]; solve_draws.
    + apply bind_Raise_inv in H as [H|(fcn & s2 & _ & H)].
      { apply lift_inv in H as [_ H]. symmetry in H.
        unfold scipy.interp1d in H. repeat case_match; discriminate. }
      destruct (exceeds_tol _ _ _ _ _); [|done].
      apply bind_Raise_inv in H as [H|(? & ? & _ & H)]; done.
Qed.

Lemma fit_sync_points_quiet t tref sr display linear :
  quiet (fit_sync_points lstsq lp t tref sr display linear).
Proof.
  unfold fit_sync_points.
  apply quiet_bind; [apply quiet_lift|intros pol].
  destruct linear; cbn [negb].
  - apply quiet_bind; [|intros; apply quiet_ret].
    apply quiet_draws. destruct (truthy display); solve_draws.
  - apply quiet_bind; [apply quiet_lift|intros res_upsamp].
    apply quiet_bind; [apply quiet_lift|intros res_filt].
    apply quiet_bind; [apply quiet_lift|intros smoothed].
    apply quiet_bind; [|intros; apply quiet_ret].
    apply quiet_draws. destruct display as [[]|]; cbn [truthy]; solve_draws.
Qed.

Lemma fit_sync_points_any_state t tref sr display display' linear s s1 s2 pts :
  fit_sync_points lstsq lp t tref sr display linear s = (s1, Ok pts) ->
  exists pl, fit_sync_points lstsq lp t tref sr display' linear s2
    = (mkSys (files s2) (logs s2) (plots s2 ++ pl), Ok pts).
Proof.
  intros H.
  destruct (fit_sync_points_alike lstsq lp t tref sr display display' linear s s2)
    as (r & lg & pl1 & pl2 & E1 & E2).
  destruct (fit_sync_points_quiet t tref sr display' linear s2) as (pl & r' & E).
  exists pl. rewrite E. congruence.
Qed.

(** X5. A verification passed at one tolerance is passed at every larger
    one, with the same control points and without a log record, whatever
    the [display] argument: the tolerance only decides the flag. *)
Theorem verification_monotone_in_tolerance
    (t tref : list Q) (sr : Q) (display display' : display_arg)
    (linear : bool) (tol tol' : Q) (s s' s2 : sys) (pts : table) :
  tol <= tol' ->
  sync_probe_front_times lstsq lp t tref sr display linear tol s
    = (s', Ok (pts, true)) ->
  exists s2',
    sync_probe_front_times lstsq lp t tref sr display' linear tol' s2
      = (s2', Ok (pts, true)) /\ logs s2' = logs s2 /\ files s2' = files s2.
Proof.
  intros Htol H.
  apply sync_probe_front_times_Ok_inv in H
    as (s1 & fcn & Hfit & Hfcn & Hqc & _).
  assert (exceeds_tol fcn t tref sr tol' = false) as Hok.
  { destruct (exceeds_tol fcn t tref sr tol') eqn:E; [|done].
    apply exceeds_tol_true in E as (i & ti & ri & Hti & Hri & Hlt).
    assert (exceeds_tol fcn t tref sr tol = true) as E'.
    { apply exceeds_tol_true. exists i, ti, ri. repeat split; try done. lra. }
    rewrite E' in Hqc. done. }
  destruct (fit_sync_points_any_state _ _ _ _ display' _ _ _ s2 _ Hfit) as [pl Hfit'].
  eexists. unfold sync_probe_front_times, bind, lift, ret.
  rewrite Hfit', Hfcn, Hok. done.
Qed.

(** X6. The control points that [sync_probe_front_times] returns sit on a
    fixed grid of probe times: 0 s and 1 s in linear mode, every 20 s from
    0 in smoothed mode.  There are at least two of them and their probe
    times increase strictly, so the table is one [interp1d] accepts. *)
Theorem sync_points_grid
    (t tref : list Q) (sr : Q) (display : display_arg) (linear : bool)
    (tol : Q) (s s' : sys) (pts : table) (qc : bool) :
  sync_probe_front_times lstsq lp t tref sr display linear tol s
    = (s', Ok (pts, qc)) ->
  (2 <= length pts)%nat /\
  increasing (col0 pts) /\
  (forall i x, col0 pts !! i = Some x ->
     x == inject_Z (Z.of_nat i) * (if linear then 1 else 20)) /\
  (linear = true -> length pts = 2%nat) /\
  scipy.interp1d (col0 pts) (col1 pts) = Ok (scipy._call_linear pts).
Proof.
  intros H. pose proof (sync_points_at_least_two _ _ _ _ _ _ _ _ _ _ _ _ H) as Hlen.
  apply sync_probe_front_times_Ok_inv in H as (s1 & fcn & Hfit & _).
  apply fit_sync_points_Ok_cases in Hfit as (pol & Hpol & Hpts).
  assert (increasing (col0 pts) /\
          (forall i x, col0 pts !! i = Some x ->
             x == inject_Z (Z.of_nat i) * (if linear then 1 else 20)) /\
          (linear = true -> length pts = 2%nat)) as (Hinc & Hgrid & Htwo).
  { destruct linear.
    - subst pts. cbn. split; [split; [reflexivity|done]|]. split; [|done].
      intros [|[|i]] x [=]; subst x; reflexivity.
    - cbv zeta in Hpts. destruct Hpts as (smoothed & Hsm & ->).
      unfold np.c_. destruct (length_zip_cols
        (np.arange 0 (np.max tref + 20) 20)
        (np.add (np.polyval pol (np.arange 0 (np.max tref + 20) 20)) smoothed))
        as [-> _].
      { unfold np.add, np.polyval. rewrite length_zip_with, length_map. lia. }
      split; [by apply arange_increasing|]. split; [|done].
      intros i x Hx. apply arange_lookup in Hx as ->. ring. }
  repeat split; try done. by apply interp1d_Ok.
Qed.

Lemma length_residual (pol t tref : list Q) :
  length t = length tref -> length (np.sub tref (np.polyval pol t)) = length tref.
Proof.
  intros E. unfold np.sub, np.polyval. rewrite length_zip_with, length_map. lia.
Qed.

(** X7. In smoothed mode the reference fronts must span some time: when
    the last reference front is not later than the first (a single front,
    for one), nothing can be upsampled and the run stops in [np.pad] with
    a [ValueError], before anything is drawn or logged. *)
Theorem smoothed_fit_needs_a_time_span
    (t tref : list Q) (sr : Q) (display : display_arg) (tol : Q) (s : sys) :
  (0 < length t)%nat -> length t = length tref ->
  List.last tref 0 <= hd 0 tref ->
  sync_probe_front_times lstsq lp t tref sr display false tol s
  = (s, Raise (ValueError
      "can't extend empty axis 0 using modes other than 'constant' or 'empty'")).
Proof.
  intros Hpos Hlen Hspan.
  unfold sync_probe_front_times. apply bind_Raise.
  unfold fit_sync_points. rewrite polyfit_Ok by done.
  rewrite bind_lift_Ok. cbn [negb]. cbv zeta.
  rewrite arange_empty; [|reflexivity|done].
  rewrite interp_nothing; [|lia|by rewrite length_residual].
  rewrite bind_lift_Ok.
  rewrite pad_median_nothing by apply lpad_positive.
  reflexivity.
Qed.

Lemma linear_sync_points t tref sr display s s1 pts :
  fit_sync_points lstsq lp t tref sr display true s = (s1, Ok pts) ->
  pts = [(0, np.polyval1 [fst (lstsq t tref); snd (lstsq t tref)] 0);
         (1, np.polyval1 [fst (lstsq t tref); snd (lstsq t tref)] 1)].
Proof.
  intros H. apply fit_sync_points_Ok_cases in H as (pol & Hpol & ->).
  apply polyfit_Ok_inv in Hpol as (_ & _ & ->). reflexivity.
Qed.

End FitProperties.

(** ** get_sync_fronts on well-formed recordings *)

Lemma select_nil_all_not {A} (a : list A) (mask : list bool) :
  length a = length mask -> (np.select a mask = [] <-> np.all_not mask = true).
Proof.
  revert mask. induction a as [|v a IH]; intros [|b mask] Hlen; try done.
  cbn in Hlen. cbn. destruct b; cbn.
  - split; discriminate.
  - apply IH. lia.
Qed.

Lemma length_in1d (a : list Z) (v : Z) : length (np.in1d a v) = length a.
Proof. unfold np.in1d. apply length_map. Qed.

Lemma get_sync_fronts_from_all aux (efs : list ephys_file) :
  forall ind d,
    Forall well_formed efs ->
    Forall (fun ef => channel_fronts aux ef <> []) efs ->
    get_sync_fronts_from aux ind efs d
    = Ok (Some (mkFronts
        (d_times d ++ map (channel_fronts aux) efs)
        (fold_left (fun ns p => <[fst p := total_events (snd p)]> ns)
                   (zip (seq ind (length efs)) efs) (nsync d)))).
Proof.
  induction efs as [|ef efs IH]; intros ind d Hwf Hall.
  - cbn. rewrite app_nil_r. by destruct d.
  - apply Forall_cons in Hwf as [Hef Hwf]. apply Forall_cons in Hall as [Hcf Hall].
    cbn [get_sync_fronts_from]. unfold channel_fronts in Hcf.
    destruct (sync_map ef !! aux) as [channel|] eqn:Hc; [|done].
    assert (length (times (spikeglx_sync ef))
            = length (np.in1d (channels (spikeglx_sync ef)) channel)) as Hlen.
    { rewrite length_in1d. by symmetry. }
    destruct (np.all_not _) eqn:Hnone.
    { by apply (proj2 (select_nil_all_not _ _ Hlen)) in Hnone. }
    unfold np.getitem_mask. rewrite Hlen, Nat.eqb_refl. cbn [res_bind].
    rewrite IH by done. cbn [d_times nsync length seq zip zip_with fold_left fst snd map].
    unfold channel_fronts at 2. rewrite Hc. by rewrite <- app_assoc.
Qed.

Lemma get_sync_fronts_from_none aux (efs : list ephys_file) :
  forall ind d,
    Forall well_formed efs ->
    Exists (fun ef => channel_fronts aux ef = []) efs ->
    get_sync_fronts_from aux ind efs d = Ok None.
Proof.
  induction efs as [|ef efs IH]; intros ind d Hwf Hex.
  - by apply Exists_nil in Hex.
  - apply Forall_cons in Hwf as [Hef Hwf].
    cbn [get_sync_fronts_from].
    destruct (sync_map ef !! aux) as [channel|] eqn:Hc; [|done].
    assert (length (times (spikeglx_sync ef))
            = length (np.in1d (channels (spikeglx_sync ef)) channel)) as Hlen.
    { rewrite length_in1d. by symmetry. }
    destruct (np.all_not _) eqn:Hnone; [done|].
    unfold np.getitem_mask. rewrite Hlen, Nat.eqb_refl. cbn [res_bind].
    apply IH; [done|]. apply Exists_cons in Hex as [Hcf|Hex]; [|done].
    unfold channel_fronts in Hcf. rewrite Hc in Hcf.
    apply (proj1 (select_nil_all_not _ _ Hlen)) in Hcf. congruence.
Qed.

Lemma get_sync_fronts_all (efs : list ephys_file) aux :
  Forall well_formed efs ->
  Forall (fun ef => channel_fronts aux ef <> []) efs ->
  get_sync_fronts efs aux
  = Ok (Some (mkFronts (map (channel_fronts aux) efs) (map total_events efs))).
Proof.
  intros Hwf Hall. unfold get_sync_fronts.
  pose proof (get_sync_fronts_from_all aux efs 0
                (mkFronts [] (replicate (length efs) 0%Z)) Hwf Hall) as H.
  destruct (get_sync_fronts_from_Some aux efs 0 _ _ H) as (Ht & Hn & _).
  { cbn. rewrite length_replicate. lia. }
  rewrite H. cbn [d_times nsync app] in *. rewrite Hn. cbn [take app].
  rewrite drop_ge by (rewrite length_replicate; lia). by rewrite app_nil_r.
Qed.

Lemma get_sync_fronts_none (efs : list ephys_file) aux :
  Forall well_formed efs ->
  Exists (fun ef => channel_fronts aux ef = []) efs ->
  get_sync_fronts efs aux = Ok None.
Proof. intros. unfold get_sync_fronts. by apply get_sync_fronts_from_none. Qed.

(** X9. [get_sync_fronts] is all or nothing.  On recordings whose event
    arrays have one length, it returns the fronts of the named channel for
    every probe, with every probe's total event count, when each probe has
    at least one front on that channel; as soon as one probe has none (or
    no such channel in its map) it returns [None]. *)
Theorem get_sync_fronts_all_or_nothing
    (ephys_files : list ephys_file) (auxiliary_name : string) :
  Forall well_formed ephys_files ->
  (Forall (fun ef => channel_fronts auxiliary_name ef <> []) ephys_files ->
   get_sync_fronts ephys_files auxiliary_name
   = Ok (Some (mkFronts (map (channel_fronts auxiliary_name) ephys_files)
                        (map total_events ephys_files)))) /\
  (Exists (fun ef => channel_fronts auxiliary_name ef = []) ephys_files ->
   get_sync_fronts ephys_files auxiliary_name = Ok None).
Proof.
  intros Hwf. split; intros H.
  - by apply get_sync_fronts_all.
  - by apply get_sync_fronts_none.
Qed.

Lemma fold_left_min_ge (l : list nat) (b : nat) : forall x,
  (b <= x)%nat -> Forall (fun n => (b <= n)%nat) l -> (b <= fold_left Nat.min l x)%nat.
Proof.
  induction l as [|y l IH]; intros x Hx Hall; cbn; [done|].
  apply Forall_cons in Hall as [Hy Hall]. apply IH; [lia|done].
Qed.

Lemma py_min_nat_ge (l : list nat) (b : nat) :
  l <> [] -> Forall (fun n => (b <= n)%nat) l -> (b <= py_min_nat l)%nat.
Proof.
  destruct l as [|x l]; [done|]. intros _ Hall.
  apply Forall_cons in Hall as [Hx Hall]. cbn. by apply fold_left_min_ge.
Qed.

Lemma call_linear_identity (v : Q) : scipy._call_linear identity_timestamps v == v.
Proof. unfold identity_timestamps. rewrite call_linear_two_points. field. Qed.

Lemma apply_sync_forward_run (sync_file : Path) (pts : table) (times : list Q)
    (s : sys) :
  files s !! sync_file = Some pts ->
  (2 <= length pts)%nat -> increasing (col0 pts) ->
  apply_sync sync_file times true s = (s, Ok (map (scipy._call_linear pts) times)).
Proof.
  intros Hf Hlen H0. unfold apply_sync, bind, np_load, lift, ret. rewrite Hf.
  by rewrite interp1d_Ok.
Qed.

(** ** The runs over a session *)

Section RunProperties.

Variable lstsq : list Q -> list Q -> Q * Q.
Variable lp : list Q -> Q -> Q * Q -> list Q.
Variable get_fronts : Sync -> Z -> list Q.

(** *** version3A as a whole *)

Lemma fit_sync_points_increasing t tref sr display linear s s1 pts :
  fit_sync_points lstsq lp t tref sr display linear s = (s1, Ok pts) ->
  increasing (col0 pts).
Proof.
  intros Hfit. apply fit_sync_points_Ok_cases in Hfit as (pol & Hpol & Hpts).
  destruct linear.
  - subst pts. cbn. split; [reflexivity|done].
  - cbv zeta in Hpts. destruct Hpts as (smoothed & Hsm & ->).
    unfold np.c_. destruct (length_zip_cols
      (np.arange 0 (np.max tref + 20) 20)
      (np.add (np.polyval pol (np.arange 0 (np.max tref + 20) 20)) smoothed))
      as [-> _].
    { unfold np.add, np.polyval. rewrite length_zip_with, length_map. lia. }
    by apply arange_increasing.
Qed.

Lemma probe_fit_run t tref sr linear tol pts qc :
  probe_fit lstsq lp t tref sr linear tol = Ok (pts, qc) ->
  exists s1, sync_probe_front_times lstsq lp t tref sr (DisplayBool false)
               linear tol (mkSys ∅ [] []) = (s1, Ok (pts, qc)).
Proof.
  unfold probe_fit.
  destruct (sync_probe_front_times _ _ _ _ _ _ _ _ _) as [s1 r]. cbn.
  intros ->. by exists s1.
Qed.

Lemma probe_fit_linear_Ok (t tref : list Q) sr tol :
  (0 < length t)%nat -> length t = length tref ->
  exists pts qc, probe_fit lstsq lp t tref sr true tol = Ok (pts, qc).
Proof.
  intros Hpos Hlen.
  unfold probe_fit, sync_probe_front_times, fit_sync_points, bind, lift.
  rewrite polyfit_Ok by done. cbn [negb truthy]. unfold ret.
  set (pts := np.c_ [0; 1] _).
  assert (exists fcn, scipy.interp1d (col0 pts) (col1 pts) = Ok fcn) as [fcn ->]
    by (eexists; reflexivity).
  destruct (exceeds_tol fcn t tref sr tol); unfold logger_error; cbn; by eexists _, _.
Qed.

Lemma version3A_loop_completes dt iref sr display linear tol (efs : list ephys_file) :
  forall ind qc0 s,
    (forall k, (k < length efs)%nat ->
       exists r, probe_outcome lstsq lp dt iref sr linear tol (ind + k) = Ok r) ->
    exists s' qc_all,
      version3A_loop lstsq lp dt iref sr display linear tol ind efs qc0 s
      = (s', Ok qc_all).
Proof.
  induction efs as [|ef efs IH]; intros ind qc0 s Hall.
  - by exists s, qc0.
  - destruct (version3A_loop_cons lstsq lp dt iref sr display linear tol
                ind ef efs qc0 s) as (lg & pl & ->).
    destruct (Hall 0%nat) as [r Hr]; [cbn; lia|].
    rewrite Nat.add_0_r in Hr. rewrite Hr.
    apply IH. intros k Hk. destruct (Hall (S k)) as [r' Hr']; [cbn; lia|].
    exists r'. rewrite <- Hr'. f_equal. lia.
Qed.

Lemma version3A_sync_frame (efs : list ephys_file) aux d display linear tol s s' r :
  (2 <= length efs)%nat ->
  get_sync_fronts efs aux = Ok (Some d) ->
  version3A_sync lstsq lp efs d display linear tol s = (s', r) ->
  (forall f, f ∉ outputs efs -> files s' !! f = files s !! f) /\
  exists lg, logs s' = logs s ++ lg.
Proof.
  intros Hlen Hd H.
  destruct (version3A_sync_run lstsq lp efs aux d display linear tol s Hlen Hd)
    as (ef_ref & tref & s0 & _ & _ & Hf0 & _ & Hl0 & E).
  rewrite E in H. split.
  - intros f Hf. rewrite <- Hf0. by eapply version3A_loop_frame.
  - apply version3A_loop_logs in H as [lg Hlg]. rewrite Hlg, Hl0.
    rewrite <- app_assoc. by eexists.
Qed.

(** X10. [version3A] writes nowhere but to the sync and timestamps files
    of the session's probes, whether it completes or raises, and it only
    appends to the log. *)
Theorem version3A_touches_only_its_outputs
    (ses_path : session) (display : display_arg) (linear : bool) (tol : Q)
    (s s' : sys) (r : res bool) :
  version3A lstsq lp ses_path display linear tol s = (s', r) ->
  (forall f, f ∉ outputs (glob_ephys_files ses_path) ->
     files s' !! f = files s !! f) /\
  exists lg, logs s' = logs s ++ lg.
Proof.
  intros H.
  destruct (Nat.leb_spec (length (glob_ephys_files ses_path)) 1) as [Hle|Hlt].
  - unfold version3A in H.
    destruct (Nat.leb_spec (length (glob_ephys_files ses_path)) 1); [|lia].
    injection H as <- <-. cbn. split; [done|]. by eexists.
  - rewrite version3A_run in H by lia.
    destruct (get_sync_fronts (glob_ephys_files ses_path) "frame2ttl")
      as [[d|]|e] eqn:Hd.
    + eapply version3A_sync_frame; [|exact Hd|exact H]. lia.
    + assert (forall s0 : sys, s0 = after_camera_warning s ->
                files s0 = files s /\ exists lg, logs s0 = logs s ++ lg) as Hw.
      { intros s0 ->. split; [done|]. by eexists. }
      destruct (get_sync_fronts (glob_ephys_files ses_path) "right_camera")
        as [[d|]|e] eqn:Hd'.
      * destruct (Qltb _ _).
        -- eapply version3A_sync_frame in H as [Hf [lg Hlg]]; [|lia|exact Hd'].
           split; [done|]. rewrite Hlg. cbn. rewrite <- app_assoc. by eexists.
        -- injection H as <- <-. split; [done|]. by eexists.
      * injection H as <- <-. split; [done|]. by eexists.
      * injection H as <- <-. split; [done|]. by eexists.
    + injection H as <- <-. split; [done|]. exists []. by rewrite app_nil_r.
Qed.

(** X11. Without a sync channel there is no sync, and no clean error
    either: when some probe has no front on [frame2ttl] and some probe has
    none on [right_camera], [version3A] logs the camera warning and
    fails on the missing result of [get_sync_fronts] with a [TypeError],
    before any file is written. *)
Theorem version3A_without_sync_channel
    (ses_path : session) (display : display_arg) (linear : bool) (tol : Q)
    (s : sys) :
  let efs := glob_ephys_files ses_path in
  (2 <= length efs)%nat ->
  Forall well_formed efs ->
  Exists (fun ef => channel_fronts "frame2ttl" ef = []) efs ->
  Exists (fun ef => channel_fronts "right_camera" ef = []) efs ->
  version3A lstsq lp ses_path display linear tol s
  = (after_camera_warning s,
     Raise (TypeError "'NoneType' object is not subscriptable")).
Proof.
  intros efs Hlen Hwf Hf Hc. rewrite version3A_run by done. fold efs.
  by rewrite !get_sync_fronts_none.
Qed.

(** X12. In linear mode a session with fronts of [frame2ttl] on every
    probe always synchronises: [version3A] returns a flag, and every
    probe's sync file then holds a table of two rows. *)
Theorem version3A_linear_completes
    (ses_path : session) (display : display_arg) (tol : Q) (s : sys) :
  let efs := glob_ephys_files ses_path in
  (2 <= length efs)%nat ->
  Forall well_formed efs ->
  Forall (fun ef => channel_fronts "frame2ttl" ef <> []) efs ->
  exists s' qc_all,
    version3A lstsq lp ses_path display true tol s = (s', Ok qc_all) /\
    (NoDup (outputs efs) ->
     forall ef, ef ∈ efs ->
       exists tbl, files s' !! file_sync ef = Some tbl /\ length tbl = 2%nat).
Proof.
  intros efs Hlen Hwf Hall. rewrite version3A_run by done. fold efs.
  pose proof (get_sync_fronts_all efs "frame2ttl" Hwf Hall) as Hd.
  rewrite Hd.
  set (d := mkFronts _ _) in *.
  destruct (version3A_sync_run lstsq lp efs "frame2ttl" d display true tol s Hlen Hd)
    as (ef_ref & tref & s0 & Href & Htref & _ & _ & _ & E).
  rewrite E.
  set (streams := d_times d) in *.
  set (m := py_min_nat (map (fun t => length t) streams)) in *.
  assert (forall k, (k < length efs)%nat ->
    exists r, probe_outcome lstsq lp
                (np.transpose m (map (fun t => take m t) streams))
                (np.argmax (nsync d)) (_get_sr ef_ref) true tol k = Ok r /\
              length (fst r) = 2%nat) as Hout.
  { intros k Hk.
    assert (exists t, streams !! k = Some t) as [t Ht].
    { apply lookup_lt_is_Some. subst streams d. cbn. by rewrite length_map. }
    subst m. rewrite (probe_outcome_chopped lstsq lp streams _ _ _ _ k t tref Ht Htref).
    destruct (k =? np.argmax (nsync d))%nat; [by eexists|].
    destruct (column_chopped streams k t Ht) as [_ Hmt].
    destruct (column_chopped streams _ tref Htref) as [_ Hmr].
    cbv zeta in Hmt, Hmr.
    set (m := py_min_nat (map (fun t => length t) streams)) in *.
    assert (1 <= m)%nat as Hm.
    { subst m. apply py_min_nat_ge.
      - subst streams d. cbn. destruct efs; cbn in *; [lia|done].
      - subst streams d. cbn. rewrite !Forall_map. eapply Forall_impl; [exact Hall|].
        intros ef Hef. cbn. destruct (channel_fronts "frame2ttl" ef) eqn:Ecf;
          [congruence|cbn; lia]. }
    destruct (probe_fit_linear_Ok (take m t) (take m tref) (_get_sr ef_ref) tol)
      as (pts & qc & Hfit); [lia|lia|].
    exists (pts, qc). split; [done|].
    apply probe_fit_run in Hfit as [s1 Hfit].
    apply sync_probe_front_times_Ok_inv in Hfit as (? & ? & Hfit & _).
    apply linear_sync_points in Hfit. cbn. by rewrite Hfit. }
  destruct (version3A_loop_completes
              (np.transpose m (map (fun t => take m t) streams))
              (np.argmax (nsync d)) (_get_sr ef_ref) display true tol efs 0 true s0)
    as (s' & qc_all & Hrun).
  { intros k Hk. destruct (Hout k Hk) as (r & Hr & _). by exists r. }
  exists s', qc_all. split; [done|]. intros Hnd ef Hef.
  apply list_elem_of_lookup in Hef as [k Hk].
  apply version3A_loop_Ok in Hrun as (Hall' & _).
  destruct (Hall' k ef Hk) as (tbl & qc & Htbl & _ & Hfiles).
  destruct (Hfiles Hnd) as [Hsync _]. exists tbl. split; [done|].
  destruct (Hout k) as (r & Hr & Hlen2); [by eapply lookup_lt_Some|].
  change (0 + k)%nat with k in Htbl. rewrite Hr in Htbl. injection Htbl as ->. done.
Qed.

(** X13. What [version3A] leaves is what [apply_sync] expects: after a
    completed run, [apply_sync] on any probe's sync file returns one
    session time per probe time and leaves the state alone, and on the
    reference probe's file it returns the times it was given. *)
Theorem version3A_then_apply_sync
    (ses_path : session) (display : display_arg) (linear : bool) (tol : Q)
    (s s' : sys) (qc_all : bool) (times : list Q) :
  let efs := glob_ephys_files ses_path in
  (2 <= length efs)%nat ->
  NoDup (outputs efs) ->
  version3A lstsq lp ses_path display linear tol s = (s', Ok qc_all) ->
  (forall ef, ef ∈ efs ->
     exists out, apply_sync (file_sync ef) times true s' = (s', Ok out) /\
                 length out = length times) /\
  (exists iref ef_ref out,
     efs !! iref = Some ef_ref /\
     first_maximum (map total_events efs) iref /\
     apply_sync (file_sync ef_ref) times true s' = (s', Ok out) /\
     Forall2 Qeq out times).
Proof.
  intros efs Hlen Hnd H.
  apply version3A_Ok_inv in H as (aux & d & s0 & Hd & _ & H); [|done].
  fold efs in Hd, H.
  destruct (version3A_sync_run lstsq lp efs aux d display linear tol s0 Hlen Hd)
    as (ef_ref & tref & s1 & Href & Htref & _ & _ & _ & E).
  rewrite E in H. apply version3A_loop_Ok in H as (Hall & _).
  assert (forall k ef, efs !! k = Some ef ->
    exists tbl, files s' !! file_sync ef = Some tbl /\
      (2 <= length tbl)%nat /\ increasing (col0 tbl) /\
      (k = np.argmax (nsync d) -> tbl = identity_timestamps)) as Htbl.
  { intros k ef Hk. destruct (Hall k ef Hk) as (tbl & qc & Hout & _ & Hfiles).
    destruct (Hfiles Hnd) as [Hsync _]. exists tbl. split; [done|].
    cbn [Nat.add] in Hout. unfold probe_outcome in Hout.
    destruct (Nat.eqb_spec k (np.argmax (nsync d))) as [->|Hk'].
    - injection Hout as <- _. repeat split; try done; cbn; lia.
    - apply probe_fit_run in Hout as [s2 Hout].
      pose proof (sync_points_at_least_two _ _ _ _ _ _ _ _ _ _ _ _ Hout).
      apply sync_probe_front_times_Ok_inv in Hout as (? & ? & Hfit & _).
      apply fit_sync_points_increasing in Hfit. done. }
  split.
  - intros ef Hef. apply list_elem_of_lookup in Hef as [k Hk].
    destruct (Htbl k ef Hk) as (tbl & Hfile & Hlen2 & Hinc & _).
    eexists. split; [by apply apply_sync_forward_run|]. by rewrite length_map.
  - destruct (Htbl _ ef_ref Href) as (tbl & Hfile & Hlen2 & Hinc & Hid).
    rewrite Hid in * by done.
    exists (np.argmax (nsync d)), ef_ref. eexists. split; [done|]. split.
    { apply get_sync_fronts_Some in Hd as (_ & -> & _).
      apply argmax_first_maximum. destruct efs; cbn in *; [lia|done]. }
    split; [by apply apply_sync_forward_run|].
    induction times as [|v times IH]; cbn; constructor; [|done].
    apply call_linear_identity.
Qed.

(** X14. Sessions with at most one probe are skipped.  [version3A] logs
    one warning and [version3B] nothing at all; both return [True] and
    write no file, and [version3B] returns before looking at the NI-DAQ
    files it would otherwise insist on. *)
Theorem single_probe_sessions_are_skipped
    (ses_path : session) (display : display_arg) (linear : bool) (tol : Q)
    (s : sys) :
  ((length (glob_ephys_files ses_path) <= 1)%nat ->
   version3A lstsq lp ses_path display linear tol s
   = (mkSys (files s)
            (logs s ++ [Warning "Skipping single probe session: {ses_path}"])
            (plots s), Ok true)) /\
  ((length (filter (fun ef => nidq ef <> true) (glob_ephys_files ses_path)) <= 1)%nat ->
   version3B lstsq lp get_fronts ses_path display linear tol s = (s, Ok true)).
Proof.
  split; intros Hle.
  - unfold version3A.
    destruct (Nat.leb_spec (length (glob_ephys_files ses_path)) 1); [done|lia].
  - unfold version3B.
    destruct (Nat.leb_spec
      (length (filter (fun ef => nidq ef <> true) (glob_ephys_files ses_path))) 1);
      [done|lia].
Qed.


(** *** version3B *)

Lemma version3B_loop_cons nt display linear tol ef rest qc_all s :
  exists lg pl,
    version3B_loop lstsq lp get_fronts nt display linear tol (ef :: rest) qc_all s
    = match sync_map ef !! "imec_sync" with
      | None => (s, Raise (KeyError "imec_sync"))
      | Some channel =>
          let t := get_fronts (spikeglx_sync ef) channel in
          if negb (length nt =? length t)%nat then (s, Raise AssertionError)
          else
            match probe_fit lstsq lp t nt (_get_sr ef) linear tol with
            | Ok r =>
                version3B_loop lstsq lp get_fronts nt display linear tol rest
                  (qc_all && snd r)
                  (mkSys (<[file_ts ef := rescale (_get_sr ef) (fst r)]>
                            (<[file_sync ef := fst r]> (files s)))
                         (logs s ++ lg) (plots s ++ pl))
            | Raise e => (mkSys (files s) (logs s ++ lg) (plots s ++ pl), Raise e)
            end
      end.
Proof.
  cbn [version3B_loop].
  destruct (sync_map ef !! "imec_sync") as [channel|]; [|by exists [], []].
  cbv zeta. unfold bind at 1. unfold lift at 1.
  destruct (negb _); [by exists [], []|].
  destruct (sync_probe_front_times_run lstsq lp
              (get_fronts (spikeglx_sync ef) channel) nt (_get_sr ef)
              display linear tol s) as (lg & pl & E).
  exists lg, pl. unfold bind at 1. rewrite E.
  destruct (probe_fit _ _ _ _ _ _ _) as [r|e]; [|done].
  unfold bind. rewrite save_timestamps_npy_run. done.
Qed.

Lemma version3B_loop_frame nt display linear tol (efs : list ephys_file) :
  forall qc0 s s' r,
    version3B_loop lstsq lp get_fronts nt display linear tol efs qc0 s = (s', r) ->
    (forall f, f ∉ outputs efs -> files s' !! f = files s !! f) /\
    exists lg, logs s' = logs s ++ lg.
Proof.
  induction efs as [|ef efs IH]; intros qc0 s s' r H.
  - injection H as <- <-. split; [done|]. exists []. by rewrite app_nil_r.
  - destruct (version3B_loop_cons nt display linear tol ef efs qc0 s)
      as (lg & pl & E).
    rewrite E in H. clear E.
    assert (forall s0 : sys, s0 = s ->
      (forall f : Path, f ∉ outputs (ef :: efs) -> files s0 !! f = files s !! f) /\
      exists lg, logs s0 = logs s ++ lg) as Hsame.
    { intros s0 ->. split; [done|]. exists []. by rewrite app_nil_r. }
    destruct (sync_map ef !! "imec_sync") as [channel|];
      [|injection H as <- <-; by apply Hsame].
    cbv zeta in H.
    destruct (negb _); [injection H as <- <-; by apply Hsame|].
    destruct (probe_fit _ _ _ _ _ _ _) as [r0|e].
    + apply IH in H as [Hf [lg' Hlg]]. split.
      * intros f Hout. unfold outputs in Hout. cbn [flat_map app] in Hout.
        fold (outputs efs) in Hout.
        apply not_elem_of_cons in Hout as [Hne1 Hout].
        apply not_elem_of_cons in Hout as [Hne2 Hout].
        rewrite Hf by done. cbn [files].
        rewrite lookup_insert_ne by done. by rewrite lookup_insert_ne.
      * rewrite Hlg. cbn [logs]. rewrite <- app_assoc. by eexists.
    + injection H as <- <-. split; [done|]. by eexists.
Qed.

Lemma version3B_loop_Ok nt display linear tol (efs : list ephys_file) :
  forall qc0 s s' qc_all,
    version3B_loop lstsq lp get_fronts nt display linear tol efs qc0 s
      = (s', Ok qc_all) ->
    (forall ef, ef ∈ efs ->
       exists channel tbl qc,
         sync_map ef !! "imec_sync" = Some channel /\
         length (get_fronts (spikeglx_sync ef) channel) = length nt /\
         probe_fit lstsq lp (get_fronts (spikeglx_sync ef) channel) nt
                   (_get_sr ef) linear tol = Ok (tbl, qc) /\
         (qc_all = true -> qc = true) /\
         (NoDup (outputs efs) ->
            files s' !! file_sync ef = Some tbl /\
            files s' !! file_ts ef = Some (rescale (_get_sr ef) tbl))) /\
    (qc_all = true -> qc0 = true).
Proof.
  induction efs as [|ef efs IH]; intros qc0 s s' qc_all H.
  - injection H as <- <-. split; [|done]. by intros ef ?%elem_of_nil.
  - destruct (version3B_loop_cons nt display linear tol ef efs qc0 s)
      as (lg & pl & E).
    rewrite E in H. clear E.
    destruct (sync_map ef !! "imec_sync") as [channel|] eqn:Hc; [|done].
    cbv zeta in H.
    destruct (Nat.eqb_spec (length nt)
                (length (get_fronts (spikeglx_sync ef) channel))) as [Hlen|];
      [|done].
    cbn [negb] in H.
    destruct (probe_fit _ _ _ _ _ _ _) as [[tbl qc]|e] eqn:Hfit; [|done].
    pose proof H as Hrun.
    apply IH in H as [Hall Hqc]. cbn [fst snd] in *. split.
    + intros ef' [->|Hin]%elem_of_cons.
      * exists channel, tbl, qc. do 3 (split; [done|]). split.
        { intros ->. specialize (Hqc eq_refl). by destruct qc0, qc. }
        intros Hnd. unfold outputs in Hnd. cbn [flat_map app] in Hnd.
        fold (outputs efs) in Hnd.
        apply NoDup_cons in Hnd as [Hs Hnd]. apply NoDup_cons in Hnd as [Ht Hnd].
        apply not_elem_of_cons in Hs as [Hst Hs].
        apply version3B_loop_frame in Hrun as [Hf _].
        rewrite !Hf by done. cbn [files].
        rewrite lookup_insert_ne by done. by rewrite !lookup_insert_eq.
      * destruct (Hall ef' Hin) as (c' & tbl' & qc' & Hc' & Hl' & Hfit' & Hq' & Hfiles).
        exists c', tbl', qc'. do 4 (split; [done|]).
        intros Hnd. apply Hfiles.
        unfold outputs in Hnd. cbn [flat_map app] in Hnd. fold (outputs efs) in Hnd.
        apply NoDup_cons in Hnd as [_ Hnd]. by apply NoDup_cons in Hnd as [_ Hnd].
    + intros ->. specialize (Hqc eq_refl). by destruct qc0.
Qed.

(** X15. A completed [version3B] run on two probes or more has found
    exactly one NI-DAQ file and, for every probe, as many [imec_sync]
    fronts as on the NI-DAQ; the probe's sync file holds the fit of its
    fronts against those of the NI-DAQ, its timestamps file the same table
    in samples at the probe's own sampling rate, and the returned flag is
    [True] only if every fit passed the verification. *)
Theorem version3B_fits_every_probe_to_the_nidq
    (ses_path : session) (display : display_arg) (linear : bool) (tol : Q)
    (s s' : sys) (qc_all : bool) :
  let probes := filter (fun ef => nidq ef <> true) (glob_ephys_files ses_path) in
  (2 <= length probes)%nat ->
  version3B lstsq lp get_fronts ses_path display linear tol s = (s', Ok qc_all) ->
  exists nidq_file channel,
    filter (fun ef => nidq ef = true) (glob_ephys_files ses_path) = [nidq_file] /\
    sync_map nidq_file !! "imec_sync" = Some channel /\
    let tref := get_fronts (spikeglx_sync nidq_file) channel in
    forall ef, ef ∈ probes ->
      exists channel' tbl qc,
        sync_map ef !! "imec_sync" = Some channel' /\
        length (get_fronts (spikeglx_sync ef) channel') = length tref /\
        probe_fit lstsq lp (get_fronts (spikeglx_sync ef) channel') tref
                  (_get_sr ef) linear tol = Ok (tbl, qc) /\
        (qc_all = true -> qc = true) /\
        (NoDup (outputs probes) ->
           files s' !! file_sync ef = Some tbl /\
           files s' !! file_ts ef = Some (rescale (_get_sr ef) tbl)).
Proof.
  intros probes Hlen H. unfold version3B in H. fold probes in H.
  destruct (Nat.leb_spec (length probes) 1); [lia|].
  destruct (filter (fun ef => nidq ef = true) (glob_ephys_files ses_path))
    as [|nidq_file [|? ?]]; try done.
  unfold bind at 1, lift at 1 in H.
  destruct (sync_map nidq_file !! "imec_sync") as [channel|] eqn:Hc; [|done].
  exists nidq_file, channel. split; [done|]. split; [done|].
  apply version3B_loop_Ok in H as [Hall _]. exact Hall.
Qed.

(** X16. What [version3B] checks before any fit, with two probes or more:
    anything but exactly one NI-DAQ file fails the assertion of line 130,
    and a NI-DAQ sync map without [imec_sync] raises [KeyError]; in both
    cases nothing has been written or logged. *)
Theorem version3B_needs_one_nidq_with_imec_sync
    (ses_path : session) (display : display_arg) (linear : bool) (tol : Q)
    (s : sys) :
  let probes := filter (fun ef => nidq ef <> true) (glob_ephys_files ses_path) in
  let nidq_files := filter (fun ef => nidq ef = true) (glob_ephys_files ses_path) in
  (2 <= length probes)%nat ->
  (length nidq_files <> 1%nat ->
   version3B lstsq lp get_fronts ses_path display linear tol s
   = (s, Raise AssertionError)) /\
  (forall nidq_file, nidq_files = [nidq_file] ->
     sync_map nidq_file !! "imec_sync" = None ->
     version3B lstsq lp get_fronts ses_path display linear tol s
     = (s, Raise (KeyError "imec_sync"))).
Proof.
  intros probes nidq_files Hlen. unfold version3B. fold probes nidq_files.
  destruct (Nat.leb_spec (length probes) 1); [lia|]. split.
  - intros Hn. by destruct nidq_files as [|? [|? ?]].
  - intros nidq_file -> Hc. unfold bind, lift. by rewrite Hc.
Qed.

Lemma version3B_loop_mismatch tref display linear tol ef rest channel' :
  sync_map ef !! "imec_sync" = Some channel' ->
  length (get_fronts (spikeglx_sync ef) channel') <> length tref ->
  forall (done : list ephys_file) s qc0,
    (forall p, p ∈ done ->
       exists c r, sync_map p !! "imec_sync" = Some c /\
         length (get_fronts (spikeglx_sync p) c) = length tref /\
         probe_fit lstsq lp (get_fronts (spikeglx_sync p) c) tref
                   (_get_sr p) linear tol = Ok r) ->
    exists s',
      version3B_loop lstsq lp get_fronts tref display linear tol
        (done ++ ef :: rest) qc0 s = (s', Raise AssertionError) /\
      (forall f, f ∉ outputs done -> files s' !! f = files s !! f) /\
      (NoDup (outputs done) ->
       forall p, p ∈ done ->
         exists c tbl qc, sync_map p !! "imec_sync" = Some c /\
           probe_fit lstsq lp (get_fronts (spikeglx_sync p) c) tref
                     (_get_sr p) linear tol = Ok (tbl, qc) /\
           files s' !! file_sync p = Some tbl /\
           files s' !! file_ts p = Some (rescale (_get_sr p) tbl)).
Proof.
  intros Hc' Hmis done.
  induction done as [|p done IH]; intros s qc0 Hdone.
  - cbn [app]. exists s. split; [|split; [done|by intros _ p ?%elem_of_nil]].
    destruct (version3B_loop_cons tref display linear tol ef rest qc0 s)
      as (lg & pl & ->).
    rewrite Hc'. cbv zeta.
    destruct (Nat.eqb_spec (length tref)
                (length (get_fronts (spikeglx_sync ef) channel'))); [congruence|done].
  - cbn [app].
    destruct (version3B_loop_cons tref display linear tol p (done ++ ef :: rest) qc0 s)
      as (lg & pl & ->).
    destruct (Hdone p) as (c & [tbl qc] & Hpc & Hpl & Hfit); [by left|].
    rewrite Hpc. cbv zeta. rewrite Hpl, Nat.eqb_refl. cbn [negb]. rewrite Hfit.
    cbn [fst snd].
    set (s1 := mkSys _ _ _).
    destruct (IH s1 (qc0 && qc)) as (s' & Hrun & Hframe & Hfiles).
    { intros p' Hp'. apply Hdone. by right. }
    exists s'. split; [done|].
    unfold outputs. cbn [flat_map app]. fold (outputs done). split.
    + intros f Hf.
      apply not_elem_of_cons in Hf as [Hne1 Hf].
      apply not_elem_of_cons in Hf as [Hne2 Hf].
      rewrite Hframe by done. subst s1. cbn [files].
      rewrite lookup_insert_ne by done. by rewrite lookup_insert_ne.
    + intros Hnd.
      apply NoDup_cons in Hnd as [Hs Hnd]. apply NoDup_cons in Hnd as [Ht Hnd].
      apply not_elem_of_cons in Hs as [Hst Hs].
      intros p' [->|Hp']%elem_of_cons; [|by apply Hfiles].
      exists c, tbl, qc. repeat split; try done.
      * rewrite Hframe by done. subst s1. cbn [files].
        rewrite lookup_insert_ne by done. by rewrite lookup_insert_eq.
      * rewrite Hframe by done. subst s1. cbn [files]. by rewrite lookup_insert_eq.
Qed.

(** X17. [version3B] does not roll back.  When the probes before some
    probe are synchronised and that probe has another number of
    [imec_sync] fronts than the NI-DAQ, the run fails the assertion of
    line 138, and the files of the earlier probes are already written. *)
Theorem version3B_stops_at_the_first_mismatch
    (ses_path : session) (display : display_arg) (linear : bool) (tol : Q)
    (s : sys) (nidq_file ef : ephys_file) (channel channel' : Z)
    (done rest : list ephys_file) :
  let probes := filter (fun ef => nidq ef <> true) (glob_ephys_files ses_path) in
  let tref := get_fronts (spikeglx_sync nidq_file) channel in
  (2 <= length probes)%nat ->
  filter (fun ef => nidq ef = true) (glob_ephys_files ses_path) = [nidq_file] ->
  sync_map nidq_file !! "imec_sync" = Some channel ->
  probes = done ++ ef :: rest ->
  (forall p, p ∈ done ->
     exists c r, sync_map p !! "imec_sync" = Some c /\
       length (get_fronts (spikeglx_sync p) c) = length tref /\
       probe_fit lstsq lp (get_fronts (spikeglx_sync p) c) tref
                 (_get_sr p) linear tol = Ok r) ->
  sync_map ef !! "imec_sync" = Some channel' ->
  length (get_fronts (spikeglx_sync ef) channel') <> length tref ->
  exists s',
    version3B lstsq lp get_fronts ses_path display linear tol s
    = (s', Raise AssertionError) /\
    (NoDup (outputs done) ->
     forall p, p ∈ done ->
       exists c tbl qc, sync_map p !! "imec_sync" = Some c /\
         probe_fit lstsq lp (get_fronts (spikeglx_sync p) c) tref
                   (_get_sr p) linear tol = Ok (tbl, qc) /\
         files s' !! file_sync p = Some tbl /\
         files s' !! file_ts p = Some (rescale (_get_sr p) tbl)).
Proof.
  intros probes tref Hlen Hnidq Hc Hsplit Hdone Hc' Hmis.
  unfold version3B. fold probes. rewrite Hnidq.
  destruct (Nat.leb_spec (length probes) 1); [lia|].
  unfold bind at 1, lift at 1. rewrite Hc. fold tref. rewrite Hsplit.
  destruct (version3B_loop_mismatch tref display linear tol ef rest channel'
              Hc' Hmis done s true Hdone) as (s' & Hrun & _ & Hfiles).
  by exists s'.
Qed.

(** X18. [version3B] writes nowhere but to the sync and timestamps files
    of the probes, never to those of the NI-DAQ or elsewhere, whether it
    completes or raises, and it only appends to the log. *)
Theorem version3B_touches_only_its_outputs
    (ses_path : session) (display : display_arg) (linear : bool) (tol : Q)
    (s s' : sys) (r : res bool) :
  let probes := filter (fun ef => nidq ef <> true) (glob_ephys_files ses_path) in
  version3B lstsq lp get_fronts ses_path display linear tol s = (s', r) ->
  (forall f, f ∉ outputs probes -> files s' !! f = files s !! f) /\
  exists lg, logs s' = logs s ++ lg.
Proof.
  intros probes H. unfold version3B in H. fold probes in H.
  assert (forall s0 : sys, s0 = s ->
    (forall f : Path, f ∉ outputs probes -> files s0 !! f = files s !! f) /\
    exists lg, logs s0 = logs s ++ lg) as Hsame.
  { intros s0 ->. split; [done|]. exists []. by rewrite app_nil_r. }
  destruct (length probes <=? 1)%nat; [injection H as <- <-; by apply Hsame|].
  destruct (filter (fun ef => nidq ef = true) (glob_ephys_files ses_path))
    as [|nidq_file [|? ?]]; try (injection H as <- <-; by apply Hsame).
  unfold bind at 1, lift at 1 in H.
  destruct (sync_map nidq_file !! "imec_sync") as [channel|];
    [|injection H as <- <-; by apply Hsame].
  by eapply version3B_loop_frame.
Qed.

End RunProperties.

(** ** What the control points depend on *)

Section DispatchProperties.

Variable lstsq : list Q -> list Q -> Q * Q.
Variable lp : list Q -> Q -> Q * Q -> list Q.
Variable get_fronts : Sync -> Z -> list Q.

Lemma fit_sync_points_rate_alike t tref sr sr' d1 d2 linear :
  alike (fit_sync_points lstsq lp t tref sr d1 linear)
        (fit_sync_points lstsq lp t tref sr' d2 linear).
Proof.
  unfold fit_sync_points.
  apply alike_bind; [apply alike_lift|intros pol].
  destruct linear; cbn [negb].
  - apply alike_bind; [|intros; apply alike_ret].
    apply draws_alike; [destruct (truthy d1)|destruct (truthy d2)]; solve_draws.
  - apply alike_bind; [apply alike_lift|intros res_upsamp].
    apply alike_bind; [apply alike_lift|intros res_filt].
    apply alike_bind; [apply alike_lift|intros smoothed].
    apply alike_bind; [|intros; apply alike_ret].
    apply draws_alike; [destruct d1 as [[]|]|destruct d2 as [[]|]];
      cbn [truthy]; solve_draws.
Qed.

(** X20. The control points depend on the two streams and on [linear]
    alone.  If [sync_probe_front_times] returns for one sampling rate,
    tolerance, [display] and state, it returns the same control points
    for any others; only the flag may change. *)
Theorem control_points_depend_on_the_streams_only
    (t tref : list Q) (sr sr' : Q) (display display' : display_arg)
    (linear : bool) (tol tol' : Q) (s s' s2 : sys) (pts : table) (qc : bool) :
  sync_probe_front_times lstsq lp t tref sr display linear tol s
    = (s', Ok (pts, qc)) ->
  exists s2' qc',
    sync_probe_front_times lstsq lp t tref sr' display' linear tol' s2
      = (s2', Ok (pts, qc')).
Proof.
  intros H.
  apply sync_probe_front_times_Ok_inv in H as (s1 & fcn & Hfit & Hfcn & _).
  destruct (fit_sync_points_rate_alike t tref sr sr' display display' linear s s2)
    as (r & lg & pl1 & pl2 & E1 & E2).
  rewrite Hfit in E1. injection E1 as _ <-.
  unfold sync_probe_front_times, bind, lift. rewrite E2, Hfcn.
  destruct (exceeds_tol fcn t tref sr' tol'); cbn; by eexists _, _.
Qed.

End DispatchProperties.

(** ** The two files of a probe *)

Lemma prefix_app (old : string) : forall s,
  String.prefix old s = true -> exists post, s = old +:+ post.
Proof.
  induction old as [|a old IH]; intros s H.
  - by exists s.
  - destruct s as [|b s]; [done|]. cbn in H.
    destruct (ascii_dec a b) as [->|]; [|done].
    destruct (IH s H) as [post ->]. by exists post.
Qed.

Lemma replace_from_skip (a : string) (old new b : string) :
  replace_from (String.length a) old new (a +:+ b) = replace_from 0 old new b.
Proof. induction a as [|c a IH]; [done|]. cbn. exact IH. Qed.

Lemma replace_absent (old new s : string) :
  str_contains old s = false -> replace s old new = s.
Proof.
  unfold replace. induction s as [|c s IH]; intros H; [done|].
  cbn [str_contains] in H. apply orb_false_iff in H as [Hp Hc].
  cbn [replace_from]. rewrite Hp. f_equal. by apply IH.
Qed.

Lemma replace_first (c0 : ascii) (old' s : string) :
  str_contains (String c0 old') s = true ->
  exists pre post, forall new,
    replace s (String c0 old') new
    = pre +:+ new +:+ replace post (String c0 old') new.
Proof.
  unfold replace. induction s as [|c s IH]; intros H; [done|].
  cbn [str_contains] in H.
  destruct (String.prefix (String c0 old') (String c s)) eqn:Hp.
  - destruct (prefix_app _ _ Hp) as [post E]. injection E as -> ->.
    exists EmptyString, post. intros new. cbn [replace_from]. rewrite Hp.
    cbn [String.length Nat.sub]. rewrite Nat.sub_0_r. by rewrite replace_from_skip.
  - cbn [orb] in H. destruct (IH H) as (pre & post & E).
    exists (String c pre), post. intros new. cbn [replace_from]. rewrite Hp.
    by rewrite E.
Qed.

Lemma str_app_cons (c : ascii) (a b : string) :
  String c a +:+ b = String c (a +:+ b).
Proof. reflexivity. Qed.

Lemma rfind_dot_app (a b : string) :
  rfind_dot (a +:+ b)
  = match rfind_dot b with
    | Some j => Some (String.length a + j)%nat
    | None => rfind_dot a
    end.
Proof.
  induction a as [|c a IH].
  - change (EmptyString +:+ b) with b. by destruct (rfind_dot b).
  - rewrite str_app_cons. cbn [rfind_dot String.length]. rewrite IH.
    by destruct (rfind_dot b).
Qed.

Lemma rfind_dot_lt (n : string) : forall i,
  rfind_dot n = Some i -> (i < String.length n)%nat.
Proof.
  induction n as [|c n IH]; intros i H; [done|]. cbn in H.
  destruct (rfind_dot n) as [j|].
  - injection H as <-. specialize (IH j eq_refl). cbn. lia.
  - destruct (Ascii.eqb c "."); [|done]. injection H as <-. cbn. lia.
Qed.

Lemma get_substring_app (n : string) : forall k i suf,
  (k < i)%nat -> (i <= String.length n)%nat ->
  String.get k (String.substring 0 i n +:+ suf) = String.get k n.
Proof.
  induction n as [|c n IH]; intros k i suf Hk Hi; cbn in Hi; [lia|].
  destruct i as [|i]; [lia|]. cbn [String.substring]. rewrite str_app_cons.
  destruct k as [|k]; [done|]. cbn [String.get]. apply IH; lia.
Qed.

(** [with_suffix] leaves what stands before the last dot. *)
Lemma with_suffix_get (dir pre mid rest suf : string) (k : nat) :
  (k <= String.length pre + String.length mid)%nat ->
  let n := pre +:+ String "." (mid +:+ String "." rest) in
  String.get k (name (with_suffix (mkPath dir n) suf)) = String.get k n.
Proof.
  intros Hk n.
  assert (exists i, rfind_dot n = Some i /\
                    (String.length pre + String.length mid < i)%nat) as (i & Hi & Hlt).
  { subst n. rewrite rfind_dot_app. cbn [rfind_dot]. rewrite rfind_dot_app.
    cbn [rfind_dot]. change (Ascii.eqb "." ".") with true.
    destruct (rfind_dot rest); eexists; (split; [reflexivity|lia]). }
  pose proof (rfind_dot_lt _ _ Hi) as Hlen.
  unfold with_suffix, suffix_start. cbn [name parent]. rewrite Hi.
  destruct ((0 <? i)%nat && (i <? String.length n - 1)%nat); cbn [name].
  - apply get_substring_app; lia.
  - symmetry. apply append_correct1. lia.
Qed.

Lemma get_after (pre mid rest : string) (c : ascii) :
  String.get (String.length pre + 1) (pre +:+ String "." (String c mid +:+ rest))
  = Some c.
Proof.
  rewrite Nat.add_comm, str_app_cons.
  by rewrite <- (append_correct2 pre (String "." (String c (mid +:+ rest))) 1).
Qed.

(** X22. The two files that [_save_timestamps_npy] writes for a probe are
    distinct exactly when the name of the probe's binary file contains
    ['.ap.'].  When it does not, both names are the same and the sync
    table is overwritten: the one file that is left holds the timestamps
    table, in samples. *)
Theorem sync_and_timestamps_files_differ
    (ephys_file : ephys_file) :
  (file_sync ephys_file <> file_ts ephys_file <->
   str_contains ".ap." (name (ap ephys_file)) = true) /\
  (str_contains ".ap." (name (ap ephys_file)) = false ->
   forall tself_tref sr s,
     files (fst (_save_timestamps_npy ephys_file tself_tref sr s))
       !! file_sync ephys_file
     = Some (rescale sr tself_tref)).
Proof.
  assert (str_contains ".ap." (name (ap ephys_file)) = false ->
          file_sync ephys_file = file_ts ephys_file) as Hsame.
  { intros H. unfold file_sync, file_ts. by rewrite !replace_absent. }
  split; [split|].
  - intros Hne. destruct (str_contains _ _) eqn:E; [done|]. by destruct Hne; apply Hsame.
  - intros H Heq. apply replace_first in H as (pre & post & E).
    unfold file_sync, file_ts in Heq. rewrite !E in Heq.
    apply (f_equal (fun p => String.get (String.length pre + 1) (name p))) in Heq.
    change (pre +:+ ".sync." +:+ replace post ".ap." ".sync.")
      with (pre +:+ String "." ("sync" +:+ String "." (replace post ".ap." ".sync.")))
      in Heq.
    change (pre +:+ ".timestamps." +:+ replace post ".ap." ".timestamps.")
      with (pre +:+ String "."
              ("timestamps" +:+ String "." (replace post ".ap." ".timestamps.")))
      in Heq.
    unfold joinpath in Heq.
    rewrite !with_suffix_get in Heq by (cbn; lia).
    rewrite !get_after in Heq. discriminate Heq.
  - intros H tself_tref sr s. rewrite save_timestamps_npy_run. cbn [fst files].
    rewrite (Hsame H). by rewrite lookup_insert_eq.
Qed.

(** ** Running again, and the flag *)

Section RepeatedRuns.

Variable lstsq : list Q -> list Q -> Q * Q.
Variable lp : list Q -> Q -> Q * Q -> list Q.
Variable get_fronts : Sync -> Z -> list Q.

(** *** Running again *)

Lemma version3A_loop_again dt iref sr display display' linear tol
    (efs : list ephys_file) :
  forall ind qc0 s s' qc_all,
    version3A_loop lstsq lp dt iref sr display linear tol ind efs qc0 s
      = (s', Ok qc_all) ->
    forall s2, exists s2',
      version3A_loop lstsq lp dt iref sr display' linear tol ind efs qc0 s2
        = (s2', Ok qc_all) /\
      forall f, f ∈ outputs efs -> files s2' !! f = files s' !! f.
Proof.
  induction efs as [|ef efs IH]; intros ind qc0 s s' qc_all H s2.
  - injection H as <- <-. exists s2. split; [done|]. by intros f ?%elem_of_nil.
  - destruct (version3A_loop_cons lstsq lp dt iref sr display linear tol
                ind ef efs qc0 s) as (lg & pl & E).
    destruct (version3A_loop_cons lstsq lp dt iref sr display' linear tol
                ind ef efs qc0 s2) as (lg2 & pl2 & E2).
    rewrite E in H. rewrite E2. clear E E2.
    destruct (probe_outcome _ _ _ _ _ _ _ _) as [r|e]; [|done].
    pose proof H as Hrun.
    eapply IH in H as (s2' & Hrun2 & Hsame). exists s2'. split; [exact Hrun2|].
    unfold outputs. cbn [flat_map app]. fold (outputs efs). intros f Hf.
    destruct (decide (f ∈ outputs efs)) as [Hin|Hout]; [by apply Hsame|].
    rewrite (version3A_loop_frame _ _ _ _ _ _ _ _ _ _ _ _ _ _ Hrun f Hout).
    rewrite (version3A_loop_frame _ _ _ _ _ _ _ _ _ _ _ _ _ _ Hrun2 f Hout).
    cbn [files].
    destruct (decide (f = file_ts ef)) as [->|Hts]; [by rewrite !lookup_insert_eq|].
    apply elem_of_cons in Hf as [->|Hf]; [|apply elem_of_cons in Hf as [->|Hf]; done].
    rewrite !(lookup_insert_ne _ (file_ts ef)) by done. by rewrite !lookup_insert_eq.
Qed.

Lemma version3A_sync_again (efs : list ephys_file) aux d display display' linear tol
    s s1 qc_all :
  (2 <= length efs)%nat ->
  get_sync_fronts efs aux = Ok (Some d) ->
  version3A_sync lstsq lp efs d display linear tol s = (s1, Ok qc_all) ->
  forall s2, exists s2',
    version3A_sync lstsq lp efs d display' linear tol s2 = (s2', Ok qc_all) /\
    (forall f, f ∈ outputs efs -> files s2' !! f = files s1 !! f) /\
    (forall f, f ∉ outputs efs -> files s2' !! f = files s2 !! f).
Proof.
  intros Hlen Hd H s2.
  destruct (version3A_sync_run lstsq lp efs aux d display linear tol s Hlen Hd)
    as (ef_ref & tref & s0 & Href & _ & _ & _ & _ & E).
  destruct (version3A_sync_run lstsq lp efs aux d display' linear tol s2 Hlen Hd)
    as (ef_ref' & tref' & s0' & Href' & _ & Hf0 & _ & _ & E').
  rewrite Href in Href'. injection Href' as <-.
  rewrite E in H. rewrite E'.
  destruct (version3A_loop_again _ _ _ _ display' _ _ _ _ _ _ _ _ H s0')
    as (s2' & Hrun & Hsame).
  exists s2'. split; [done|]. split; [done|].
  intros f Hf. rewrite <- Hf0. by eapply version3A_loop_frame.
Qed.

(** X23. Running [version3A] again on what it left is harmless: the
    second run, with any [display], completes with the same flag and
    leaves every file as the first run left it. *)
Theorem version3A_again_changes_nothing
    (ses_path : session) (display display' : display_arg) (linear : bool)
    (tol : Q) (s s1 : sys) (qc_all : bool) :
  version3A lstsq lp ses_path display linear tol s = (s1, Ok qc_all) ->
  exists s2,
    version3A lstsq lp ses_path display' linear tol s1 = (s2, Ok qc_all) /\
    files s2 = files s1.
Proof.
  intros H.
  destruct (Nat.leb_spec (length (glob_ephys_files ses_path)) 1) as [Hle|Hlt].
  - unfold version3A in *.
    destruct (Nat.leb_spec (length (glob_ephys_files ses_path)) 1); [|lia].
    injection H as <- <-. by eexists.
  - assert (forall aux d s0,
      get_sync_fronts (glob_ephys_files ses_path) aux = Ok (Some d) ->
      files s0 = files s ->
      version3A_sync lstsq lp (glob_ephys_files ses_path) d display linear tol s0
        = (s1, Ok qc_all) ->
      forall s0', files s0' = files s1 ->
      exists s2,
        version3A_sync lstsq lp (glob_ephys_files ses_path) d display' linear tol s0'
          = (s2, Ok qc_all) /\ files s2 = files s1) as Hsync.
    { intros aux d s0 Hd Hfs Hrun s0' Hfs'.
      assert (2 <= length (glob_ephys_files ses_path))%nat as Hlen by lia.
      destruct (version3A_sync_again _ aux d display display' linear tol s0 s1 qc_all
                  Hlen Hd Hrun s0') as (s2 & Hrun2 & Hin & Hout).
      exists s2. split; [done|]. apply map_eq. intros f.
      destruct (decide (f ∈ outputs (glob_ephys_files ses_path))) as [Hf|Hf].
      - by apply Hin.
      - rewrite (Hout f Hf). by rewrite Hfs'. }
    rewrite version3A_run in H by lia. rewrite version3A_run by lia.
    destruct (get_sync_fronts (glob_ephys_files ses_path) "frame2ttl")
      as [[d|]|e] eqn:Hd;
      [exact (Hsync "frame2ttl"%string d s Hd eq_refl H s1 eq_refl)| |done].
    destruct (get_sync_fronts (glob_ephys_files ses_path) "right_camera")
      as [[d|]|e] eqn:Hd'; [|done..].
    destruct (Qltb _ _); [|done].
    exact (Hsync "right_camera"%string d (after_camera_warning s) Hd' eq_refl H
             (after_camera_warning s1) eq_refl).
Qed.

Lemma version3B_loop_again nt display display' linear tol (efs : list ephys_file) :
  forall qc0 s s' qc_all,
    version3B_loop lstsq lp get_fronts nt display linear tol efs qc0 s
      = (s', Ok qc_all) ->
    forall s2, exists s2',
      version3B_loop lstsq lp get_fronts nt display' linear tol efs qc0 s2
        = (s2', Ok qc_all) /\
      forall f, f ∈ outputs efs -> files s2' !! f = files s' !! f.
Proof.
  induction efs as [|ef efs IH]; intros qc0 s s' qc_all H s2.
  - injection H as <- <-. exists s2. split; [done|]. by intros f ?%elem_of_nil.
  - destruct (version3B_loop_cons lstsq lp get_fronts nt display linear tol ef efs qc0 s)
      as (lg & pl & E).
    destruct (version3B_loop_cons lstsq lp get_fronts nt display' linear tol ef efs qc0 s2)
      as (lg2 & pl2 & E2).
    rewrite E in H. rewrite E2. clear E E2.
    destruct (sync_map ef !! "imec_sync") as [channel|]; [|done].
    cbv zeta in *. destruct (negb _); [done|].
    destruct (probe_fit _ _ _ _ _ _ _) as [r|e]; [|done].
    pose proof H as Hrun.
    eapply IH in H as (s2' & Hrun2 & Hsame). exists s2'. split; [exact Hrun2|].
    unfold outputs. cbn [flat_map app]. fold (outputs efs). intros f Hf.
    destruct (decide (f ∈ outputs efs)) as [Hin|Hout]; [by apply Hsame|].
    destruct (version3B_loop_frame _ _ _ _ _ _ _ _ _ _ _ _ Hrun) as [Hfr _].
    destruct (version3B_loop_frame _ _ _ _ _ _ _ _ _ _ _ _ Hrun2) as [Hfr2 _].
    rewrite (Hfr f Hout), (Hfr2 f Hout). cbn [files].
    destruct (decide (f = file_ts ef)) as [->|Hts]; [by rewrite !lookup_insert_eq|].
    apply elem_of_cons in Hf as [->|Hf]; [|apply elem_of_cons in Hf as [->|Hf]; done].
    rewrite !(lookup_insert_ne _ (file_ts ef)) by done. by rewrite !lookup_insert_eq.
Qed.

(** X24. Running [version3B] again on what it left is harmless too: the
    second run completes with the same flag and leaves every file as the
    first run left it. *)
Theorem version3B_again_changes_nothing
    (ses_path : session) (display display' : display_arg) (linear : bool)
    (tol : Q) (s s1 : sys) (qc_all : bool) :
  version3B lstsq lp get_fronts ses_path display linear tol s = (s1, Ok qc_all) ->
  exists s2,
    version3B lstsq lp get_fronts ses_path display' linear tol s1 = (s2, Ok qc_all) /\
    files s2 = files s1.
Proof.
  intros H. unfold version3B in *.
  destruct (length (filter (fun ef => nidq ef <> true) (glob_ephys_files ses_path))
            <=? 1)%nat.
  { injection H as <- <-. by eexists. }
  destruct (filter (fun ef => nidq ef = true) (glob_ephys_files ses_path))
    as [|nidq_file [|? ?]]; try done.
  unfold bind at 1, lift at 1 in H. unfold bind at 1, lift at 1.
  destruct (sync_map nidq_file !! "imec_sync") as [channel|]; [|done].
  destruct (version3B_loop_again _ _ display' _ _ _ _ _ _ _ H s1)
    as (s2 & Hrun2 & Hsame).
  exists s2. split; [done|]. apply map_eq. intros f.
  destruct (decide (f ∈ outputs (filter (fun ef => nidq ef <> true)
                                        (glob_ephys_files ses_path)))) as [Hf|Hf].
  - by apply Hsame.
  - by destruct (version3B_loop_frame _ _ _ _ _ _ _ _ _ _ _ _ Hrun2) as [-> _].
Qed.

(** X25. The flag of [version3A] is the conjunction of the checks: a
    completed run on two probes or more returns [True] exactly when the
    fit of every probe but the reference, on the streams cut to the
    shortest length and at the reference probe's sampling rate, passes
    the verification. *)
Theorem version3A_flag_is_the_conjunction
    (ses_path : session) (display : display_arg) (linear : bool) (tol : Q)
    (s s' : sys) (qc_all : bool) :
  let efs := glob_ephys_files ses_path in
  (2 <= length efs)%nat ->
  version3A lstsq lp ses_path display linear tol s = (s', Ok qc_all) ->
  exists aux d ef_ref tref,
    get_sync_fronts efs aux = Ok (Some d) /\
    efs !! np.argmax (nsync d) = Some ef_ref /\
    d_times d !! np.argmax (nsync d) = Some tref /\
    let m := py_min_nat (map (fun t => length t) (d_times d)) in
    (qc_all = true <->
     forall k t, k <> np.argmax (nsync d) -> d_times d !! k = Some t ->
       exists pts,
         probe_fit lstsq lp (take m t) (take m tref) (_get_sr ef_ref) linear tol
         = Ok (pts, true)).
Proof. exact (version3A_returns_conjunction lstsq lp ses_path display linear tol s s' qc_all). Qed.

Lemma version3B_loop_flag nt display linear tol (efs : list ephys_file) :
  forall qc0 s s' qc_all,
    version3B_loop lstsq lp get_fronts nt display linear tol efs qc0 s
      = (s', Ok qc_all) ->
    qc0 = true ->
    (forall ef channel tbl qc, ef ∈ efs ->
       sync_map ef !! "imec_sync" = Some channel ->
       probe_fit lstsq lp (get_fronts (spikeglx_sync ef) channel) nt
                 (_get_sr ef) linear tol = Ok (tbl, qc) ->
       qc = true) ->
    qc_all = true.
Proof.
  induction efs as [|ef efs IH]; intros qc0 s s' qc_all H Hq Hall.
  - by injection H as <- <-.
  - destruct (version3B_loop_cons lstsq lp get_fronts nt display linear tol ef efs qc0 s)
      as (lg & pl & E).
    rewrite E in H. clear E.
    destruct (sync_map ef !! "imec_sync") as [channel|] eqn:Hc; [|done].
    cbv zeta in H. destruct (negb _); [done|].
    destruct (probe_fit _ _ _ _ _ _ _) as [[tbl qc]|e] eqn:Hfit; [|done].
    eapply IH; [exact H| |].
    + cbn [snd]. rewrite Hq. cbn. eapply Hall; [by left|exact Hc|exact Hfit].
    + intros ef' c' tbl' qc' Hin. apply Hall. by right.
Qed.

(** X26. The flag of [version3B] is the conjunction of the checks: a
    completed run on two probes or more returns [True] exactly when the
    fit of every probe against the NI-DAQ passes the verification. *)
Theorem version3B_flag_is_the_conjunction
    (ses_path : session) (display : display_arg) (linear : bool) (tol : Q)
    (s s' : sys) (qc_all : bool) :
  let probes := filter (fun ef => nidq ef <> true) (glob_ephys_files ses_path) in
  (2 <= length probes)%nat ->
  version3B lstsq lp get_fronts ses_path display linear tol s = (s', Ok qc_all) ->
  exists nidq_file channel,
    filter (fun ef => nidq ef = true) (glob_ephys_files ses_path) = [nidq_file] /\
    sync_map nidq_file !! "imec_sync" = Some channel /\
    let tref := get_fronts (spikeglx_sync nidq_file) channel in
    (qc_all = true <->
     forall ef channel' tbl qc, ef ∈ probes ->
       sync_map ef !! "imec_sync" = Some channel' ->
       probe_fit lstsq lp (get_fronts (spikeglx_sync ef) channel') tref
                 (_get_sr ef) linear tol = Ok (tbl, qc) ->
       qc = true).
Proof.
  intros probes Hlen H. unfold version3B in H. fold probes in H.
  destruct (Nat.leb_spec (length probes) 1); [lia|].
  destruct (filter (fun ef => nidq ef = true) (glob_ephys_files ses_path))
    as [|nidq_file [|? ?]]; try done.
  unfold bind at 1, lift at 1 in H.
  destruct (sync_map nidq_file !! "imec_sync") as [channel|] eqn:Hc; [|done].
  exists nidq_file, channel. split; [done|]. split; [done|]. cbv zeta. split.
  - intros Hq ef c' tbl qc Hin Hc' Hfit.
    apply version3B_loop_Ok in H as [Hall _].
    destruct (Hall ef Hin) as (c2 & tbl2 & qc2 & Hc2 & _ & Hfit2 & Hqc & _).
    rewrite Hc' in Hc2. injection Hc2 as <-. rewrite Hfit in Hfit2.
    injection Hfit2 as _ <-. by apply Hqc.
  - intros Hall. by eapply version3B_loop_flag.
Qed.

End RepeatedRuns.

(** * Further properties on concrete recordings *)

(** The check passed at 2.1 samples is passed at 2.5. *)
Lemma verification_monotone_in_tolerance_witness :
  21 # 10 <= 25 # 10 /\
  sync_probe_front_times lstsq_line lp_pass ex_t ex_tref 1
    (DisplayBool false) true (21 # 10) no_files
  = (no_files, Ok ([(0, 0 # 50); (1, 51 # 50)], true)) /\
  exists s2',
    sync_probe_front_times lstsq_line lp_pass ex_t ex_tref 1
      (DisplayBool true) true (25 # 10) no_files
    = (s2', Ok ([(0, 0 # 50); (1, 51 # 50)], true)) /\
    logs s2' = logs no_files /\ files s2' = files no_files.
Proof.
  assert (Htol : 21 # 10 <= 25 # 10) by (unfold Qle; cbn; lia).
  assert (Hrun : sync_probe_front_times lstsq_line lp_pass ex_t ex_tref 1
                   (DisplayBool false) true (21 # 10) no_files
                 = (no_files, Ok ([(0, 0 # 50); (1, 51 # 50)], true)))
    by (vm_compute; reflexivity).
  split; [exact Htol|]. split; [exact Hrun|].
  exact (verification_monotone_in_tolerance lstsq_line lp_pass ex_t ex_tref 1
           (DisplayBool false) (DisplayBool true) true (21 # 10) (25 # 10)
           no_files no_files no_files _ Htol Hrun).
Defined.

(** The two control points of the linear model sit at 0 s and 1 s. *)
Lemma sync_points_grid_witness :
  let pts := [(0, 0 # 50); (1, 51 # 50)] in
  sync_probe_front_times lstsq_line lp_pass ex_t ex_tref 1
    (DisplayBool false) true (21 # 10) no_files = (no_files, Ok (pts, true)) /\
  (2 <= length pts)%nat /\
  increasing (col0 pts) /\
  (forall i x, col0 pts !! i = Some x -> x == inject_Z (Z.of_nat i) * 1) /\
  (true = true -> length pts = 2%nat) /\
  scipy.interp1d (col0 pts) (col1 pts) = Ok (scipy._call_linear pts).
Proof.
  intros pts.
  assert (Hrun : sync_probe_front_times lstsq_line lp_pass ex_t ex_tref 1
                   (DisplayBool false) true (21 # 10) no_files
                 = (no_files, Ok (pts, true)))
    by (vm_compute; reflexivity).
  split; [exact Hrun|].
  exact (sync_points_grid lstsq_line lp_pass ex_t ex_tref 1 (DisplayBool false)
           true (21 # 10) no_files no_files pts true Hrun).
Defined.

(** One front on each side: nothing to smooth. *)
Lemma smoothed_fit_needs_a_time_span_witness :
  (0 < length [1])%nat /\ length [1] = length [1 # 1] /\
  List.last [1 # 1] 0 <= hd 0 [1 # 1] /\
  sync_probe_front_times lstsq_line lp_pass [1] [1 # 1] 30000
    (DisplayBool true) false (21 # 10) no_files
  = (no_files, Raise (ValueError
      "can't extend empty axis 0 using modes other than 'constant' or 'empty'")).
Proof.
  assert (H1 : (0 < length [1])%nat) by (cbn; lia).
  assert (H2 : length [1] = length [1 # 1]) by reflexivity.
  assert (H3 : List.last [1 # 1] 0 <= hd 0 [1 # 1]) by (unfold Qle; cbn; lia).
  repeat (split; [assumption|]).
  exact (smoothed_fit_needs_a_time_span lstsq_line lp_pass [1] [1 # 1] 30000
           (DisplayBool true) (21 # 10) no_files H1 H2 H3).
Defined.

(** The frame2ttl fronts of the two probes, and no camera fronts. *)
Lemma get_sync_fronts_all_or_nothing_witness :
  Forall well_formed [probe00; probe01] /\
  Forall (fun ef => channel_fronts "frame2ttl" ef <> []) [probe00; probe01] /\
  Exists (fun ef => channel_fronts "right_camera" ef = []) [probe00; probe01] /\
  get_sync_fronts [probe00; probe01] "frame2ttl"
  = Ok (Some (mkFronts (map (channel_fronts "frame2ttl") [probe00; probe01])
                       (map total_events [probe00; probe01]))) /\
  get_sync_fronts [probe00; probe01] "right_camera" = Ok None.
Proof.
  assert (Hwf : Forall well_formed [probe00; probe01])
    by (repeat constructor).
  assert (Hall : Forall (fun ef => channel_fronts "frame2ttl" ef <> [])
                        [probe00; probe01])
    by (repeat constructor; vm_compute; discriminate).
  assert (Hex : Exists (fun ef => channel_fronts "right_camera" ef = [])
                       [probe00; probe01])
    by (left; vm_compute; reflexivity).
  repeat (split; [assumption|]).
  destruct (get_sync_fronts_all_or_nothing [probe00; probe01] "frame2ttl" Hwf)
    as [Hsome _].
  destruct (get_sync_fronts_all_or_nothing [probe00; probe01] "right_camera" Hwf)
    as [_ Hnone].
  split; [exact (Hsome Hall)|exact (Hnone Hex)].
Defined.

(** A run on the frame2ttl session leaves another file as it was. *)
Lemma version3A_touches_only_its_outputs_witness :
  let other := mkPath "alf" "spikes.times.npy" in
  let s := mkSys (<[other := [(1, 2)]]> ∅) [] [] in
  let run := version3A lstsq_line lp_pass ses_frame2ttl (DisplayBool false) true
               (21 # 10) s in
  run = (fst run, snd run) /\
  (other ∉ outputs (glob_ephys_files ses_frame2ttl)) /\
  files (fst run) !! other = Some [(1, 2)] /\
  exists lg, logs (fst run) = logs s ++ lg.
Proof.
  intros other s run.
  assert (Hrun : run = (fst run, snd run)) by apply surjective_pairing.
  assert (Hout : other ∉ outputs (glob_ephys_files ses_frame2ttl)).
  { apply (bool_decide_unpack _). vm_compute. exact I. }
  split; [exact Hrun|]. split; [exact Hout|].
  destruct (version3A_touches_only_its_outputs lstsq_line lp_pass ses_frame2ttl
              (DisplayBool false) true (21 # 10) s (fst run) (snd run) Hrun)
    as [Hframe Hlogs].
  split; [|exact Hlogs]. rewrite (Hframe other Hout). vm_compute. reflexivity.
Defined.

(** No frame2ttl fronts on the second probe, no camera fronts on the
    first. *)
Lemma version3A_without_sync_channel_witness :
  (2 <= length (glob_ephys_files ses_no_channel))%nat /\
  Forall well_formed (glob_ephys_files ses_no_channel) /\
  Exists (fun ef => channel_fronts "frame2ttl" ef = [])
         (glob_ephys_files ses_no_channel) /\
  Exists (fun ef => channel_fronts "right_camera" ef = [])
         (glob_ephys_files ses_no_channel) /\
  version3A lstsq_line lp_pass ses_no_channel (DisplayBool true) false (21 # 10)
    no_files
  = (after_camera_warning no_files,
     Raise (TypeError "'NoneType' object is not subscriptable")).
Proof.
  assert (Hlen : (2 <= length (glob_ephys_files ses_no_channel))%nat)
    by (cbn; lia).
  assert (Hwf : Forall well_formed (glob_ephys_files ses_no_channel))
    by (repeat constructor).
  assert (Hf : Exists (fun ef => channel_fronts "frame2ttl" ef = [])
                      (glob_ephys_files ses_no_channel))
    by (right; left; vm_compute; reflexivity).
  assert (Hc : Exists (fun ef => channel_fronts "right_camera" ef = [])
                      (glob_ephys_files ses_no_channel))
    by (left; vm_compute; reflexivity).
  repeat (split; [assumption|]).
  exact (version3A_without_sync_channel lstsq_line lp_pass ses_no_channel
           (DisplayBool true) false (21 # 10) no_files Hlen Hwf Hf Hc).
Defined.

(** The linear run on the frame2ttl session. *)
Lemma version3A_linear_completes_witness :
  let efs := glob_ephys_files ses_frame2ttl in
  (2 <= length efs)%nat /\
  Forall well_formed efs /\
  Forall (fun ef => channel_fronts "frame2ttl" ef <> []) efs /\
  exists s' qc_all,
    version3A lstsq_line lp_pass ses_frame2ttl (DisplayBool true) true (21 # 10)
      no_files = (s', Ok qc_all) /\
    (NoDup (outputs efs) ->
     forall ef, ef ∈ efs ->
       exists tbl, files s' !! file_sync ef = Some tbl /\ length tbl = 2%nat).
Proof.
  intros efs.
  assert (Hlen : (2 <= length efs)%nat) by (cbn; lia).
  assert (Hwf : Forall well_formed efs) by (repeat constructor).
  assert (Hall : Forall (fun ef => channel_fronts "frame2ttl" ef <> []) efs)
    by (repeat constructor; vm_compute; discriminate).
  repeat (split; [assumption|]).
  exact (version3A_linear_completes lstsq_line lp_pass ses_frame2ttl
           (DisplayBool true) (21 # 10) no_files Hlen Hwf Hall).
Defined.

(** After the run both sync files can be applied; the reference probe's
    gives the times back. *)
Lemma version3A_then_apply_sync_witness :
  let efs := glob_ephys_files ses_frame2ttl in
  let run := version3A lstsq_line lp_pass ses_frame2ttl (DisplayBool false) true
               (21 # 10) no_files in
  let times := [0; 1 # 2; 7] in
  (2 <= length efs)%nat /\
  NoDup (outputs efs) /\
  run = (fst run, Ok true) /\
  (forall ef, ef ∈ efs ->
     exists out, apply_sync (file_sync ef) times true (fst run) = (fst run, Ok out) /\
                 length out = length times) /\
  (exists iref ef_ref out,
     efs !! iref = Some ef_ref /\
     first_maximum (map total_events efs) iref /\
     apply_sync (file_sync ef_ref) times true (fst run) = (fst run, Ok out) /\
     Forall2 Qeq out times).
Proof.
  intros efs run times.
  assert (Hlen : (2 <= length efs)%nat) by (cbn; lia).
  assert (Hnd : NoDup (outputs efs)).
  { apply (bool_decide_unpack _). vm_compute. exact I. }
  assert (Hrun : run = (fst run, Ok true)) by (vm_compute; reflexivity).
  repeat (split; [assumption|]).
  exact (version3A_then_apply_sync lstsq_line lp_pass ses_frame2ttl
           (DisplayBool false) true (21 # 10) no_files (fst run) true times
           Hlen Hnd Hrun).
Defined.

(** The two probes of the 3B session against its NI-DAQ unit. *)
Lemma version3B_fits_every_probe_to_the_nidq_witness :
  let probes := filter (fun ef => nidq ef <> true) (glob_ephys_files ses_3B) in
  let run := version3B lstsq_line lp_pass fronts_of_channel ses_3B
               (DisplayBool false) true (25 # 10) no_files in
  (2 <= length probes)%nat /\
  run = (fst run, Ok true) /\
  exists nidq_file channel,
    filter (fun ef => nidq ef = true) (glob_ephys_files ses_3B) = [nidq_file] /\
    sync_map nidq_file !! "imec_sync" = Some channel /\
    let tref := fronts_of_channel (spikeglx_sync nidq_file) channel in
    forall ef, ef ∈ probes ->
      exists channel' tbl qc,
        sync_map ef !! "imec_sync" = Some channel' /\
        length (fronts_of_channel (spikeglx_sync ef) channel') = length tref /\
        probe_fit lstsq_line lp_pass (fronts_of_channel (spikeglx_sync ef) channel')
                  tref (_get_sr ef) true (25 # 10) = Ok (tbl, qc) /\
        (true = true -> qc = true) /\
        (NoDup (outputs probes) ->
           files (fst run) !! file_sync ef = Some tbl /\
           files (fst run) !! file_ts ef = Some (rescale (_get_sr ef) tbl)).
Proof.
  intros probes run.
  assert (Hlen : (2 <= length probes)%nat) by (vm_compute; lia).
  assert (Hrun : run = (fst run, Ok true)) by (vm_compute; reflexivity).
  repeat (split; [assumption|]).
  exact (version3B_fits_every_probe_to_the_nidq lstsq_line lp_pass
           fronts_of_channel ses_3B (DisplayBool false) true (25 # 10)
           no_files (fst run) true Hlen Hrun).
Defined.

(** Two probes and no NI-DAQ file. *)
Lemma version3B_needs_one_nidq_with_imec_sync_witness :
  let probes := filter (fun ef => nidq ef <> true)
                       (glob_ephys_files ses_3B_no_nidq) in
  let nidq_files := filter (fun ef => nidq ef = true)
                           (glob_ephys_files ses_3B_no_nidq) in
  (2 <= length probes)%nat /\
  length nidq_files <> 1%nat /\
  version3B lstsq_line lp_pass fronts_of_channel ses_3B_no_nidq
    (DisplayBool true) false (25 # 10) no_files
  = (no_files, Raise AssertionError).
Proof.
  intros probes nidq_files.
  assert (Hlen : (2 <= length probes)%nat) by (vm_compute; lia).
  assert (Hn : length nidq_files <> 1%nat) by (vm_compute; lia).
  repeat (split; [assumption|]).
  destruct (version3B_needs_one_nidq_with_imec_sync lstsq_line lp_pass
              fronts_of_channel ses_3B_no_nidq (DisplayBool true) false
              (25 # 10) no_files Hlen) as [Hassert _].
  exact (Hassert Hn).
Defined.

(** The second probe missed a front: the first probe's files are there,
    the run has failed. *)
Lemma version3B_stops_at_the_first_mismatch_witness :
  let probes := filter (fun ef => nidq ef <> true)
                       (glob_ephys_files ses_3B_short) in
  let tref := fronts_of_channel (spikeglx_sync nidq_3B) 3 in
  (2 <= length probes)%nat /\
  filter (fun ef => nidq ef = true) (glob_ephys_files ses_3B_short) = [nidq_3B] /\
  sync_map nidq_3B !! "imec_sync" = Some 3%Z /\
  probes = [probe00_3B] ++ probe01_3B_short :: [] /\
  sync_map probe01_3B_short !! "imec_sync" = Some 6%Z /\
  length (fronts_of_channel (spikeglx_sync probe01_3B_short) 6) <> length tref /\
  exists s',
    version3B lstsq_line lp_pass fronts_of_channel ses_3B_short
      (DisplayBool false) true (25 # 10) no_files = (s', Raise AssertionError) /\
    exists c tbl qc, sync_map probe00_3B !! "imec_sync" = Some c /\
      probe_fit lstsq_line lp_pass (fronts_of_channel (spikeglx_sync probe00_3B) c)
                tref (_get_sr probe00_3B) true (25 # 10) = Ok (tbl, qc) /\
      files s' !! file_sync probe00_3B = Some tbl /\
      files s' !! file_ts probe00_3B = Some (rescale (_get_sr probe00_3B) tbl).
Proof.
  intros probes tref.
  assert (Hlen : (2 <= length probes)%nat) by (vm_compute; lia).
  assert (Hnidq : filter (fun ef => nidq ef = true) (glob_ephys_files ses_3B_short)
                  = [nidq_3B]) by (vm_compute; reflexivity).
  assert (Hc : sync_map nidq_3B !! "imec_sync" = Some 3%Z)
    by (vm_compute; reflexivity).
  assert (Hsplit : probes = [probe00_3B] ++ probe01_3B_short :: [])
    by (vm_compute; reflexivity).
  assert (Hc' : sync_map probe01_3B_short !! "imec_sync" = Some 6%Z)
    by (vm_compute; reflexivity).
  assert (Hmis : length (fronts_of_channel (spikeglx_sync probe01_3B_short) 6)
                 <> length tref) by (vm_compute; lia).
  assert (Hdone : forall p, p ∈ [probe00_3B] ->
     exists c r, sync_map p !! "imec_sync" = Some c /\
       length (fronts_of_channel (spikeglx_sync p) c) = length tref /\
       probe_fit lstsq_line lp_pass (fronts_of_channel (spikeglx_sync p) c) tref
                 (_get_sr p) true (25 # 10) = Ok r).
  { intros p Hp. apply list_elem_of_singleton in Hp as ->.
    exists 6%Z.
    destruct (probe_fit lstsq_line lp_pass
                (fronts_of_channel (spikeglx_sync probe00_3B) 6) tref
                (_get_sr probe00_3B) true (25 # 10)) as [r|e] eqn:E.
    - exists r. split; [vm_compute; reflexivity|]. split; reflexivity.
    - vm_compute in E. discriminate E. }
  assert (Hnd : NoDup (outputs [probe00_3B])).
  { apply (bool_decide_unpack _). vm_compute. exact I. }
  repeat (split; [assumption|]).
  destruct (version3B_stops_at_the_first_mismatch lstsq_line lp_pass
              fronts_of_channel ses_3B_short (DisplayBool false) true (25 # 10)
              no_files nidq_3B probe01_3B_short 3 6 [probe00_3B] []
              Hlen Hnidq Hc Hsplit Hdone Hc' Hmis) as (s' & Hrun & Hfiles).
  exists s'. split; [exact Hrun|].
  apply (Hfiles Hnd). by apply list_elem_of_singleton.
Defined.

(** A run on the 3B session leaves the files of the NI-DAQ alone. *)
Lemma version3B_touches_only_its_outputs_witness :
  let probes := filter (fun ef => nidq ef <> true) (glob_ephys_files ses_3B) in
  let s := mkSys (<[file_sync nidq_3B := [(1, 2)]]> ∅) [] [] in
  let run := version3B lstsq_line lp_pass fronts_of_channel ses_3B
               (DisplayBool false) true (25 # 10) s in
  run = (fst run, snd run) /\
  (file_sync nidq_3B ∉ outputs probes) /\
  files (fst run) !! file_sync nidq_3B = Some [(1, 2)] /\
  exists lg, logs (fst run) = logs s ++ lg.
Proof.
  intros probes s run.
  assert (Hrun : run = (fst run, snd run)) by apply surjective_pairing.
  assert (Hout : file_sync nidq_3B ∉ outputs probes).
  { apply (bool_decide_unpack _). vm_compute. exact I. }
  split; [exact Hrun|]. split; [exact Hout|].
  destruct (version3B_touches_only_its_outputs lstsq_line lp_pass
              fronts_of_channel ses_3B (DisplayBool false) true (25 # 10)
              s (fst run) (snd run) Hrun) as [Hframe Hlogs].
  split; [|exact Hlogs]. rewrite (Hframe _ Hout). vm_compute. reflexivity.
Defined.

(** The same two control points at 1 Hz and at 30 kHz. *)
Lemma control_points_depend_on_the_streams_only_witness :
  let pts := [(0, 0 # 50); (1, 51 # 50)] in
  sync_probe_front_times lstsq_line lp_pass ex_t ex_tref 1
    (DisplayBool false) true (21 # 10) no_files = (no_files, Ok (pts, true)) /\
  exists s2' qc',
    sync_probe_front_times lstsq_line lp_pass ex_t ex_tref 30000
      (DisplayBool true) true 2 no_files = (s2', Ok (pts, qc')).
Proof.
  intros pts.
  assert (Hrun : sync_probe_front_times lstsq_line lp_pass ex_t ex_tref 1
                   (DisplayBool false) true (21 # 10) no_files
                 = (no_files, Ok (pts, true)))
    by (vm_compute; reflexivity).
  split; [exact Hrun|].
  exact (control_points_depend_on_the_streams_only lstsq_line lp_pass ex_t ex_tref
           1 30000 (DisplayBool false) (DisplayBool true) true (21 # 10) 2
           no_files no_files no_files pts true Hrun).
Defined.

(** The frame2ttl session synchronised twice. *)
Lemma version3A_again_changes_nothing_witness :
  let run := version3A lstsq_line lp_pass ses_frame2ttl (DisplayBool false) true
               (21 # 10) no_files in
  run = (fst run, Ok true) /\
  exists s2,
    version3A lstsq_line lp_pass ses_frame2ttl (DisplayBool true) true (21 # 10)
      (fst run) = (s2, Ok true) /\
    files s2 = files (fst run).
Proof.
  intros run.
  assert (Hrun : run = (fst run, Ok true)) by (vm_compute; reflexivity).
  split; [exact Hrun|].
  exact (version3A_again_changes_nothing lstsq_line lp_pass ses_frame2ttl
           (DisplayBool false) (DisplayBool true) true (21 # 10) no_files
           (fst run) true Hrun).
Defined.

(** The 3B session synchronised twice. *)
Lemma version3B_again_changes_nothing_witness :
  let run := version3B lstsq_line lp_pass fronts_of_channel ses_3B
               (DisplayBool false) true (25 # 10) no_files in
  run = (fst run, Ok true) /\
  exists s2,
    version3B lstsq_line lp_pass fronts_of_channel ses_3B (DisplayBool true) true
      (25 # 10) (fst run) = (s2, Ok true) /\
    files s2 = files (fst run).
Proof.
  intros run.
  assert (Hrun : run = (fst run, Ok true)) by (vm_compute; reflexivity).
  split; [exact Hrun|].
  exact (version3B_again_changes_nothing lstsq_line lp_pass fronts_of_channel
           ses_3B (DisplayBool false) (DisplayBool true) true (25 # 10) no_files
           (fst run) true Hrun).
Defined.

(** The flag of the run on the frame2ttl session. *)
Lemma version3A_flag_is_the_conjunction_witness :
  let efs := glob_ephys_files ses_frame2ttl in
  let run := version3A lstsq_line lp_pass ses_frame2ttl (DisplayBool false) true
               (21 # 10) no_files in
  (2 <= length efs)%nat /\
  run = (fst run, Ok true) /\
  exists aux d ef_ref tref,
    get_sync_fronts efs aux = Ok (Some d) /\
    efs !! np.argmax (nsync d) = Some ef_ref /\
    d_times d !! np.argmax (nsync d) = Some tref /\
    let m := py_min_nat (map (fun t => length t) (d_times d)) in
    (true = true <->
     forall k t, k <> np.argmax (nsync d) -> d_times d !! k = Some t ->
       exists pts,
         probe_fit lstsq_line lp_pass (take m t) (take m tref) (_get_sr ef_ref)
                   true (21 # 10)
         = Ok (pts, true)).
Proof.
  intros efs run.
  assert (Hlen : (2 <= length efs)%nat) by (cbn; lia).
  assert (Hrun : run = (fst run, Ok true)) by (vm_compute; reflexivity).
  split; [exact Hlen|]. split; [exact Hrun|].
  exact (version3A_flag_is_the_conjunction lstsq_line lp_pass ses_frame2ttl
           (DisplayBool false) true (21 # 10) no_files (fst run) true Hlen Hrun).
Defined.

(** The flag of the run on the 3B session. *)
Lemma version3B_flag_is_the_conjunction_witness :
  let probes := filter (fun ef => nidq ef <> true) (glob_ephys_files ses_3B) in
  let run := version3B lstsq_line lp_pass fronts_of_channel ses_3B
               (DisplayBool false) true (25 # 10) no_files in
  (2 <= length probes)%nat /\
  run = (fst run, Ok true) /\
  exists nidq_file channel,
    filter (fun ef => nidq ef = true) (glob_ephys_files ses_3B) = [nidq_file] /\
    sync_map nidq_file !! "imec_sync" = Some channel /\
    let tref := fronts_of_channel (spikeglx_sync nidq_file) channel in
    (true = true <->
     forall ef channel' tbl qc, ef ∈ probes ->
       sync_map ef !! "imec_sync" = Some channel' ->
       probe_fit lstsq_line lp_pass (fronts_of_channel (spikeglx_sync ef) channel')
                 tref (_get_sr ef) true (25 # 10) = Ok (tbl, qc) ->
       qc = true).
Proof.
  intros probes run.
  assert (Hlen : (2 <= length probes)%nat) by (vm_compute; lia).
  assert (Hrun : run = (fst run, Ok true)) by (vm_compute; reflexivity).
  split; [exact Hlen|]. split; [exact Hrun|].
  exact (version3B_flag_is_the_conjunction lstsq_line lp_pass fronts_of_channel
           ses_3B (DisplayBool false) true (25 # 10) no_files (fst run) true
           Hlen Hrun).
Defined.
